(** * The form proxy and the photo split-compare slider of amphtml

    A shallow embedding of [extensions/amp-form/0.1/form-proxy.js] (which
    also carries the [amp-photo-split-compare] element) and the properties
    of the two components.

    The JavaScript heap is an explicit [State]: DOM nodes, windows, proxy
    objects and widget objects live in finite maps keyed by their identity.
    Code that can raise runs in the monad [M], a state monad whose results
    are [Ok] or [Throw]; a raised exception keeps the mutations done before
    it, as in JavaScript.  Closures made by the source are data
    ([VProxyMethod], [PAccessor], [ReadOnce], [AttrAccessor],
    [DirectAccessor], [Handler]) run by the interpreters [call_value],
    [proxy_get], [proxy_set] and [run_handler].

    What the browser provides and the source does not define is either
    standard DOM behaviour written out here (attributes, the child list,
    named access to the controls of a form, the declarations of an inline
    style) or a field of [Env]. *)

From Stdlib Require Import String Ascii List ZArith Bool Lia.
From stdpp Require Import base option list gmap strings fin_maps pretty.
Import ListNotations.
Local Open Scope string_scope.
Local Open Scope list_scope.

(** ** Numbers

    JavaScript numbers are IEEE doubles.  The source only subtracts two of
    them, compares with [<], tests truthiness and converts from and to
    strings, so the model is generic in the number type and its
    operations. *)
Class JSNumber (num : Type) := {
  num_of_Z : Z -> num;
  (** [a - b] *)
  num_sub : num -> num -> num;
  (** [a < b] on two numbers; false when either is NaN *)
  num_ltb : num -> num -> bool;
  (** ToBoolean is false: [+0], [-0] and [NaN] *)
  num_falsy : num -> bool;
  (** Number::toString *)
  num_to_string : num -> string;
  (** StringToNumber, the ToNumber of a string *)
  string_to_num : string -> num;
  (** [parseInt(s, 10)] *)
  parseInt10 : string -> num;
  num_one_truthy : num_falsy (num_of_Z 1) = false;
}.

(** ** Values and results *)

(** Functions of the host engine.  The DOM methods the source relies on
    have their semantics written out in [native_call]; [NHost] stands for
    any other native function, run by [host_method]. *)
Inductive native :=
  | NGetAttribute | NSetAttribute | NRemoveAttribute
  | NRemoveChild | NInsertBefore | NAppendChild | NCloneNode
  | NHost (name : string).

Inductive value {num : Type} :=
  | VUndefined
  | VNull
  | VBool (b : bool)
  | VNum (n : num)
  | VStr (s : string)
  | VNode (n : nat)            (* a DOM node *)
  | VProxy (p : nat)           (* an object made by [new FormProxy(form)] *)
  | VNative (f : native)
  | VProxyMethod (method : value)
      (* function() { return method.apply(this.form_, arguments); } *)
  | VHostObj (tag : string).   (* another host object: a style declaration,
                                  a live collection, ... *)
Arguments value : clear implicits.

Inductive exn :=
  | TypeError (msg : string)
  | RangeError (msg : string)
  | DOMException (name : string)
  | HostError (msg : string).

Inductive Result (A : Type) :=
  | Ok (a : A)
  | Throw (e : exn).
Arguments Ok {A} a.
Arguments Throw {A} e.

Definition is_ok {A} (r : Result A) : bool :=
  match r with Ok _ => true | Throw _ => false end.

(** ** Data of the form proxy *)

(** @enum LegacyPropAccessType *)
Inductive LegacyPropAccessType := ATTR | READ_ONCE.

(** @enum LegacyPropDataType *)
Inductive LegacyPropDataType := URL | BOOL | TOGGLE.

(** An entry of [LEGACY_PROPS]. *)
Record LegacyDesc {num : Type} := mkLegacyDesc {
  access : LegacyPropAccessType;
  attr : option string;
  type : option LegacyPropDataType;
  def : option (value num);
}.
Arguments LegacyDesc : clear implicits.
Arguments mkLegacyDesc {num} _ _ _ _.

(** What [Object.getOwnPropertyDescriptor] returns for a property of a
    host prototype.  A native getter or setter is named by a string and
    run by [host_getter] / [host_setter]. *)
Record PropertyDescriptor {num : Type} := mkDescriptor {
  enumerable : bool;
  d_value : option (value num);
  d_get : option string;
  d_set : option string;
}.
Arguments PropertyDescriptor : clear implicits.
Arguments mkDescriptor {num} _ _ _ _.

(** A host object with its prototype chain: the own properties of the
    object, in enumeration order, followed by those of its prototype, of
    the prototype's prototype, and so on. *)
Definition HostObject (num : Type) : Type :=
  list (list (string * PropertyDescriptor num)).

(** A property of [FormProxy.prototype] as [createFormProxyConstr] binds
    it. *)
Inductive ProtoProperty {num : Type} :=
  | PMethod (method : value num)
      (* FormProxyProto[name] = function() {
           return method.apply(this.form_, arguments); } *)
  | PAccessor (get set : option string).
      (* spec.get = function() { return property.get.call(this.form_); }
         spec.set = function(value) {
           return property.set.call(this.form_, value); } *)
Arguments ProtoProperty : clear implicits.

(** An own property of a proxy object, apart from [form_]. *)
Inductive OwnProperty {num : Type} :=
  | ReadOnce (actual : value num)
      (* { get() { return actual; } } *)
  | AttrAccessor (attr : string) (desc : LegacyDesc num)
      (* the getter and setter of the ATTR branch, closed over
         [proxy], [attr] and [desc] *)
  | DirectAccessor (form : nat)
      (* { get() { return form[name]; }, set(value) { form[name] = value; } } *)
  | OwnData (v : value num).
      (* a data property made by an assignment to the proxy *)
Arguments OwnProperty : clear implicits.

Record Proxy {num : Type} := mkProxy {
  form_ : value num;
  proto : gmap string (ProtoProperty num);   (* the constructor's prototype *)
  own : gmap string (OwnProperty num);
}.
Arguments Proxy : clear implicits.
Arguments mkProxy {num} _ _ _.

(** A window: the five classes the proxy builder walks (each one absent
    or given by its prototype), the names of the DOM attributes the engine
    keeps as own properties of every element (none in an engine with
    attributes on the prototype chain), and the [FormProxy] slot. *)
Record Window {num : Type} := mkWindow {
  HTMLFormElement : option (HostObject num);
  HTMLElement : option (HostObject num);
  Element : option (HostObject num);
  Node_ : option (HostObject num);
  EventTarget : option (HostObject num);
  instanceProps : list string;
  FormProxy : option (gmap string (ProtoProperty num));
}.
Arguments Window : clear implicits.
Arguments mkWindow {num} _ _ _ _ _ _ _.

(** ** Data of the slider *)

(** The listeners [createListeners] registers: a method of the widget [w]
    bound to it. *)
Inductive Handler :=
  | SliderBeginsMoving (w : nat)
  | WhileSliderMoving (w : nat)
  | WhenSliderStops (w : nat).

Record Touch {num : Type} := mkTouch { pageX : num }.
Arguments Touch : clear implicits.
Arguments mkTouch {num} _.

(** An event; [touches] is absent on events that are not touch events. *)
Record Event {num : Type} := mkEvent {
  e_type : string;
  touches : option (list (Touch num));
}.
Arguments Event : clear implicits.
Arguments mkEvent {num} _ _.

(** The fields of an [AmpPhotoSplitCompare] object. *)
Record Widget {num : Type} := mkWidget {
  element : nat;
  image1Container_ : nat;
  image2Container_ : nat;
  image1_ : nat;
  image2_ : nat;
  slider_ : nat;
  myText_ : string;
  startX : option num;
  startWidth : option num;
}.
Arguments Widget : clear implicits.
Arguments mkWidget {num} _ _ _ _ _ _ _ _ _.

(** ** The DOM store *)

(** A DOM node.  [style_] holds the strings assigned through
    [node.style.x = s] as they were assigned, and [declared] the
    declarations the inline style holds: the engine keeps an assigned
    string only when it is a value of the property, and [node.style.x]
    reads the declaration, not the string assigned.  [props] holds the
    properties assigned by script ([$p], [src], [height], [width]); the
    reflection the browser applies to them is outside the model.
    [attributes] holds the content attributes; the [style] attribute, which
    the engine rewrites when a declaration changes and the source never
    reads, is not kept in step with [declared].  [offsetLeft] is what
    layout answers for the node in the state at hand; the model does not
    compute layout. *)
Record Node {num : Type} := Build_Node_ {
  tagName : string;
  attributes : gmap string string;
  className : string;
  style_ : gmap string string;
  props : gmap string (value num);
  childNodes : list nat;
  parentNode : option nat;
  listeners : list (string * Handler);
  offsetLeft : num;
  defaultView : nat;           (* ownerDocument.defaultView *)
  declared : gmap string string;
}.
Arguments Node : clear implicits.
Arguments Build_Node_ {num} _ _ _ _ _ _ _ _ _ _ _.

(** A node whose inline style holds no declaration. *)
Definition mkNode {num : Type} (tag : string) (attrs : gmap string string)
    (class_ : string) (assigned : gmap string string) (ps : gmap string (value num))
    (kids : list nat) (parent : option nat) (ls : list (string * Handler))
    (off : num) (view : nat) : Node num :=
  Build_Node_ tag attrs class_ assigned ps kids parent ls off view ∅.

Record State {num : Type} := mkState {
  blacklistedProperties : option (list string);
  windows : gmap nat (Window num);
  nodes : gmap nat (Node num);
  proxies : gmap nat (Proxy num);
  widgets : gmap nat (Widget num);
}.
Arguments State : clear implicits.
Arguments mkState {num} _ _ _ _ _.

(** The state monad with exceptions. *)
Definition M (num : Type) (A : Type) : Type := State num -> Result A * State num.

Definition ret {num A} (a : A) : M num A := fun σ => (Ok a, σ).
Definition throw {num A} (e : exn) : M num A := fun σ => (Throw e, σ).
Definition bind {num A B} (c : M num A) (k : A -> M num B) : M num B :=
  fun σ => match c σ with
           | (Ok a, σ') => k a σ'
           | (Throw e, σ') => (Throw e, σ')
           end.
(** A computation that reads the state. *)
Definition lift {num A} (f : State num -> Result A) : M num A :=
  fun σ => (f σ, σ).
(** [try { c } finally { f }] *)
Definition try_finally {num A} (c : M num A) (f : M num unit) : M num A :=
  fun σ => match c σ with
           | (r, σ') =>
               match f σ' with
               | (Ok _, σ'') => (r, σ'')
               | (Throw e, σ'') => (Throw e, σ'')
               end
           end.

Notation "'let!' x ':=' c 'in' k" := (bind c (fun x => k))
  (at level 10, x pattern, c at level 100, k at level 200).
Notation "c ';;' k" := (bind c (fun _ => k))
  (at level 100, k at level 200, right associativity).

(** The browser outside the DOM written out below, and the modules the
    source imports ([../../../src/string], [../../../src/url],
    [../../../src/log]), which are not part of the sources at hand. *)
Record Env {num : Type} := mkEnv {
  (** a native getter, applied to [this]; getters read *)
  host_getter : string -> value num -> State num -> Result (value num);
  (** a native setter, applied to [this] and the value *)
  host_setter : string -> value num -> value num -> M num unit;
  (** a native function other than the DOM methods of [native] *)
  host_method : string -> value num -> list (value num) -> M num (value num);
  (** reading a property the model does not know from a node or from a
      host object *)
  host_prop : State num -> value num -> string -> Result (value num);
  (** ToString of an object *)
  host_to_string : value num -> string;
  (** [window.getComputedStyle(node).width] *)
  computedWidth : State num -> nat -> string;
  (** [startsWith(string, prefix)] of [src/string] *)
  startsWith : string -> string -> bool;
  (** [parseUrl(url).href] of [src/url] *)
  parseUrl_href : string -> string;
  (** [dev().assertElement(x)] of [src/log] *)
  assertElement : value num -> Result (value num);
  (** the CSS parser on a string assigned to a property of an inline
      style: the declaration the engine keeps, as it reads back, or nothing
      when the string is not a value of the property *)
  css_value : string -> string -> option string;
}.
Arguments Env : clear implicits.
Arguments mkEnv {num} _ _ _ _ _ _ _ _ _ _.

(** ** JavaScript primitives *)

Definition upper_ascii (c : ascii) : ascii :=
  let n := nat_of_ascii c in
  if Nat.leb 97 n && Nat.leb n 122 then ascii_of_nat (n - 32) else c.

(** [s.toUpperCase()], on ASCII letters (the names of DOM properties are
    ASCII). *)
Fixpoint toUpperCase (s : string) : string :=
  match s with
  | EmptyString => EmptyString
  | String c r => String (upper_ascii c) (toUpperCase r)
  end.

(** The properties every object inherits from [Object.prototype]: they
    answer the [in] operator and are not enumerable. *)
Definition object_prototype_keys : list string :=
  ["constructor"; "hasOwnProperty"; "isPrototypeOf"; "propertyIsEnumerable";
   "toLocaleString"; "toString"; "valueOf"; "__proto__";
   "__defineGetter__"; "__defineSetter__"; "__lookupGetter__";
   "__lookupSetter__"].

Section Model.
Context {num : Type} {N : JSNumber num}.
Variable env : Env num.

Local Abbreviation value := (value num).
Local Abbreviation State := (State num).
Local Abbreviation Node := (Node num).
Local Abbreviation M := (M num).

(** ToBoolean *)
Definition to_boolean (v : value) : bool :=
  match v with
  | VUndefined | VNull => false
  | VBool b => b
  | VNum n => negb (num_falsy n)
  | VStr s => negb (String.eqb s "")
  | _ => true
  end.

(** ToString *)
Definition to_string (v : value) : string :=
  match v with
  | VUndefined => "undefined"
  | VNull => "null"
  | VBool true => "true"
  | VBool false => "false"
  | VNum n => num_to_string n
  | VStr s => s
  | _ => host_to_string env v
  end.

(** [v == null] *)
Definition is_nullish (v : value) : bool :=
  match v with VUndefined | VNull => true | _ => false end.

(** [typeof v == 'function'] *)
Definition is_function (v : value) : bool :=
  match v with VNative _ | VProxyMethod _ => true | _ => false end.

(** [v === 'true'] and the like *)
Definition is_str (v : value) (s : string) : bool :=
  match v with VStr s' => String.eqb s' s | _ => false end.

Definition arg (i : nat) (args : list value) : value := nth i args VUndefined.

(** ** Updating nodes and the state *)

Definition set_attributes (a : gmap string string) (nd : Node) : Node :=
  Build_Node_ (tagName nd) a (className nd) (style_ nd) (props nd) (childNodes nd)
              (parentNode nd) (listeners nd) (offsetLeft nd) (defaultView nd)
              (declared nd).
Definition set_className (c : string) (nd : Node) : Node :=
  Build_Node_ (tagName nd) (attributes nd) c (style_ nd) (props nd) (childNodes nd)
              (parentNode nd) (listeners nd) (offsetLeft nd) (defaultView nd)
              (declared nd).
Definition set_style (s : gmap string string) (nd : Node) : Node :=
  Build_Node_ (tagName nd) (attributes nd) (className nd) s (props nd) (childNodes nd)
              (parentNode nd) (listeners nd) (offsetLeft nd) (defaultView nd)
              (declared nd).
Definition set_props (p : gmap string value) (nd : Node) : Node :=
  Build_Node_ (tagName nd) (attributes nd) (className nd) (style_ nd) p (childNodes nd)
              (parentNode nd) (listeners nd) (offsetLeft nd) (defaultView nd)
              (declared nd).
Definition set_childNodes (l : list nat) (nd : Node) : Node :=
  Build_Node_ (tagName nd) (attributes nd) (className nd) (style_ nd) (props nd) l
              (parentNode nd) (listeners nd) (offsetLeft nd) (defaultView nd)
              (declared nd).
Definition set_parentNode (p : option nat) (nd : Node) : Node :=
  Build_Node_ (tagName nd) (attributes nd) (className nd) (style_ nd) (props nd)
              (childNodes nd) p (listeners nd) (offsetLeft nd) (defaultView nd)
              (declared nd).
Definition set_listeners (l : list (string * Handler)) (nd : Node) : Node :=
  Build_Node_ (tagName nd) (attributes nd) (className nd) (style_ nd) (props nd)
              (childNodes nd) (parentNode nd) l (offsetLeft nd) (defaultView nd)
              (declared nd).

Definition set_declared (d : gmap string string) (nd : Node) : Node :=
  Build_Node_ (tagName nd) (attributes nd) (className nd) (style_ nd) (props nd)
              (childNodes nd) (parentNode nd) (listeners nd) (offsetLeft nd)
              (defaultView nd) d.
(** What a layout does to a node. *)
Definition set_offsetLeft (x : num) (nd : Node) : Node :=
  Build_Node_ (tagName nd) (attributes nd) (className nd) (style_ nd) (props nd)
              (childNodes nd) (parentNode nd) (listeners nd) x
              (defaultView nd) (declared nd).

Definition set_windows (w : gmap nat (Window num)) (σ : State) : State :=
  mkState (blacklistedProperties σ) w (nodes σ) (proxies σ) (widgets σ).
Definition set_nodes (n : gmap nat Node) (σ : State) : State :=
  mkState (blacklistedProperties σ) (windows σ) n (proxies σ) (widgets σ).
Definition set_proxies (p : gmap nat (Proxy num)) (σ : State) : State :=
  mkState (blacklistedProperties σ) (windows σ) (nodes σ) p (widgets σ).
Definition set_widgets (w : gmap nat (Widget num)) (σ : State) : State :=
  mkState (blacklistedProperties σ) (windows σ) (nodes σ) (proxies σ) w.

(** Changes the node [n], if the store has it. *)
Definition update_node (n : nat) (f : Node -> Node) (σ : State) : State :=
  set_nodes (alter f n (nodes σ)) σ.

(** ** The child list *)

(** The list without the child [c]. *)
Fixpoint remove_child_list (c : nat) (l : list nat) : list nat :=
  match l with
  | [] => []
  | x :: r => if decide (x = c) then r else x :: remove_child_list c r
  end.

(** The list with [c] put before the child [ref]; [None] when [ref] is not
    in the list. *)
Fixpoint insert_before_list (c ref : nat) (l : list nat) : option (list nat) :=
  match l with
  | [] => None
  | x :: r =>
      if decide (x = ref) then Some (c :: x :: r)
      else match insert_before_list c ref r with
           | Some r' => Some (x :: r')
           | None => None
           end
  end.

(** The child after [c]. *)
Fixpoint next_sibling_list (c : nat) (l : list nat) : option nat :=
  match l with
  | [] => None
  | x :: r => if decide (x = c) then head r else next_sibling_list c r
  end.

(** Takes the node [c] out of its parent, if it has one. *)
Definition detach (c : nat) (σ : State) : State :=
  match nodes σ !! c with
  | Some cd =>
      match parentNode cd with
      | Some p =>
          update_node c (set_parentNode None)
            (update_node p (fun pd => set_childNodes (remove_child_list c (childNodes pd)) pd) σ)
      | None => σ
      end
  | None => σ
  end.

(** [parent.removeChild(child)]: a child of another node is refused with
    NotFoundError. *)
Definition removeChild (parent : nat) (child : value) : M value :=
  fun σ =>
    match child with
    | VNode c =>
        match nodes σ !! c with
        | Some cd =>
            if decide (parentNode cd = Some parent)
            then (Ok (VNode c), detach c σ)
            else (Throw (DOMException "NotFoundError"), σ)
        | None => (Throw (DOMException "NotFoundError"), σ)
        end
    | _ => (Throw (TypeError "parameter 1 is not of type 'Node'"), σ)
    end.

(** [parent.insertBefore(node, ref)]: the reference child must be a child
    of [parent] or null; the node leaves its former parent first.  The
    other validity checks of the DOM (a node is not inserted into its own
    descendants) and the insertion of a node before itself are not
    modelled. *)
Definition insertBefore (parent : nat) (node ref : value) : M value :=
  fun σ =>
    match node with
    | VNode c =>
        match ref with
        | VNull | VUndefined =>
            let σ1 := detach c σ in
            (Ok (VNode c),
             update_node c (set_parentNode (Some parent))
               (update_node parent (fun pd => set_childNodes (childNodes pd ++ [c]) pd) σ1))
        | VNode r =>
            match nodes σ !! r with
            | Some rd =>
                if decide (parentNode rd = Some parent) then
                  let σ1 := detach c σ in
                  match nodes σ1 !! parent with
                  | Some pd =>
                      match insert_before_list c r (childNodes pd) with
                      | Some l =>
                          (Ok (VNode c),
                           update_node c (set_parentNode (Some parent))
                             (update_node parent (set_childNodes l) σ1))
                      | None => (Throw (DOMException "NotFoundError"), σ1)
                      end
                  | None => (Throw (DOMException "NotFoundError"), σ1)
                  end
                else (Throw (DOMException "NotFoundError"), σ)
            | None => (Throw (DOMException "NotFoundError"), σ)
            end
        | _ => (Throw (TypeError "parameter 2 is not of type 'Node'"), σ)
        end
    | _ => (Throw (TypeError "parameter 1 is not of type 'Node'"), σ)
    end.

(** [parent.appendChild(node)] *)
Definition appendChild (parent : nat) (node : value) : M value :=
  insertBefore parent node VNull.

(** A node identity the store does not use. *)
Definition fresh_node (σ : State) : nat := fresh (dom (nodes σ)).

(** A node as [document.createElement] makes it: no attributes, no
    children, no parent. *)
Definition new_element (tag : string) (doc : nat) : Node :=
  mkNode tag ∅ "" ∅ ∅ [] None [] (num_of_Z 0) doc.

(** [document.createElement(tag)], in the document of the window [w]. *)
Definition createElement (w : nat) (tag : string) : M nat :=
  fun σ =>
    let n := fresh_node σ in
    (Ok n, set_nodes (<[n := new_element tag w]> (nodes σ)) σ).

(** [node.cloneNode(false)]: a node of the same kind with the same
    attributes and the same inline style, outside the tree, without the
    properties set by script and without listeners. *)
Definition cloneNode (n : nat) : M value :=
  fun σ =>
    match nodes σ !! n with
    | Some nd =>
        let c := fresh_node σ in
        (Ok (VNode c),
         set_nodes (<[c := set_declared (declared nd)
                             (mkNode (tagName nd) (attributes nd) (className nd) (style_ nd)
                                     ∅ [] None [] (num_of_Z 0) (defaultView nd))]>
                      (nodes σ)) σ)
    | None => (Throw (TypeError "Illegal invocation"), σ)
    end.

(** [node.getAttribute(name)]: null when the attribute is missing. *)
Definition getAttribute (n : nat) (name : string) (σ : State) : option string :=
  match nodes σ !! n with
  | Some nd => attributes nd !! name
  | None => None
  end.

Definition attr_value (a : option string) : value :=
  match a with Some s => VStr s | None => VNull end.

Definition setAttribute (n : nat) (name val : string) (σ : State) : State :=
  update_node n (fun nd => set_attributes (<[name := val]> (attributes nd)) nd) σ.

Definition removeAttribute (n : nat) (name : string) (σ : State) : State :=
  update_node n (fun nd => set_attributes (delete name (attributes nd)) nd) σ.

(** Calls a native function.  The DOM methods refuse a [this] that is not
    a node of the store.  The source only clones with [deep = false]; a
    deep clone is outside the model. *)
Definition native_call (f : native) (this : value) (args : list value) : M value :=
  match f with
  | NHost name => host_method env name this args
  | _ =>
      fun σ =>
        match this with
        | VNode n =>
            if decide (is_Some (nodes σ !! n)) then
              match f with
              | NGetAttribute =>
                  (Ok (attr_value (getAttribute n (to_string (arg 0 args)) σ)), σ)
              | NSetAttribute =>
                  (Ok VUndefined,
                   setAttribute n (to_string (arg 0 args)) (to_string (arg 1 args)) σ)
              | NRemoveAttribute =>
                  (Ok VUndefined, removeAttribute n (to_string (arg 0 args)) σ)
              | NRemoveChild => removeChild n (arg 0 args) σ
              | NInsertBefore => insertBefore n (arg 0 args) (arg 1 args) σ
              | NAppendChild => appendChild n (arg 0 args) σ
              | NCloneNode =>
                  if to_boolean (arg 0 args)
                  then (Throw (HostError "deep clone"), σ)
                  else cloneNode n σ
              | NHost name => host_method env name this args σ
              end
            else (Throw (TypeError "Illegal invocation"), σ)
        | _ => (Throw (TypeError "Illegal invocation"), σ)
        end
  end.

(** ** Properties of host objects *)

(** The first entry for [name] in a list of properties. *)
Fixpoint assoc {A} (name : string) (l : list (string * A)) : option A :=
  match l with
  | [] => None
  | (k, a) :: r => if String.eqb k name then Some a else assoc name r
  end.

(** [Object.getOwnPropertyDescriptor(o, name)]: the chain is not
    searched. *)
Definition getOwnPropertyDescriptor (o : HostObject num) (name : string)
  : option (PropertyDescriptor num) :=
  match o with
  | [] => None
  | ownprops :: _ => assoc name ownprops
  end.

(** The descriptor [o[name]] resolves to, searching the chain. *)
Fixpoint chain_lookup (o : HostObject num) (name : string)
  : option (PropertyDescriptor num) :=
  match o with
  | [] => None
  | ownprops :: parent =>
      match assoc name ownprops with
      | Some d => Some d
      | None => chain_lookup parent name
      end
  end.

(** The names [for (name in o)] visits among the own properties of one
    object: those not visited so far that are enumerable; a property that
    is not enumerable still hides the same name further up. *)
Fixpoint for_in_props (visited : list string)
    (ownprops : list (string * PropertyDescriptor num)) : list string :=
  match ownprops with
  | [] => []
  | (k, d) :: r =>
      if bool_decide (k ∈ visited) then for_in_props visited r
      else (if enumerable d then [k] else []) ++ for_in_props (k :: visited) r
  end.

(** [for (name in o)]: the object first, then its prototype chain. *)
Fixpoint for_in_chain (visited : list string) (o : HostObject num) : list string :=
  match o with
  | [] => []
  | ownprops :: parent =>
      for_in_props visited ownprops
        ++ for_in_chain (visited ++ map fst ownprops) parent
  end.

(** [for (name in prototype)] where [prototype = klass && klass.prototype]. *)
Definition for_in (prototype : option (HostObject num)) : list string :=
  match prototype with
  | Some o => for_in_chain [] o
  | None => []
  end.

(** ** Named access to the controls of a form

    A form answers [form[name]] with the control of that name or id
    before any property of its own, methods included: this is the masking
    the proxy works around.  The controls of a form are its listed
    descendants (and images); association through a [form] attribute and
    the map of past names are not modelled. *)

Definition is_form (nd : Node) : bool := String.eqb (tagName nd) "form".

Definition is_named_candidate (nd : Node) : bool :=
  bool_decide (tagName nd ∈ ["button"; "fieldset"; "input"; "object"; "output";
                             "select"; "textarea"; "img"])
  && negb (String.eqb (tagName nd) "input"
           && bool_decide (attributes nd !! "type" = Some "image")).

Definition has_name (nd : Node) (name : string) : bool :=
  bool_decide (attributes nd !! "id" = Some name)
  || bool_decide (attributes nd !! "name" = Some name).

(** The nearest ancestor of [n] that is a form. *)
Fixpoint form_owner_from (fuel : nat) (σ : State) (n : nat) : option nat :=
  match fuel with
  | 0 => None
  | S fuel' =>
      match nodes σ !! n with
      | Some nd =>
          match parentNode nd with
          | Some p =>
              match nodes σ !! p with
              | Some pd => if is_form pd then Some p else form_owner_from fuel' σ p
              | None => None
              end
          | None => None
          end
      | None => None
      end
  end.

Definition form_owner (σ : State) (n : nat) : option nat :=
  form_owner_from (size (nodes σ)) σ n.

(** Whether a node of the store is a control of the form [f] named
    [name]. *)
Definition is_control_named (σ : State) (f : nat) (name : string)
    (entry : nat * Node) : bool :=
  is_named_candidate entry.2 && has_name entry.2 name
  && bool_decide (form_owner σ entry.1 = Some f).

(** The controls of the form [f] named [name]. *)
Definition named_controls (σ : State) (f : nat) (name : string) : list nat :=
  map fst (List.filter (is_control_named σ f name) (map_to_list (nodes σ))).

(** The prototype chain of a node. *)
Definition node_chain (σ : State) (nd : Node) : HostObject num :=
  match windows σ !! defaultView nd with
  | Some w =>
      default [] (if is_form nd then HTMLFormElement w else HTMLElement w)
  | None => []
  end.

Definition node_instanceProps (σ : State) (nd : Node) : list string :=
  match windows σ !! defaultView nd with
  | Some w => instanceProps w
  | None => []
  end.

(** [for (name in node)]: the properties set by script, the attributes the
    engine keeps on the instance, then the prototype chain.  The named
    controls of a form are not enumerated. *)
Definition node_for_in (σ : State) (n : nat) : list string :=
  match nodes σ !! n with
  | Some nd =>
      let expando := map fst (map_to_list (props nd)) in
      let inst := filter (fun k => k ∉ expando) (remove_dups (node_instanceProps σ nd)) in
      expando ++ inst ++ for_in_chain (expando ++ inst) (node_chain σ nd)
  | None => []
  end.

(** The DOM properties of a node the source reads, then the properties set
    by script, then whatever else the engine answers. *)
Definition dom_get (σ : State) (n : nat) (nd : Node) (name : string) : Result value :=
  if String.eqb name "nodeType" then Ok (VNum (num_of_Z 1))
  else if String.eqb name "parentNode" then
    Ok (match parentNode nd with Some p => VNode p | None => VNull end)
  else if String.eqb name "nextSibling" then
    Ok (match parentNode nd with
        | Some p =>
            match nodes σ !! p with
            | Some pd =>
                match next_sibling_list n (childNodes pd) with
                | Some s => VNode s
                | None => VNull
                end
            | None => VNull
            end
        | None => VNull
        end)
  else if String.eqb name "getAttribute" then Ok (VNative NGetAttribute)
  else if String.eqb name "setAttribute" then Ok (VNative NSetAttribute)
  else if String.eqb name "removeAttribute" then Ok (VNative NRemoveAttribute)
  else if String.eqb name "removeChild" then Ok (VNative NRemoveChild)
  else if String.eqb name "insertBefore" then Ok (VNative NInsertBefore)
  else if String.eqb name "appendChild" then Ok (VNative NAppendChild)
  else if String.eqb name "cloneNode" then Ok (VNative NCloneNode)
  else match props nd !! name with
       | Some v => Ok v
       | None => host_prop env σ (VNode n) name
       end.

(** [node[name]]: on a form the controls of that name come first, one
    control as itself and several as a RadioNodeList. *)
Definition node_get (σ : State) (n : nat) (name : string) : Result value :=
  match nodes σ !! n with
  | Some nd =>
      match (if is_form nd then named_controls σ n name else []) with
      | [e] => Ok (VNode e)
      | _ :: _ :: _ => Ok (VHostObj "RadioNodeList")
      | [] => dom_get σ n nd name
      end
  | None => Throw (HostError "no such node")
  end.

(** Whether [name] is a property the engine defines on the node. *)
Definition is_dom_name (σ : State) (nd : Node) (name : string) : bool :=
  bool_decide (name ∈ node_instanceProps σ nd)
  || bool_decide (is_Some (chain_lookup (node_chain σ nd) name)).

(** [node[name] = v], in strict code (the source is a module).  The
    controls of a form do not take part in an assignment: a property of the
    engine runs its native setter, masked or not; for any other name a
    form refuses to redefine the name of one of its controls, and elsewhere
    the name becomes a property of the node. *)
Definition node_set (n : nat) (name : string) (v : value) : M unit :=
  fun σ =>
    match nodes σ !! n with
    | Some nd =>
        if is_dom_name σ nd name then host_setter env name (VNode n) v σ
        else
          match (if is_form nd then named_controls σ n name else []) with
          | _ :: _ => (Throw (TypeError "Cannot assign to read only property"), σ)
          | [] =>
              (Ok tt, update_node n (fun nd => set_props (<[name := v]> (props nd)) nd) σ)
          end
    | None => (Throw (HostError "no such node"), σ)
    end.

(** [form.ownerDocument.defaultView] on a form whose controls [masking]
    are named 'ownerDocument': [form.ownerDocument] is the control, or the
    list of the controls, and its [defaultView] is whatever the page or the
    engine gave it, undefined in a browser. *)
Definition masked_defaultView (σ : State) (masking : list nat) : Result value :=
  match masking with
  | [e] => node_get σ e "defaultView"
  | _ => host_prop env σ (VHostObj "RadioNodeList") "defaultView"
  end.

(** The window of a form, [form.ownerDocument.defaultView], to the point
    where the source first reads a property of it ([win.FormProxy],
    [win.HTMLFormElement]).  [ownerDocument] is read through the form like
    any other name: a control named 'ownerDocument' answers instead of the
    document, and reading a property of its undefined [defaultView] raises
    TypeError.  A [defaultView] of a control that is an object is outside
    the model. *)
Definition window_of (n : nat) : M (nat * Window num) :=
  fun σ =>
    match nodes σ !! n with
    | Some nd =>
        match (if is_form nd then named_controls σ n "ownerDocument" else []) with
        | [] =>
            match windows σ !! defaultView nd with
            | Some w => (Ok (defaultView nd, w), σ)
            | None => (Throw (TypeError "Cannot read property of null"), σ)
            end
        | masking =>
            match masked_defaultView σ masking with
            | Ok v =>
                if is_nullish v
                then (Throw (TypeError "Cannot read property of undefined"), σ)
                else (Throw (HostError "not a window"), σ)
            | Throw e => (Throw e, σ)
            end
        end
    | None => (Throw (HostError "no such node"), σ)
    end.

(** ** Calling functions *)

(** [this.form_], as the functions of [FormProxy.prototype] read it. *)
Definition get_form_ (this : value) : M value :=
  fun σ =>
    match this with
    | VProxy p =>
        match proxies σ !! p with
        | Some px => (Ok (form_ px), σ)
        | None => (Throw (HostError "no such object"), σ)
        end
    | VNode n => (node_get σ n "form_", σ)
    | VUndefined | VNull =>
        (Throw (TypeError "Cannot read property 'form_' of undefined"), σ)
    | VHostObj _ => (host_prop env σ this "form_", σ)
    | _ => (Ok VUndefined, σ)
    end.

(** [f.apply(this, args)] *)
Fixpoint call_value (f : value) (this : value) (args : list value) : M value :=
  match f with
  | VNative n => native_call n this args
  | VProxyMethod method =>
      (* return method.apply(this.form_, arguments); *)
      bind (get_form_ this) (fun form => call_value method form args)
  | _ => throw (TypeError "not a function")
  end.

(** ** Reading and writing the properties of a proxy *)

(** [name in proxy] *)
Definition proxy_has (px : Proxy num) (name : string) : bool :=
  String.eqb name "form_"
  || bool_decide (is_Some (own px !! name))
  || bool_decide (is_Some (proto px !! name))
  || bool_decide (name ∈ object_prototype_keys).

(** [proxy[name]], with the getter of an [AttrAccessor] given by
    [on_attr]. *)
Definition proxy_get_with (on_attr : string -> LegacyDesc num -> M value)
    (p : nat) (name : string) : M value :=
  fun σ =>
    match proxies σ !! p with
    | Some px =>
        if String.eqb name "form_" then (Ok (form_ px), σ)
        else
          match own px !! name with
          | Some (ReadOnce actual) => (Ok actual, σ)
          | Some (AttrAccessor a desc) => on_attr a desc σ
          | Some (DirectAccessor form) => (node_get σ form name, σ)
          | Some (OwnData v) => (Ok v, σ)
          | None =>
              match proto px !! name with
              | Some (PMethod method) => (Ok (VProxyMethod method), σ)
              | Some (PAccessor (Some g) _) =>
                  (* return property.get.call(this.form_); *)
                  (host_getter env g (form_ px) σ, σ)
              | Some (PAccessor None _) => (Ok VUndefined, σ)
              | None =>
                  if bool_decide (name ∈ object_prototype_keys)
                  then (Ok (VNative (NHost name)), σ)
                  else (Ok VUndefined, σ)
              end
          end
    | None => (Throw (HostError "no such object"), σ)
    end.

(** [desc.def !== undefined] *)
Definition def_defined (desc : LegacyDesc num) : bool :=
  match def desc with
  | Some VUndefined | None => false
  | Some _ => true
  end.

(** The getter of the ATTR branch of [setupLegacyProxy].  It starts with
    [proxy.getAttribute(attr)]; were [getAttribute] itself such an accessor
    of the proxy, its getter would call itself without end and the engine
    would raise RangeError. *)
Definition attr_get (p : nat) (a : string) (desc : LegacyDesc num) : M value :=
  let! f := proxy_get_with
              (fun _ _ => throw (RangeError "Maximum call stack size exceeded"))
              p "getAttribute" in
  let! v := call_value f (VProxy p) [VStr a] in
  ret (if is_nullish v && def_defined desc then default VUndefined (def desc)
       else match type desc with
            | Some BOOL => VBool (is_str v "true")
            | Some TOGGLE => VBool (negb (is_nullish v))
            | Some URL =>
                VStr (parseUrl_href env (if to_boolean v then to_string v else ""))
            | None => v
            end).

(** [proxy[name]] *)
Definition proxy_get (p : nat) (name : string) : M value :=
  proxy_get_with (attr_get p) p name.

(** [proxy[name](args)] *)
Definition proxy_call (p : nat) (name : string) (args : list value) : M value :=
  let! f := proxy_get p name in
  call_value f (VProxy p) args.

(** The setter of the ATTR branch of [setupLegacyProxy]. *)
Definition attr_set (p : nat) (a : string) (desc : LegacyDesc num) (v : value) : M unit :=
  let v' := match type desc with
            | Some TOGGLE => if to_boolean v then VStr "" else VNull
            | _ => v
            end in
  if negb (is_nullish v')
  then (proxy_call p "setAttribute" [VStr a; v'] ;; ret tt)
  else (proxy_call p "removeAttribute" [VStr a] ;; ret tt).

Definition set_own (o : gmap string (OwnProperty num)) (px : Proxy num) : Proxy num :=
  mkProxy (form_ px) (proto px) o.
Definition set_form_ (f : value) (px : Proxy num) : Proxy num :=
  mkProxy f (proto px) (own px).

(** [Object.defineProperty(proxy, name, ...)] for a name the proxy does
    not have, and the assignment that makes an own data property. *)
Definition define_own (p : nat) (name : string) (o : OwnProperty num) : M unit :=
  fun σ =>
    (Ok tt, set_proxies (alter (fun px => set_own (<[name := o]> (own px)) px) p (proxies σ)) σ).

(** [proxy[name] = v], in strict code. *)
Definition proxy_set (p : nat) (name : string) (v : value) : M unit :=
  fun σ =>
    match proxies σ !! p with
    | Some px =>
        if String.eqb name "form_"
        then (Ok tt, set_proxies (<[p := set_form_ v px]> (proxies σ)) σ)
        else
          match own px !! name with
          | Some (ReadOnce _) =>
              (Throw (TypeError "Cannot set property which has only a getter"), σ)
          | Some (AttrAccessor a desc) => attr_set p a desc v σ
          | Some (DirectAccessor form) => node_set form name v σ
          | Some (OwnData _) => define_own p name (OwnData v) σ
          | None =>
              match proto px !! name with
              | Some (PAccessor _ (Some s)) =>
                  (* return property.set.call(this.form_, value); *)
                  host_setter env s (form_ px) v σ
              | Some (PAccessor _ None) =>
                  (Throw (TypeError "Cannot set property which has only a getter"), σ)
              | Some (PMethod _) | None => define_own p name (OwnData v) σ
              end
          end
    | None => (Throw (HostError "no such object"), σ)
    end.

(** [v[name]] for any value. *)
Definition get_prop (v : value) (name : string) : M value :=
  match v with
  | VNode n => lift (fun σ => node_get σ n name)
  | VProxy p => proxy_get p name
  | VUndefined | VNull => throw (TypeError "Cannot read property of undefined")
  | VHostObj _ => lift (fun σ => host_prop env σ v name)
  | _ => ret VUndefined
  end.

(** [v[name](args)] *)
Definition method_call (v : value) (name : string) (args : list value) : M value :=
  let! f := get_prop v name in
  call_value f v args.

(** ** form-proxy.js *)


(** [blacklistedProperties && blacklistedProperties.indexOf(name) != -1] *)
Definition blacklisted (bl : option (list string)) (name : string) : bool :=
  match bl with
  | Some l => bool_decide (name ∈ l)
  | None => false
  end.

(** The body of the loop [for (const name in prototype)] of
    [createFormProxyConstr], on the properties bound so far. *)
Definition bind_property (bl : option (list string)) (prototype : HostObject num)
    (FormProxyProto : gmap string (ProtoProperty num)) (name : string)
  : gmap string (ProtoProperty num) :=
  match getOwnPropertyDescriptor prototype name with
  | None => FormProxyProto
  | Some property =>
      if String.eqb (toUpperCase name) name
         || startsWith env name "on"
         || bool_decide (is_Some (FormProxyProto !! name))
         || blacklisted bl name
      then FormProxyProto
      else
        match d_value property with
        | Some method =>
            if is_function method
            then <[name := PMethod method]> FormProxyProto
            else <[name := PAccessor (d_get property) (d_set property)]> FormProxyProto
        | None =>
            <[name := PAccessor (d_get property) (d_set property)]> FormProxyProto
        end
  end.

(** The classes [createFormProxyConstr] walks, in its order. *)
Definition inheritance (win : Window num) : list (option (HostObject num)) :=
  [HTMLFormElement win; HTMLElement win; Element win; Node_ win; EventTarget win].

(** [createFormProxyConstr(win)]: the prototype of the constructor it
    returns. *)
Definition createFormProxyConstr (bl : option (list string)) (win : Window num)
  : gmap string (ProtoProperty num) :=
  fold_left
    (fun FormProxyProto klass =>
       (* const prototype = klass && klass.prototype; *)
       match klass with
       | Some prototype =>
           fold_left (bind_property bl prototype) (for_in (Some prototype)) FormProxyProto
       | None => FormProxyProto
       end)
    (inheritance win) ∅.

Definition set_FormProxy (c : option (gmap string (ProtoProperty num)))
    (win : Window num) : Window num :=
  mkWindow (HTMLFormElement win) (HTMLElement win) (Element win) (Node_ win)
           (EventTarget win) (instanceProps win) c.

(** [getFormProxyConstr(win)] *)
Definition getFormProxyConstr (w : nat) : M (gmap string (ProtoProperty num)) :=
  fun σ =>
    match windows σ !! w with
    | Some win =>
        match FormProxy win with
        | Some c => (Ok c, σ)
        | None =>
            let c := createFormProxyConstr (blacklistedProperties σ) win in
            (Ok c, set_windows (<[w := set_FormProxy (Some c) win]> (windows σ)) σ)
        end
    | None => (Throw (TypeError "Cannot read property 'FormProxy' of null"), σ)
    end.

(** [new constr(form)] *)
Definition new_FormProxy (constr : gmap string (ProtoProperty num)) (form : nat)
  : M nat :=
  fun σ =>
    let p := fresh (dom (proxies σ)) in
    (Ok p, set_proxies (<[p := mkProxy (VNode form) constr ∅]> (proxies σ)) σ).

Definition attr_desc (a : string) : LegacyDesc num := mkLegacyDesc ATTR (Some a) None None.
Definition read_once : LegacyDesc num := mkLegacyDesc READ_ONCE None None None.

(** The table [LEGACY_PROPS]. *)
Definition LEGACY_PROPS : list (string * LegacyDesc num) :=
  [ ("acceptCharset", mkLegacyDesc ATTR (Some "accept-charset") None None);
    ("accessKey", mkLegacyDesc ATTR (Some "accesskey") None None);
    ("action", mkLegacyDesc ATTR None (Some URL) None);
    ("attributes", mkLegacyDesc READ_ONCE None None None);
    ("autocomplete", mkLegacyDesc ATTR None None (Some (VStr "on")));
    ("children", mkLegacyDesc READ_ONCE None None None);
    ("dataset", mkLegacyDesc READ_ONCE None None None);
    ("dir", mkLegacyDesc ATTR None None None);
    ("draggable", mkLegacyDesc ATTR None (Some BOOL) (Some (VBool false)));
    ("elements", mkLegacyDesc READ_ONCE None None None);
    ("encoding", mkLegacyDesc READ_ONCE None None None);
    ("enctype", mkLegacyDesc ATTR None None None);
    ("hidden", mkLegacyDesc ATTR None (Some TOGGLE) (Some (VBool false)));
    ("id", mkLegacyDesc ATTR None None (Some (VStr "")));
    ("lang", mkLegacyDesc ATTR None None None);
    ("localName", mkLegacyDesc READ_ONCE None None None);
    ("method", mkLegacyDesc ATTR None None (Some (VStr "get")));
    ("name", mkLegacyDesc ATTR None None None);
    ("noValidate", mkLegacyDesc ATTR (Some "novalidate") (Some TOGGLE) (Some (VBool false)));
    ("prefix", mkLegacyDesc READ_ONCE None None None);
    ("spellcheck", mkLegacyDesc ATTR None None None);
    ("style", mkLegacyDesc READ_ONCE None None None);
    ("target", mkLegacyDesc ATTR None None (Some (VStr "")));
    ("title", mkLegacyDesc ATTR None None None);
    ("translate", mkLegacyDesc ATTR None None None) ].

Definition proxy_in (p : nat) (name : string) : M bool :=
  fun σ =>
    match proxies σ !! p with
    | Some px => (Ok (proxy_has px name), σ)
    | None => (Throw (HostError "no such object"), σ)
    end.

(** The READ_ONCE branch of [setupLegacyProxy]: the value the getter will
    answer with. *)
Definition read_once_value (form : nat) (name : string) (current : value) : M value :=
  (* if (current && current.nodeType) *)
  let! nodeType := (if to_boolean current then get_prop current "nodeType"
                    else ret current) in
  if to_boolean nodeType then
    let! elem := lift (fun _ => assertElement env current) in
    let! nextSibling := get_prop elem "nextSibling" in
    let! parent := get_prop elem "parentNode" in
    method_call parent "removeChild" [elem] ;;
    try_finally
      (get_prop (VNode form) name)
      (method_call parent "insertBefore" [elem; nextSibling] ;; ret tt)
  else ret current.

(** The body of the loop [for (const name in proto)] of
    [setupLegacyProxy]. *)
Definition legacy_property (form p : nat) (name : string) : M unit :=
  let! has := proxy_in p name in
  if has || String.eqb (toUpperCase name) name || startsWith env name "on"
  then ret tt
  else
    let desc := assoc name LEGACY_PROPS in
    let! current := get_prop (VNode form) name in
    match desc with
    | Some desc =>
        match access desc with
        | READ_ONCE =>
            let! actual := read_once_value form name current in
            define_own p name (ReadOnce actual)
        | ATTR =>
            (* const attr = desc.attr || name; *)
            define_own p name (AttrAccessor (default name (attr desc)) desc)
        end
    | None => define_own p name (DirectAccessor form)
    end.

(** Runs [body] on the names of a loop, in order. *)
Fixpoint for_each (names : list string) (body : string -> M unit) : M unit :=
  match names with
  | [] => ret tt
  | name :: r => body name ;; for_each r body
  end.

(** [for (const name in v)]: the names to visit. *)
Definition for_in_value (v : value) (σ : State) : list string :=
  match v with
  | VNode n => node_for_in σ n
  | _ => []
  end.

(** [win.HTMLFormElement.prototype.cloneNode] *)
Definition prototype_cloneNode (win : Window num) : M value :=
  match HTMLFormElement win with
  | Some prototype =>
      match chain_lookup prototype "cloneNode" with
      | Some d =>
          match d_value d, d_get d with
          | Some v, _ => ret v
          | None, Some g =>
              lift (host_getter env g (VHostObj "HTMLFormElement.prototype"))
          | None, None => ret VUndefined
          end
      | None => ret VUndefined
      end
  | None => throw (TypeError "Cannot read property 'prototype' of undefined")
  end.

(** [setupLegacyProxy(form, proxy)] *)
Definition setupLegacyProxy (form p : nat) : M unit :=
  let! (_, win) := window_of form in
  let! cloneNode := prototype_cloneNode win in
  let! proto_ := call_value cloneNode (VNode form) [VBool false] in
  let! names := (fun σ => (Ok (for_in_value proto_ σ), σ)) in
  for_each names (legacy_property form p).

(** [installFormProxy(form)] *)
Definition installFormProxy (form : nat) : M value :=
  let! (w, _) := window_of form in
  let! constr := getFormProxyConstr w in
  let! p := new_FormProxy constr form in
  let! has_action := proxy_in p "action" in
  (if negb has_action then setupLegacyProxy form p else ret tt) ;;
  node_set form "$p" (VProxy p) ;;
  ret (VProxy p).

(** ** amp-photo-split-compare *)

Definition the_node (n : nat) : M Node :=
  fun σ =>
    match nodes σ !! n with
    | Some nd => (Ok nd, σ)
    | None => (Throw (HostError "no such node"), σ)
    end.

Definition modify_node (n : nat) (f : Node -> Node) : M unit :=
  fun σ =>
    match nodes σ !! n with
    | Some _ => (Ok tt, update_node n f σ)
    | None => (Throw (HostError "no such node"), σ)
    end.

Definition the_widget (w : nat) : M (Widget num) :=
  fun σ =>
    match widgets σ !! w with
    | Some this => (Ok this, σ)
    | None => (Throw (HostError "no such object"), σ)
    end.

(** The declarations of an inline style after [style[prop] = v]: the
    empty string removes the declaration of [prop], a value of the property
    replaces it, and any other string leaves the style as it was.  The
    source assigns [width], [height] and [left]; a shorthand property,
    whose assignment sets several declarations, is outside the model. *)
Definition declare (prop v : string) (d : gmap string string) : gmap string string :=
  if String.eqb v "" then delete prop d
  else match css_value env prop v with
       | Some s => <[prop := s]> d
       | None => d
       end.

(** What [style[prop] = v] does to a node. *)
Definition assign_style (prop v : string) (nd : Node) : Node :=
  set_declared (declare prop v (declared nd)) (set_style (<[prop := v]> (style_ nd)) nd).

(** [node.style[prop] = v] *)
Definition set_style_property (n : nat) (prop v : string) : M unit :=
  modify_node n (assign_style prop v).

(** [node.style[prop]]: the declaration the style holds, the empty string
    when it holds none. *)
Definition get_style_property (n : nat) (prop : string) : M string :=
  let! nd := the_node n in ret (default "" (declared nd !! prop)).

(** [node[name] = v] for [src], [height] and [width] of an image. *)
Definition set_property (n : nat) (name : string) (v : value) : M unit :=
  modify_node n (fun nd => set_props (<[name := v]> (props nd)) nd).

(** [node.className = c] *)
Definition set_class (n : nat) (c : string) : M unit :=
  modify_node n (set_className c).

(** [node.getAttribute(name)]: the string, or null. *)
Definition element_getAttribute (n : nat) (name : string) : M value :=
  let! nd := the_node n in ret (attr_value (attributes nd !! name)).

(** ToNumber *)
Definition to_number (v : value) : num :=
  match v with
  | VNull => num_of_Z 0
  | VStr s => string_to_num s
  | VNum n => n
  | VBool true => num_of_Z 1
  | VBool false => num_of_Z 0
  | _ => string_to_num (to_string v)
  end.

(** [parent.appendChild(child)] *)
Definition element_appendChild (parent child : nat) : M unit :=
  native_call NAppendChild (VNode parent) [VNode child] ;; ret tt.

(** [node.addEventListener(type, handler)]: every [bind] makes a new
    function, so a listener is never taken for one already there. *)
Definition addEventListener (n : nat) (type_ : string) (h : Handler) : M unit :=
  modify_node n (fun nd => set_listeners (listeners nd ++ [(type_, h)]) nd).

(** [new AmpPhotoSplitCompare(element)]; [document] is the document of the
    element. *)
Definition AmpPhotoSplitCompare (elem : nat) : M nat :=
  let! doc := (fun σ => (Ok (match nodes σ !! elem with
                             | Some nd => defaultView nd
                             | None => 0
                             end), σ)) in
  let! c1 := createElement doc "div" in
  let! c2 := createElement doc "div" in
  let! i1 := createElement doc "img" in
  let! i2 := createElement doc "img" in
  let! s := createElement doc "div" in
  fun σ =>
    let w := fresh (dom (widgets σ)) in
    (Ok w,
     set_widgets (<[w := mkWidget elem c1 c2 i1 i2 s "AMP Photo-Split-Compare" None None]>
                    (widgets σ)) σ).

(** [buildPhotoCompareSlider()] *)
Definition buildPhotoCompareSlider (w : nat) : M unit :=
  let! this := the_widget w in
  let! h := element_getAttribute (element this) "height" in
  set_style_property (element this) "height" (to_string h +:+ "px") ;;
  let! wd := element_getAttribute (element this) "width" in
  set_style_property (element this) "width" (to_string wd +:+ "px") ;;
  (* Create containers *)
  element_appendChild (image1Container_ this) (image1_ this) ;;
  element_appendChild (image2Container_ this) (image2_ this) ;;
  set_class (image1Container_ this) "image1Container" ;;
  set_class (image2Container_ this) "image2Container" ;;
  set_style_property (image1Container_ this) "width" "49%" ;;
  (* Create images *)
  let! src1 := element_getAttribute (element this) "image-1-src" in
  set_property (image1_ this) "src" src1 ;;
  let! src2 := element_getAttribute (element this) "image-2-src" in
  set_property (image2_ this) "src" src2 ;;
  let! height := element_getAttribute (element this) "height" in
  set_property (image2_ this) "height" height ;;
  set_property (image1_ this) "height" height ;;
  let! width := element_getAttribute (element this) "width" in
  set_property (image2_ this) "width" width ;;
  set_property (image1_ this) "width" width ;;
  set_class (image1_ this) "image1" ;;
  set_class (image2_ this) "image2" ;;
  (* Create Slider *)
  set_class (slider_ this) "slider" ;;
  (* Add newly created elements to the view *)
  element_appendChild (element this) (image1Container_ this) ;;
  element_appendChild (element this) (image2Container_ this) ;;
  element_appendChild (element this) (slider_ this).

(** [createListeners()] *)
Definition createListeners (w : nat) : M unit :=
  let! this := the_widget w in
  addEventListener (slider_ this) "mousedown" (SliderBeginsMoving w) ;;
  addEventListener (slider_ this) "touchstart" (SliderBeginsMoving w) ;;
  addEventListener (slider_ this) "touchmove" (WhileSliderMoving w) ;;
  addEventListener (slider_ this) "touchend" (WhenSliderStops w).

(** [buildCallback()] *)
Definition buildCallback (w : nat) : M unit :=
  buildPhotoCompareSlider w ;;
  createListeners w.

(** [e.touches[0].pageX] *)
Definition first_touch_pageX (e : Event num) : M num :=
  match touches e with
  | None => throw (TypeError "Cannot read property '0' of undefined")
  | Some [] => throw (TypeError "Cannot read property 'pageX' of undefined")
  | Some (t :: _) => ret (pageX t)
  end.

Definition set_start (x width : option num) (this : Widget num) : Widget num :=
  mkWidget (element this) (image1Container_ this) (image2Container_ this)
           (image1_ this) (image2_ this) (slider_ this) (myText_ this) x width.

(** [sliderBeginsMoving(e)] *)
Definition sliderBeginsMoving (w : nat) (e : Event num) : M unit :=
  let! this := the_widget w in
  let! x := first_touch_pageX e in
  (fun σ => (Ok tt, set_widgets (<[w := set_start (Some x) (startWidth this) this]> (widgets σ)) σ)) ;;
  let! this := the_widget w in
  let! width := (fun σ => (Ok (computedWidth env σ (element this)), σ)) in
  fun σ =>
    (Ok tt, set_widgets (<[w := set_start (startX this) (Some (parseInt10 width)) this]>
                           (widgets σ)) σ).

(** [whileSliderMoving(e)] *)
Definition whileSliderMoving (w : nat) (e : Event num) : M unit :=
  let! this := the_widget w in
  let! x := first_touch_pageX e in
  let! container := the_node (image1Container_ this) in
  let! width := element_getAttribute (element this) "width" in
  let d := num_sub x (offsetLeft container) in
  set_style_property (image1Container_ this) "width"
    (if num_ltb d (to_number width)
     then num_to_string d +:+ "px"
     else to_string width +:+ "px") ;;
  let! width1 := get_style_property (image1Container_ this) "width" in
  set_style_property (slider_ this) "left" width1.

(** [whenSliderStops(e)] *)
Definition whenSliderStops (w : nat) (e : Event num) : M unit := ret tt.

(** Calls a listener with an event. *)
Definition run_handler (h : Handler) (e : Event num) : M unit :=
  match h with
  | SliderBeginsMoving w => sliderBeginsMoving w e
  | WhileSliderMoving w => whileSliderMoving w e
  | WhenSliderStops w => whenSliderStops w e
  end.

(** The listeners of a node for a type of event, in the order they were
    added. *)
Definition handlers_for (σ : State) (n : nat) (type_ : string) : list Handler :=
  match nodes σ !! n with
  | Some nd => map snd (filter (fun l => l.1 = type_) (listeners nd))
  | None => []
  end.

(** Runs listeners one after the other; what a listener raises is reported
    and does not stop the next one. *)
Fixpoint run_listeners (hs : list Handler) (e : Event num) (σ : State)
  : list (Result unit) * State :=
  match hs with
  | [] => ([], σ)
  | h :: r =>
      match run_handler h e σ with
      | (res, σ1) =>
          match run_listeners r e σ1 with
          | (rs, σ2) => (res :: rs, σ2)
          end
      end
  end.

(** The browser dispatching [e] to the node [target]. *)
Definition dispatchEvent (target : nat) (e : Event num) (σ : State)
  : list (Result unit) * State :=
  run_listeners (handlers_for σ target (e_type e)) e σ.

End Model.

(** ** A number type and a browser to run the model on

    Integers and NaN stand for the numbers, and [browser] answers what the
    model leaves to the engine: enough to evaluate the code on concrete
    pages. *)

Definition int_sub (a b : option Z) : option Z :=
  match a, b with
  | Some x, Some y => Some (x - y)%Z
  | _, _ => None
  end.

Definition int_ltb (a b : option Z) : bool :=
  match a, b with
  | Some x, Some y => Z.ltb x y
  | _, _ => false
  end.

Definition int_falsy (a : option Z) : bool :=
  match a with
  | Some x => Z.eqb x 0
  | None => true
  end.

Definition int_to_string (a : option Z) : string :=
  match a with
  | Some x => pretty x
  | None => "NaN"
  end.

Definition digit (c : ascii) : option Z :=
  let n := nat_of_ascii c in
  if Nat.leb 48 n && Nat.leb n 57 then Some (Z.of_nat (n - 48)) else None.

(** The number written by a string of digits. *)
Fixpoint parse_digits (s : string) (acc : Z) : option Z :=
  match s with
  | EmptyString => Some acc
  | String c r =>
      match digit c with
      | Some d => parse_digits r (acc * 10 + d)%Z
      | None => None
      end
  end.

Definition int_of_string (s : string) : option Z :=
  match s with
  | EmptyString => Some 0%Z
  | String "-" (String c r) => Z.opp <$> parse_digits (String c r) 0
  | _ => parse_digits s 0
  end.

(** The number written by the digits a string starts with. *)
Fixpoint leading_digits (s : string) (acc : option Z) : option Z :=
  match s with
  | EmptyString => acc
  | String c r =>
      match digit c with
      | Some d => leading_digits r (Some (default 0 acc * 10 + d)%Z)
      | None => acc
      end
  end.

#[export] Instance IntNumber : JSNumber (option Z) := {|
  num_of_Z := Some;
  num_sub := int_sub;
  num_ltb := int_ltb;
  num_falsy := int_falsy;
  num_to_string := int_to_string;
  string_to_num := int_of_string;
  parseInt10 := fun s => leading_digits s None;
  num_one_truthy := eq_refl;
|}.

(** A CSS length or percentage written with digits: [120px], [49%]. *)
Definition is_css_length (s : string) : bool :=
  let digits_then (unit_ : string) :=
    match index 0 unit_ s with
    | Some (S n) =>
        String.eqb (substring (S n) (String.length s - S n) s) unit_
        && bool_decide (is_Some (parse_digits (substring 0 (S n) s) 0))
    | _ => false
    end in
  digits_then "px" || digits_then "%".

(** The values of [width], [height] and [left] the pages below meet: a
    length or a percentage, which [width] and [height] refuse when it is
    negative.  A value reads back as it was written. *)
Definition css_length (prop v : string) : option string :=
  match v with
  | String "-" r =>
      if String.eqb prop "left" && is_css_length r then Some v else None
  | _ => if is_css_length v then Some v else None
  end.

Definition browser : Env (option Z) :=
  mkEnv
    (fun g _ _ => Ok (VHostObj g))
    (fun _ _ _ σ => (Ok tt, σ))
    (fun _ _ _ σ => (Ok VUndefined, σ))
    (fun _ v name =>
       match v with
       | VNode _ =>
           if bool_decide (name ∈ ["style"; "children"; "attributes"; "elements"; "dataset"])
           then Ok (VHostObj name) else Ok VUndefined
       | _ => Ok VUndefined
       end)
    (fun _ => "[object Object]")
    (fun _ _ => "300px")
    (fun s p => String.prefix p s)
    (fun url => url)
    (fun v => match v with
              | VNode _ => Ok v
              | _ => Throw (HostError "Element expected")
              end)
    css_length.

Definition method (f : native) : PropertyDescriptor (option Z) :=
  mkDescriptor true (Some (VNative f)) None None.
Definition accessor (name : string) : PropertyDescriptor (option Z) :=
  mkDescriptor true None (Some name) (Some name).
Definition readonly (name : string) : PropertyDescriptor (option Z) :=
  mkDescriptor true None (Some name) None.
Definition constant (n : Z) : PropertyDescriptor (option Z) :=
  mkDescriptor true (Some (VNum (Some n))) None None.

Definition EventTarget_methods : list (string * PropertyDescriptor (option Z)) :=
  [("addEventListener", method (NHost "addEventListener"));
   ("dispatchEvent", method (NHost "dispatchEvent"))].
Definition Node_methods : list (string * PropertyDescriptor (option Z)) :=
  [("ELEMENT_NODE", constant 1);
   ("cloneNode", method NCloneNode);
   ("appendChild", method NAppendChild);
   ("insertBefore", method NInsertBefore);
   ("removeChild", method NRemoveChild)].
Definition Element_methods : list (string * PropertyDescriptor (option Z)) :=
  [("getAttribute", method NGetAttribute);
   ("setAttribute", method NSetAttribute);
   ("removeAttribute", method NRemoveAttribute)].
Definition HTMLElement_methods : list (string * PropertyDescriptor (option Z)) :=
  [("click", method (NHost "click"))].
Definition HTMLFormElement_methods : list (string * PropertyDescriptor (option Z)) :=
  [("submit", method (NHost "submit"));
   ("reset", method (NHost "reset"))].

(** An engine with the attributes of the DOM on the prototype chain. *)
Definition modern_window : Window (option Z) :=
  let event_target := [EventTarget_methods] in
  let node :=
    (Node_methods ++ [("nodeType", readonly "nodeType");
                      ("parentNode", readonly "parentNode");
                      ("nextSibling", readonly "nextSibling")])%list :: event_target in
  let elem :=
    (Element_methods ++ [("id", accessor "id");
                         ("children", readonly "children");
                         ("attributes", readonly "attributes")])%list :: node in
  let html_element :=
    (HTMLElement_methods ++ [("hidden", accessor "hidden");
                             ("style", readonly "style");
                             ("onclick", accessor "onclick")])%list :: elem in
  let html_form :=
    (HTMLFormElement_methods ++ [("action", accessor "action");
                                 ("noValidate", accessor "noValidate");
                                 ("elements", readonly "elements")])%list :: html_element in
  mkWindow (Some html_form) (Some html_element) (Some elem) (Some node)
           (Some event_target) [] None.

(** An engine that keeps the attributes of the DOM on every element, as
    Chrome did up to version 45: the prototypes only carry methods and
    constants. *)
Definition legacy_window : Window (option Z) :=
  let event_target := [EventTarget_methods] in
  let node := Node_methods :: event_target in
  let elem := Element_methods :: node in
  let html_element := HTMLElement_methods :: elem in
  let html_form := HTMLFormElement_methods :: html_element in
  mkWindow (Some html_form) (Some html_element) (Some elem) (Some node)
           (Some event_target)
           ["action"; "noValidate"; "elements"; "hidden"; "style"; "onclick";
            "id"; "children"; "attributes"; "nodeType"; "parentNode"; "nextSibling"]
           None.

Definition form_node (kids : list nat) : Node (option Z) :=
  mkNode "form" ∅ "" ∅ ∅ kids None [] (Some 0%Z) 0.
Definition input_node (name : string) (parent : nat) : Node (option Z) :=
  mkNode "input" {[ "name" := name ]} "" ∅ ∅ [] (Some parent) [] (Some 0%Z) 0.

(** A page of the window [win] with one form, the node 1, without
    controls. *)
Definition empty_form_page (bl : option (list string)) (win : Window (option Z))
  : State (option Z) :=
  mkState bl {[ 0 := win ]} {[ 1 := form_node [] ]} ∅ ∅.

(** A page of the window [win] with one form, the node 1, and in it the
    controls 2 and 3 with the given names. *)
Definition two_inputs_page (bl : option (list string)) (win : Window (option Z))
    (name2 name3 : string) : State (option Z) :=
  mkState bl {[ 0 := win ]}
          {[ 1 := form_node [2; 3]; 2 := input_node name2 1; 3 := input_node name3 1 ]}
          ∅ ∅.

(** * Specification

    The notions the properties below are stated with. *)

Section Specification.
Context {num : Type} {N : JSNumber num}.
Variable env : Env num.

Local Abbreviation value := (value num).
Local Abbreviation State := (State num).
Local Abbreviation Node := (Node num).

(** The listeners [createListeners] adds, in its order. *)
Definition slider_listeners (w : nat) : list (string * Handler) :=
  [("mousedown", SliderBeginsMoving w); ("touchstart", SliderBeginsMoving w);
   ("touchmove", WhileSliderMoving w); ("touchend", WhenSliderStops w)].

(** The string [whileSliderMoving] assigns to the width of the first
    container: the distance of the pointer from the left edge of the
    container while that is below the 'width' attribute, and the attribute
    from there on. *)
Definition tracked_width (x offset : num) (width : value) : string :=
  if num_ltb (num_sub x offset) (to_number env width)
  then num_to_string (num_sub x offset) +:+ "px"
  else to_string env width +:+ "px".

(** The width the inline style of the node [cd] holds once the string
    [width] has been assigned to it: [cd.style.width] as line 471 reads it
    back. *)
Definition kept_width (width : string) (cd : Node) : string :=
  default "" (declare env "width" width (declared cd) !! "width").

(** [completes P c Q]: started in a state that satisfies [P], the
    computation [c] does not raise, and its result and final state satisfy
    [Q]. *)
Definition completes {A} (P : State -> Prop) (c : M num A)
    (Q : A -> State -> Prop) : Prop :=
  forall σ, P σ -> exists a σ', c σ = (Ok a, σ') /\ Q a σ'.

(** The nodes of the widget. *)
Definition widget_nodes (this : Widget num) : list nat :=
  [element this; image1Container_ this; image2Container_ this;
   image1_ this; image2_ this; slider_ this].

(** What [buildPhotoCompareSlider] relies on and keeps: the widget, its
    nodes, the attributes of the element; [h] and [wd] are the height and
    the width in the style of the element. *)
Definition build_inv (w : nat) (this : Widget num) (attrs : gmap string string)
    (h wd : option string) (σ : State) : Prop :=
  widgets σ !! w = Some this
  /\ (forall n, n ∈ widget_nodes this -> is_Some (nodes σ !! n))
  /\ exists ed, nodes σ !! element this = Some ed
                /\ attributes ed = attrs
                /\ style_ ed !! "height" = h
                /\ style_ ed !! "width" = wd.

(** The property [createFormProxyConstr] makes of a descriptor. *)
Definition proto_property (property : PropertyDescriptor num) : ProtoProperty num :=
  match d_value property with
  | Some method =>
      if is_function method then PMethod method
      else PAccessor (d_get property) (d_set property)
  | None => PAccessor (d_get property) (d_set property)
  end.

(** The names the walk leaves out: constants, on-events and the
    blacklist. *)
Definition excluded (bl : option (list string)) (name : string) : bool :=
  String.eqb (toUpperCase name) name || startsWith env name "on" || blacklisted bl name.

(** The descriptor the walk meets first for [name]: the own property of
    the first prototype, in the order of the walk, that enumerates the
    name and has it as an own property. *)
Fixpoint original_descriptor (klasses : list (option (HostObject num)))
    (name : string) : option (PropertyDescriptor num) :=
  match klasses with
  | [] => None
  | None :: r => original_descriptor r name
  | Some prototype :: r =>
      if bool_decide (name ∈ for_in (Some prototype)) then
        match getOwnPropertyDescriptor prototype name with
        | Some d => Some d
        | None => original_descriptor r name
        end
      else original_descriptor r name
  end.

(** The proxy answers [getAttribute], [setAttribute] and
    [removeAttribute] with the methods of the DOM, bound to its form by
    the walk. *)
Definition has_attribute_methods (px : Proxy num) : Prop :=
  (own px !! "getAttribute" = None
   /\ proto px !! "getAttribute" = Some (PMethod (VNative NGetAttribute)))
  /\ (own px !! "setAttribute" = None
      /\ proto px !! "setAttribute" = Some (PMethod (VNative NSetAttribute)))
  /\ (own px !! "removeAttribute" = None
      /\ proto px !! "removeAttribute" = Some (PMethod (VNative NRemoveAttribute))).

(** The constructor [getFormProxyConstr] answers with: the one of the
    window when it has one, a new one otherwise. *)
Definition constr_of (bl : option (list string)) (win : Window num)
  : gmap string (ProtoProperty num) :=
  default (createFormProxyConstr env bl win) (FormProxy win).

(** The state once [installFormProxy] has its proxy: the constructor is
    in the window, the proxy [p] is new. *)
Definition with_proxy (σ : State) (w : nat) (win : Window num) (form p : nat) : State :=
  set_proxies
    (<[p := mkProxy (VNode form) (constr_of (blacklistedProperties σ) win) ∅]> (proxies σ))
    (set_windows
       (<[w := set_FormProxy (Some (constr_of (blacklistedProperties σ) win)) win]> (windows σ))
       σ).





End Specification.

(** ** Concrete pages *)

(** An [amp-photo-split-compare] element, the node 1, with the given
    attributes. *)
Definition slider_page (attrs : gmap string string) : State (option Z) :=
  mkState None {[ 0 := modern_window ]}
          {[ 1 := mkNode "amp-photo-split-compare" attrs "" ∅ ∅ [] None [] (Some 0%Z) 0 ]}
          ∅ ∅.

Definition slider_attributes : gmap string string :=
  {[ "width" := "400"; "height" := "300";
     "image-1-src" := "before.jpg"; "image-2-src" := "after.jpg" ]}.

(** The final state of a computation. *)
Definition state_after {A} (c : M (option Z) A) (σ : State (option Z)) : State (option Z) :=
  (c σ).2.

(** The page once the widget of the node 1 is constructed and built. *)
Definition built_slider_page : State (option Z) :=
  state_after (bind (AmpPhotoSplitCompare 1) (buildCallback browser))
              (slider_page slider_attributes).

(** The built page after a layout that puts the first container 200
    pixels from the left edge of its offset parent. *)
Definition offset_slider_page : State (option Z) :=
  update_node 2 (set_offsetLeft (Some 200%Z)) built_slider_page.

(** The page of an element without 'width' attribute, once its widget is
    constructed and built. *)
Definition unsized_slider_page : State (option Z) :=
  state_after (bind (AmpPhotoSplitCompare 1) (buildCallback browser))
              (slider_page {[ "height" := "300" ]}).

(** The page once the widget of the node 1 is constructed. *)
Definition constructed_slider_page (attrs : gmap string string) : State (option Z) :=
  state_after (AmpPhotoSplitCompare 1) (slider_page attrs).

(** The object the constructor makes on these pages. *)
Definition slider_widget : Widget (option Z) :=
  mkWidget 1 2 3 4 5 6 "AMP Photo-Split-Compare" None None.

(** The node [n] of a page. *)
Definition node_of (σ : State (option Z)) (n : nat) : Node (option Z) :=
  default (mkNode "" ∅ "" ∅ ∅ [] None [] None 0) (nodes σ !! n).

(** The proxy [p] of a page. *)
Definition proxy_of (σ : State (option Z)) (p : nat) : Proxy (option Z) :=
  default (mkProxy VUndefined ∅ ∅) (proxies σ !! p).

(** A page of an engine in the way of Chrome 45, once [installFormProxy]
    has run on its form. *)
Definition legacy_page_with_proxy : State (option Z) :=
  state_after (installFormProxy browser 1) (empty_form_page None legacy_window).

(** A window whose form prototype carries, besides a method and an
    accessor, a data property that is not a function, as a script that
    patches the prototype leaves one. *)
Definition patched_window : Window (option Z) :=
  mkWindow
    (Some [[("version", mkDescriptor true (Some (VStr "1.0")) None None);
            ("submit", method (NHost "submit"));
            ("action", accessor "action")]])
    None None None None [] None.


(** A page of an engine in the way of Chrome 45 at the point where
    [installFormProxy] has constructed the proxy 0 of the form 1 and the
    legacy setup has not started. *)
Definition before_legacy_setup (σ : State (option Z)) : State (option Z) :=
  with_proxy browser σ 0 legacy_window 1 0.

(** The element of [slider_page]. *)
Definition slider_element (attrs : gmap string string) : Node (option Z) :=
  mkNode "amp-photo-split-compare" attrs "" ∅ ∅ [] None [] (Some 0%Z) 0.

(** * Properties *)

Section Properties.
Context {num : Type} {N : JSNumber num}.
Variable env : Env num.

Local Abbreviation value := (value num).
Local Abbreviation State := (State num).
Local Abbreviation Node := (Node num).

(** ** Names *)

Example toUpperCase_action : toUpperCase "action" = "ACTION".
Proof. reflexivity. Qed.

Example toUpperCase_constant : toUpperCase "ELEMENT_NODE" = "ELEMENT_NODE".
Proof. reflexivity. Qed.

(** ** The store *)

Lemma nodes_update_node (n m : nat) (f : Node -> Node) (σ : State) :
  nodes (update_node n f σ) !! m
  = if decide (n = m) then f <$> nodes σ !! n else nodes σ !! m.
Proof.
  unfold update_node. simpl. rewrite lookup_alter.
  destruct (decide (n = m)) as [->|]; reflexivity.
Qed.

Lemma nodes_update_node_eq (n : nat) (f : Node -> Node) (σ : State) :
  nodes (update_node n f σ) !! n = f <$> nodes σ !! n.
Proof. rewrite nodes_update_node. by rewrite decide_True. Qed.

Lemma nodes_update_node_ne (n m : nat) (f : Node -> Node) (σ : State) :
  n ≠ m -> nodes (update_node n f σ) !! m = nodes σ !! m.
Proof. intros. rewrite nodes_update_node. by rewrite decide_False. Qed.

Lemma update_node_frame (n : nat) (f : Node -> Node) (σ : State) :
  blacklistedProperties (update_node n f σ) = blacklistedProperties σ
  /\ windows (update_node n f σ) = windows σ
  /\ proxies (update_node n f σ) = proxies σ
  /\ widgets (update_node n f σ) = widgets σ.
Proof. done. Qed.

Lemma update_node_update_node (n : nat) (f g : Node -> Node) (σ : State) :
  update_node n f (update_node n g σ) = update_node n (fun nd => f (g nd)) σ.
Proof.
  unfold update_node, set_nodes; simpl. f_equal.
  apply map_eq. intros i. rewrite !lookup_alter.
  destruct (decide (n = i)) as [<-|]; [|done].
  rewrite decide_True by done.
  by destruct (nodes σ !! n).
Qed.

Lemma update_node_Some (n : nat) (f : Node -> Node) (σ : State) (nd : Node) :
  nodes σ !! n = Some nd ->
  update_node n f σ = set_nodes (<[n := f nd]> (nodes σ)) σ.
Proof.
  intros H. unfold update_node. f_equal.
  apply map_eq. intros i. rewrite lookup_alter, lookup_insert.
  destruct (decide (n = i)) as [<-|]; [|done]. by rewrite H.
Qed.

Lemma modify_node_Some (n : nat) (f : Node -> Node) (σ : State) (nd : Node) :
  nodes σ !! n = Some nd ->
  modify_node n f σ = (Ok tt, update_node n f σ).
Proof. intros H. unfold modify_node. by rewrite H. Qed.

(** ** C6: the listeners *)

Lemma createListeners_run (σ : State) (w : nat) (this : Widget num) (sd : Node) :
  widgets σ !! w = Some this ->
  nodes σ !! slider_ this = Some sd ->
  createListeners w σ
  = (Ok tt, set_nodes (<[slider_ this :=
                           set_listeners (listeners sd ++ slider_listeners w) sd]> (nodes σ)) σ).
Proof.
  intros Hw Hs. unfold createListeners, bind, the_widget, addEventListener.
  rewrite Hw.
  rewrite (modify_node_Some _ _ _ sd) by done.
  erewrite modify_node_Some by (by rewrite nodes_update_node_eq, Hs).
  rewrite update_node_update_node.
  erewrite modify_node_Some by (by rewrite nodes_update_node_eq, Hs).
  rewrite update_node_update_node.
  erewrite modify_node_Some by (by rewrite nodes_update_node_eq, Hs).
  rewrite update_node_update_node.
  rewrite (update_node_Some _ _ _ sd) by done.
  unfold set_listeners, slider_listeners; simpl.
  by rewrite <- !app_assoc.
Qed.

(** C6: [createListeners] adds four listeners to the slider handle:
    'mousedown' and 'touchstart' call [sliderBeginsMoving], 'touchmove'
    calls [whileSliderMoving] and 'touchend' calls [whenSliderStops].  No
    other node gets a listener, the handle changes in nothing else, and
    the rest of the state (windows, proxies, widget objects) is left as it
    was: nothing is scheduled or installed besides the listeners. *)
Theorem createListeners_only_on_slider (σ : State) (w : nat) (this : Widget num)
    (sd : Node) :
  widgets σ !! w = Some this ->
  nodes σ !! slider_ this = Some sd ->
  exists σ',
    createListeners w σ = (Ok tt, σ')
    /\ nodes σ' !! slider_ this
       = Some (set_listeners
                 (listeners sd ++ [("mousedown", SliderBeginsMoving w);
                                   ("touchstart", SliderBeginsMoving w);
                                   ("touchmove", WhileSliderMoving w);
                                   ("touchend", WhenSliderStops w)]) sd)
    /\ (forall e,
          run_handler env (SliderBeginsMoving w) e = sliderBeginsMoving env w e
          /\ run_handler env (WhileSliderMoving w) e = whileSliderMoving env w e
          /\ run_handler env (WhenSliderStops w) e = whenSliderStops w e)
    /\ (forall n, n ≠ slider_ this -> nodes σ' !! n = nodes σ !! n)
    /\ windows σ' = windows σ
    /\ proxies σ' = proxies σ
    /\ widgets σ' = widgets σ
    /\ blacklistedProperties σ' = blacklistedProperties σ.
Proof.
  intros Hw Hs. eexists. split; [by apply createListeners_run|].
  simpl. split; [by rewrite lookup_insert_eq|].
  split; [done|].
  split; [|done].
  intros n Hn. by rewrite lookup_insert_ne.
Qed.

(** ** C9: [sliderBeginsMoving] and events without touches *)

Lemma first_touch_pageX_None (e : Event num) (σ : State) :
  touches e = None \/ touches e = Some [] ->
  exists msg, first_touch_pageX e σ = (Throw (TypeError msg), σ).
Proof. intros [H|H]; unfold first_touch_pageX; rewrite H; by eexists. Qed.

Lemma first_touch_pageX_Some (e : Event num) (t : Touch num) (ts : list (Touch num))
    (σ : State) :
  touches e = Some (t :: ts) -> first_touch_pageX e σ = (Ok (pageX t), σ).
Proof. intros H. unfold first_touch_pageX. by rewrite H. Qed.

Lemma sliderBeginsMoving_throws (σ : State) (w : nat) (this : Widget num)
    (e : Event num) :
  widgets σ !! w = Some this ->
  touches e = None \/ touches e = Some [] ->
  exists msg, sliderBeginsMoving env w e σ = (Throw (TypeError msg), σ).
Proof.
  intros Hw He. destruct (first_touch_pageX_None e σ He) as [msg Hmsg].
  exists msg. unfold sliderBeginsMoving, bind, the_widget. by rewrite Hw, Hmsg.
Qed.

Lemma sliderBeginsMoving_runs (σ : State) (w : nat) (this : Widget num)
    (e : Event num) (t : Touch num) (ts : list (Touch num)) :
  widgets σ !! w = Some this ->
  touches e = Some (t :: ts) ->
  let σ1 := set_widgets (<[w := set_start (Some (pageX t)) (startWidth this) this]>
                           (widgets σ)) σ in
  sliderBeginsMoving env w e σ
  = (Ok tt,
     set_widgets (<[w := set_start (Some (pageX t))
                           (Some (parseInt10 (computedWidth env σ1 (element this)))) this]>
                    (widgets σ)) σ).
Proof.
  intros Hw He σ1. unfold sliderBeginsMoving, bind, the_widget.
  rewrite Hw, (first_touch_pageX_Some e t ts) by done. simpl.
  rewrite lookup_insert_eq. simpl.
  unfold set_widgets; simpl. by rewrite insert_insert_eq.
Qed.

(** C9: [sliderBeginsMoving] reads [e.touches[0].pageX] whatever the
    event: it completes exactly when the event has a first touch, and then
    records the start position and width; on an event without a touch
    list, or with an empty one, it raises TypeError and changes nothing.
    The wiring of [createListeners] sends 'mousedown' to this handler, so
    dispatching a mouse event, which has no touches, to the handle of a
    widget makes the handler raise. *)
Theorem sliderBeginsMoving_needs_touches (σ : State) (w : nat) (this : Widget num)
    (e : Event num) :
  widgets σ !! w = Some this ->
  (is_ok (sliderBeginsMoving env w e σ).1 = true
   <-> exists t ts, touches e = Some (t :: ts))
  /\ (touches e = None \/ touches e = Some [] ->
      exists msg, sliderBeginsMoving env w e σ = (Throw (TypeError msg), σ))
  /\ (forall t ts, touches e = Some (t :: ts) ->
      exists σ' this',
        sliderBeginsMoving env w e σ = (Ok tt, σ')
        /\ widgets σ' !! w = Some this'
        /\ startX this' = Some (pageX t)
        /\ nodes σ' = nodes σ)
  /\ (forall sd σ1 m,
        nodes σ !! slider_ this = Some sd ->
        listeners sd = [] ->
        createListeners w σ = (Ok tt, σ1) ->
        e_type m = "mousedown" ->
        touches m = None ->
        exists msg,
          dispatchEvent env (slider_ this) m σ1 = ([Throw (TypeError msg)], σ1)).
Proof.
  intros Hw. split; [|split; [|split]].
  - split.
    + intros Hok. destruct (touches e) as [[|t ts]|] eqn:He; [| by eauto |].
      * destruct (sliderBeginsMoving_throws σ w this e Hw) as [msg Hmsg]; [by right|].
        by rewrite Hmsg in Hok.
      * destruct (sliderBeginsMoving_throws σ w this e Hw) as [msg Hmsg]; [by left|].
        by rewrite Hmsg in Hok.
    + intros (t & ts & He). by rewrite (sliderBeginsMoving_runs σ w this e t ts).
  - by apply (sliderBeginsMoving_throws σ w this e).
  - intros t ts He. eexists _, _.
    split; [by apply (sliderBeginsMoving_runs σ w this e t ts)|].
    simpl. split; [by rewrite lookup_insert_eq|]. done.
  - intros sd σ1 m Hs Hl Hc Hty Hm.
    rewrite (createListeners_run σ w this sd Hw Hs) in Hc.
    injection Hc as <-.
    destruct (sliderBeginsMoving_throws
                (set_nodes (<[slider_ this := set_listeners (listeners sd ++ slider_listeners w) sd]>
                              (nodes σ)) σ) w this m) as [msg Hmsg]; [done | by left |].
    exists msg. unfold dispatchEvent, handlers_for. simpl.
    rewrite lookup_insert_eq, Hty, Hl. simpl.
    rewrite Hl in Hmsg. simpl in Hmsg. by rewrite Hmsg.
Qed.

(** ** C3: the width follows the pointer *)

(** Without a first touch [whileSliderMoving] raises and changes
    nothing. *)
Lemma whileSliderMoving_throws (σ : State) (w : nat) (this : Widget num)
    (e : Event num) :
  widgets σ !! w = Some this ->
  touches e = None \/ touches e = Some [] ->
  exists msg, whileSliderMoving env w e σ = (Throw (TypeError msg), σ).
Proof.
  intros Hw He. destruct (first_touch_pageX_None e σ He) as [msg Hmsg].
  exists msg. unfold whileSliderMoving, bind, the_widget. by rewrite Hw, Hmsg.
Qed.

Lemma append_nonempty (s t : string) : t ≠ "" -> String.eqb (s +:+ t) "" = false.
Proof. intros Ht. destruct s; [by destruct t|done]. Qed.

Lemma tracked_width_nonempty (x offset : num) (width : value) :
  String.eqb (tracked_width env x offset width) "" = false.
Proof. unfold tracked_width. by destruct (num_ltb _ _); apply append_nonempty. Qed.

Lemma declare_lookup_ne (prop k v : string) (d : gmap string string) :
  k ≠ prop -> declare env prop v d !! k = d !! k.
Proof.
  intros Hk. unfold declare. destruct (String.eqb v "").
  - by rewrite lookup_delete_ne.
  - destruct (css_value env prop v); [by rewrite lookup_insert_ne|done].
Qed.

Lemma declare_lookup_eq (prop v : string) (d : gmap string string) :
  String.eqb v "" = false ->
  declare env prop v d !! prop
  = match css_value env prop v with Some s => Some s | None => d !! prop end.
Proof.
  intros Hv. unfold declare. rewrite Hv.
  destruct (css_value env prop v); [by rewrite lookup_insert_eq|done].
Qed.

(** What [whileSliderMoving] does once the event has a first touch. *)
Lemma whileSliderMoving_run (σ : State) (w : nat) (this : Widget num)
    (e : Event num) (t : Touch num) (ts : list (Touch num)) (cd ed sd : Node) :
  widgets σ !! w = Some this ->
  touches e = Some (t :: ts) ->
  nodes σ !! image1Container_ this = Some cd ->
  nodes σ !! element this = Some ed ->
  nodes σ !! slider_ this = Some sd ->
  let width := tracked_width env (pageX t) (offsetLeft cd)
                             (attr_value (attributes ed !! "width")) in
  whileSliderMoving env w e σ
  = (Ok tt,
     update_node (slider_ this) (assign_style env "left" (kept_width env width cd))
       (update_node (image1Container_ this) (assign_style env "width" width) σ)).
Proof.
  intros Hw He Hc Hel Hs width.
  unfold whileSliderMoving, bind, the_widget, the_node, element_getAttribute,
    set_style_property, get_style_property, ret, bind, the_node.
  rewrite Hw, (first_touch_pageX_Some e t ts), Hc, Hel by done.
  rewrite (modify_node_Some _ _ _ cd) by done.
  rewrite nodes_update_node_eq, Hc.
  cbn [fmap option_fmap option_map assign_style declared set_declared].
  fold (tracked_width env (pageX t) (offsetLeft cd) (attr_value (attributes ed !! "width"))).
  fold width. fold (kept_width env width cd).
  destruct (decide (slider_ this = image1Container_ this)) as [Heq|Hne].
  - by erewrite modify_node_Some by (by rewrite Heq, nodes_update_node_eq, Hc).
  - by erewrite modify_node_Some by (by rewrite nodes_update_node_ne, Hs).
Qed.

(** C3: on a touch-move event, which carries a first touch,
    [whileSliderMoving] assigns to the width of the first image container
    pageX minus the container's offsetLeft, in pixels, while that is below
    the 'width' attribute of the element, and the attribute otherwise; it
    then assigns to the 'left' of the slider the width it reads back from
    the container's style.  That is the string just assigned when the
    engine takes it for a width; when it does not (a negative distance,
    'nullpx' without a 'width' attribute) the style keeps the width it had
    and the slider gets that one. *)
Theorem whileSliderMoving_tracks_pointer (σ : State) (w : nat) (this : Widget num)
    (e : Event num) (t : Touch num) (ts : list (Touch num)) (cd ed sd : Node) :
  widgets σ !! w = Some this ->
  touches e = Some (t :: ts) ->
  nodes σ !! image1Container_ this = Some cd ->
  nodes σ !! element this = Some ed ->
  nodes σ !! slider_ this = Some sd ->
  let width := tracked_width env (pageX t) (offsetLeft cd)
                             (attr_value (attributes ed !! "width")) in
  exists σ',
    whileSliderMoving env w e σ = (Ok tt, σ')
    /\ (nodes σ' !! image1Container_ this ≫= fun nd => style_ nd !! "width") = Some width
    /\ default "" (nodes σ' !! image1Container_ this ≫= fun nd => declared nd !! "width")
       = kept_width env width cd
    /\ (nodes σ' !! slider_ this ≫= fun nd => style_ nd !! "left")
       = Some (kept_width env width cd)
    /\ (forall s, css_value env "width" width = Some s -> kept_width env width cd = s)
    /\ (css_value env "width" width = None ->
        kept_width env width cd = default "" (declared cd !! "width")).
Proof.
  intros Hw He Hc Hel Hs width.
  eexists. split; [by apply (whileSliderMoving_run σ w this e t ts cd ed sd)|].
  fold width.
  assert (Hkept : kept_width env width cd
                  = default "" (match css_value env "width" width with
                                | Some s => Some s
                                | None => declared cd !! "width"
                                end)).
  { unfold kept_width. by rewrite declare_lookup_eq by apply tracked_width_nonempty. }
  split; [|split; [|split; [|split]]].
  - destruct (decide (slider_ this = image1Container_ this)) as [Heq|Hne].
    + rewrite Heq, update_node_update_node, nodes_update_node_eq, Hc. simpl.
      by rewrite lookup_insert_ne, lookup_insert_eq.
    + rewrite nodes_update_node_ne, nodes_update_node_eq, Hc by done. simpl.
      by rewrite lookup_insert_eq.
  - destruct (decide (slider_ this = image1Container_ this)) as [Heq|Hne].
    + rewrite Heq, update_node_update_node, nodes_update_node_eq, Hc. simpl.
      by rewrite declare_lookup_ne.
    + by rewrite nodes_update_node_ne, nodes_update_node_eq, Hc by done.
  - destruct (decide (slider_ this = image1Container_ this)) as [Heq|Hne].
    + rewrite Heq, update_node_update_node, nodes_update_node_eq, Hc. simpl.
      by rewrite lookup_insert_eq.
    + rewrite nodes_update_node_eq, nodes_update_node_ne, Hs by done. simpl.
      by rewrite lookup_insert_eq.
  - intros s Hs'. by rewrite Hkept, Hs'.
  - intros Hn. by rewrite Hkept, Hn.
Qed.

(** ** Computations that complete *)

Lemma completes_bind {A B} (P : State -> Prop) (c : M num A) (Q : A -> State -> Prop)
    (k : A -> M num B) (R : B -> State -> Prop) :
  completes P c Q ->
  (forall a, completes (Q a) (k a) R) ->
  completes P (bind c k) R.
Proof.
  intros Hc Hk σ HP. destruct (Hc σ HP) as (a & σ1 & Hrun & HQ).
  destruct (Hk a σ1 HQ) as (b & σ2 & Hrun2 & HR).
  exists b, σ2. split; [|done]. unfold bind. by rewrite Hrun.
Qed.

Lemma completes_ret {A} (P : State -> Prop) (a : A) :
  completes P (ret a) (fun a' σ => a' = a /\ P σ).
Proof. intros σ HP. by exists a, σ. Qed.

Lemma completes_weaken {A} (P P' : State -> Prop) (c : M num A)
    (Q Q' : A -> State -> Prop) :
  completes P c Q ->
  (forall σ, P' σ -> P σ) ->
  (forall a σ, Q a σ -> Q' a σ) ->
  completes P' c Q'.
Proof.
  intros Hc HP HQ σ HP'. destruct (Hc σ (HP σ HP')) as (a & σ' & ? & ?).
  exists a, σ'. eauto.
Qed.

Lemma completes_pure {A} (φ : Prop) (P : State -> Prop) (c : M num A)
    (Q : A -> State -> Prop) :
  (φ -> completes P c Q) ->
  completes (fun σ => φ /\ P σ) c Q.
Proof. intros Hc σ [Hφ HP]. by apply Hc. Qed.

(** ** C5: building the slider on an element without height or width *)

Section Build.
Variables (w : nat) (this : Widget num) (attrs : gmap string string).

Lemma build_inv_update_node (h wd h' wd' : option string) (n : nat)
    (f : Node -> Node) (σ : State) :
  (forall nd, attributes (f nd) = attributes nd) ->
  (n ≠ element this -> h' = h /\ wd' = wd) ->
  (n = element this ->
   forall nd, style_ nd !! "height" = h -> style_ nd !! "width" = wd ->
              style_ (f nd) !! "height" = h' /\ style_ (f nd) !! "width" = wd') ->
  build_inv w this attrs h wd σ -> build_inv w this attrs h' wd' (update_node n f σ).
Proof.
  intros Hattr Hne Heq (Hw & Hn & ed & Hed & Ha & Hh & Hwd).
  split; [done|]. split.
  - intros m Hm. rewrite nodes_update_node.
    destruct (decide (n = m)) as [->|]; [|by apply Hn].
    destruct (Hn m Hm) as [x ->]. by eexists.
  - rewrite nodes_update_node. destruct (decide (n = element this)) as [->|Hd].
    + rewrite Hed. simpl. eexists. split; [done|].
      rewrite Hattr. split; [done|]. by apply Heq.
    + exists ed. destruct (Hne Hd) as [-> ->]. done.
Qed.

(** A change of a node that leaves the attributes and the style alone. *)
Lemma build_inv_update_tree (h wd : option string) (n : nat) (f : Node -> Node)
    (σ : State) :
  (forall nd, attributes (f nd) = attributes nd /\ style_ (f nd) = style_ nd) ->
  build_inv w this attrs h wd σ -> build_inv w this attrs h wd (update_node n f σ).
Proof.
  intros Hf. apply build_inv_update_node.
  - intros nd. apply Hf.
  - done.
  - intros _ nd <- <-. by destruct (Hf nd) as [_ ->].
Qed.

Lemma build_inv_detach (h wd : option string) (c : nat) (σ : State) :
  build_inv w this attrs h wd σ -> build_inv w this attrs h wd (detach c σ).
Proof.
  intros HI. unfold detach.
  destruct (nodes σ !! c) as [cd|]; [|done].
  destruct (parentNode cd) as [p|]; [|done].
  by do 2 (apply build_inv_update_tree; [done|]).
Qed.

Lemma completes_the_widget (h wd : option string) :
  completes (build_inv w this attrs h wd) (the_widget w)
            (fun a σ => a = this /\ build_inv w this attrs h wd σ).
Proof.
  intros σ HI. exists this, σ. split; [|done].
  unfold the_widget. by destruct HI as (-> & _).
Qed.

Lemma completes_getAttribute (h wd : option string) (name : string) :
  completes (build_inv w this attrs h wd) (element_getAttribute (element this) name)
            (fun a σ => a = attr_value (attrs !! name) /\ build_inv w this attrs h wd σ).
Proof.
  intros σ HI. destruct HI as (Hw & Hn & ed & Hed & Ha & Hh) eqn:E.
  exists (attr_value (attrs !! name)), σ. split; [|done].
  unfold element_getAttribute, bind, the_node, ret. by rewrite Hed, Ha.
Qed.

Lemma completes_modify_node (h wd h' wd' : option string) (n : nat) (f : Node -> Node) :
  n ∈ widget_nodes this ->
  (forall nd, attributes (f nd) = attributes nd) ->
  (n ≠ element this -> h' = h /\ wd' = wd) ->
  (n = element this ->
   forall nd, style_ nd !! "height" = h -> style_ nd !! "width" = wd ->
              style_ (f nd) !! "height" = h' /\ style_ (f nd) !! "width" = wd') ->
  completes (build_inv w this attrs h wd) (modify_node n f) (fun _ σ => build_inv w this attrs h' wd' σ).
Proof.
  intros Hin Hattr Hne Heq σ HI.
  destruct (proj1 (proj2 HI) n Hin) as [nd Hnd].
  exists tt, (update_node n f σ). split; [by apply (modify_node_Some _ _ _ nd)|].
  by apply (build_inv_update_node h wd).
Qed.

Lemma completes_appendChild (h wd : option string) (parent child : nat) :
  parent ∈ widget_nodes this ->
  completes (build_inv w this attrs h wd) (element_appendChild env parent child)
            (fun _ σ => build_inv w this attrs h wd σ).
Proof.
  intros Hin σ HI.
  destruct (proj1 (proj2 HI) parent Hin) as [pd Hpd].
  unfold element_appendChild, bind, native_call, appendChild, insertBefore, arg, ret.
  simpl. rewrite decide_True by (by rewrite Hpd).
  eexists _, _. split; [done|].
  do 2 (apply build_inv_update_tree; [done|]).
  by apply build_inv_detach.
Qed.

End Build.

Lemma completes_set_height (w : nat) (this : Widget num) (attrs : gmap string string)
    (h wd : option string) (v : string) :
  completes (build_inv w this attrs h wd)
            (set_style_property env (element this) "height" v)
            (fun _ σ => build_inv w this attrs (Some v) wd σ).
Proof.
  apply completes_modify_node; [by left | done | done |].
  intros _ nd _ Hwd. simpl. by rewrite lookup_insert_eq, lookup_insert_ne.
Qed.

Lemma completes_set_width (w : nat) (this : Widget num) (attrs : gmap string string)
    (h wd : option string) (v : string) :
  completes (build_inv w this attrs h wd)
            (set_style_property env (element this) "width" v)
            (fun _ σ => build_inv w this attrs h (Some v) σ).
Proof.
  apply completes_modify_node; [by left | done | done |].
  intros _ nd Hh _. simpl. by rewrite lookup_insert_eq, lookup_insert_ne.
Qed.

(** A change of another node than the element. *)
Lemma completes_modify_other (w : nat) (this : Widget num) (attrs : gmap string string)
    (h wd : option string) (n : nat) (f : Node -> Node) :
  n ∈ widget_nodes this ->
  n ≠ element this ->
  (forall nd, attributes (f nd) = attributes nd) ->
  completes (build_inv w this attrs h wd) (modify_node n f)
            (fun _ σ => build_inv w this attrs h wd σ).
Proof. intros Hin Hne Hf. by apply completes_modify_node. Qed.

(** A change that leaves the attributes and the style alone. *)
Lemma completes_modify_keep (w : nat) (this : Widget num) (attrs : gmap string string)
    (h wd : option string) (n : nat) (f : Node -> Node) :
  n ∈ widget_nodes this ->
  (forall nd, attributes (f nd) = attributes nd /\ style_ (f nd) = style_ nd) ->
  completes (build_inv w this attrs h wd) (modify_node n f)
            (fun _ σ => build_inv w this attrs h wd σ).
Proof.
  intros Hin Hf. apply completes_modify_node; [done | apply Hf | done |].
  intros _ nd <- <-. by destruct (Hf nd) as [_ ->].
Qed.

(** Assigning again what was assigned, with another assignment in between,
    changes nothing. *)
Lemma declare_again (p q v u : string) (d : gmap string string) :
  p ≠ q ->
  declare env p v (declare env q u (declare env p v d)) = declare env q u (declare env p v d).
Proof.
  intros Hpq. apply map_eq. intros k. unfold declare.
  destruct (String.eqb v ""), (String.eqb u ""), (css_value env p v), (css_value env q u);
    repeat first [ rewrite lookup_insert | rewrite lookup_delete ];
    repeat case_decide; try reflexivity; congruence.
Qed.

Lemma declare_twice (p v : string) (d : gmap string string) :
  declare env p v (declare env p v d) = declare env p v d.
Proof.
  apply map_eq. intros k. unfold declare.
  destruct (String.eqb v ""), (css_value env p v);
    repeat first [ rewrite lookup_insert | rewrite lookup_delete ];
    repeat case_decide; reflexivity.
Qed.

(** Membership in a list written out. *)
Ltac in_list := unfold widget_nodes; repeat first [by left | right].

Lemma buildPhotoCompareSlider_completes (w : nat) (this : Widget num)
    (attrs : gmap string string) (h wd : option string) :
  image1Container_ this ≠ element this ->
  completes (build_inv w this attrs h wd) (buildPhotoCompareSlider env w)
    (fun _ σ =>
       build_inv w this attrs
         (Some (to_string env (attr_value (attrs !! "height")) +:+ "px"))
         (Some (to_string env (attr_value (attrs !! "width")) +:+ "px")) σ).
Proof.
  intros Hne. unfold buildPhotoCompareSlider.
  assert (Hin : forall n, n ∈ widget_nodes this -> n ∈ widget_nodes this) by done.
  eapply completes_bind; [apply completes_the_widget|].
  intros a. apply completes_pure. intros ->.
  eapply completes_bind; [apply completes_getAttribute|].
  intros a. apply completes_pure. intros ->.
  eapply completes_bind; [apply completes_set_height|]. intros [].
  eapply completes_bind; [apply completes_getAttribute|].
  intros a. apply completes_pure. intros ->.
  eapply completes_bind; [apply completes_set_width|]. intros [].
  eapply completes_bind; [apply completes_appendChild; in_list|]. intros [].
  eapply completes_bind; [apply completes_appendChild; in_list|]. intros [].
  eapply completes_bind; [apply completes_modify_keep; [in_list|done]|]. intros [].
  eapply completes_bind; [apply completes_modify_keep; [in_list|done]|]. intros [].
  eapply completes_bind; [apply completes_modify_other; [in_list|done|done]|]. intros [].
  eapply completes_bind; [apply completes_getAttribute|].
  intros a. apply completes_pure. intros ->.
  eapply completes_bind; [apply completes_modify_keep; [in_list|done]|]. intros [].
  eapply completes_bind; [apply completes_getAttribute|].
  intros a. apply completes_pure. intros ->.
  eapply completes_bind; [apply completes_modify_keep; [in_list|done]|]. intros [].
  eapply completes_bind; [apply completes_getAttribute|].
  intros a. apply completes_pure. intros ->.
  eapply completes_bind; [apply completes_modify_keep; [in_list|done]|]. intros [].
  eapply completes_bind; [apply completes_modify_keep; [in_list|done]|]. intros [].
  eapply completes_bind; [apply completes_getAttribute|].
  intros a. apply completes_pure. intros ->.
  eapply completes_bind; [apply completes_modify_keep; [in_list|done]|]. intros [].
  eapply completes_bind; [apply completes_modify_keep; [in_list|done]|]. intros [].
  eapply completes_bind; [apply completes_modify_keep; [in_list|done]|]. intros [].
  eapply completes_bind; [apply completes_modify_keep; [in_list|done]|]. intros [].
  eapply completes_bind; [apply completes_modify_keep; [in_list|done]|]. intros [].
  eapply completes_bind; [apply completes_appendChild; in_list|]. intros [].
  eapply completes_bind; [apply completes_appendChild; in_list|]. intros [].
  apply completes_appendChild; in_list.
Qed.

(** C5: when the nodes of the widget are there, [buildPhotoCompareSlider]
    does not raise whatever the attributes of the element are, and the
    height and the width it puts in the style of the element are the
    attribute values followed by 'px': with the 'height' (or 'width')
    attribute missing, [getAttribute] answers null and the style is the
    string 'nullpx'. *)
Theorem buildPhotoCompareSlider_missing_size (σ : State) (w : nat) (this : Widget num)
    (ed : Node) :
  widgets σ !! w = Some this ->
  (forall n, n ∈ widget_nodes this -> is_Some (nodes σ !! n)) ->
  nodes σ !! element this = Some ed ->
  image1Container_ this ≠ element this ->
  exists σ' ed',
    buildPhotoCompareSlider env w σ = (Ok tt, σ')
    /\ nodes σ' !! element this = Some ed'
    /\ style_ ed' !! "height"
       = Some (to_string env (attr_value (attributes ed !! "height")) +:+ "px")
    /\ style_ ed' !! "width"
       = Some (to_string env (attr_value (attributes ed !! "width")) +:+ "px")
    /\ (attributes ed !! "height" = None -> style_ ed' !! "height" = Some "nullpx")
    /\ (attributes ed !! "width" = None -> style_ ed' !! "width" = Some "nullpx").
Proof.
  intros Hw Hn Hed Hne.
  destruct (buildPhotoCompareSlider_completes w this (attributes ed)
              (style_ ed !! "height") (style_ ed !! "width") Hne σ)
    as ([] & σ' & Hrun & _ & _ & ed' & Hed' & _ & Hh & Hwd).
  { split; [done|]. split; [done|]. by exists ed. }
  exists σ', ed'. split; [done|]. split; [done|]. split; [done|]. split; [done|].
  split.
  - intros Hnone. by rewrite Hh, Hnone.
  - intros Hnone. by rewrite Hwd, Hnone.
Qed.

(** ** C4: the subtree [buildCallback] creates *)

Lemma fresh_node_None (σ : State) : nodes σ !! fresh_node σ = None.
Proof. apply not_elem_of_dom. unfold fresh_node. apply is_fresh. Qed.

Lemma widgets_update_node (n : nat) (f : Node -> Node) (σ : State) :
  widgets (update_node n f σ) = widgets σ.
Proof. done. Qed.

Lemma modify_node_is_Some (n : nat) (f : Node -> Node) (σ : State) :
  is_Some (nodes σ !! n) ->
  modify_node n f σ = (Ok tt, update_node n f σ).
Proof. intros [nd H]. by apply (modify_node_Some _ _ _ nd). Qed.

Lemma detach_orphan (c : nat) (cd : Node) (σ : State) :
  nodes σ !! c = Some cd -> parentNode cd = None -> detach c σ = σ.
Proof. intros H Hp. unfold detach. by rewrite H, Hp. Qed.

(** Appending a node that has no parent. *)
Lemma element_appendChild_orphan (parent child : nat) (cd : Node) (σ : State) :
  is_Some (nodes σ !! parent) ->
  nodes σ !! child = Some cd ->
  parentNode cd = None ->
  element_appendChild env parent child σ
  = (Ok tt,
     update_node child (set_parentNode (Some parent))
       (update_node parent (fun pd => set_childNodes (childNodes pd ++ [child]) pd) σ)).
Proof.
  intros Hp Hc Hnone.
  unfold element_appendChild, bind, native_call, appendChild, insertBefore, arg, ret.
  simpl. rewrite decide_True by done.
  by rewrite (detach_orphan child cd).
Qed.

Lemma element_getAttribute_Some (n : nat) (name : string) (nd : Node) (σ : State) :
  nodes σ !! n = Some nd ->
  element_getAttribute n name σ = (Ok (attr_value (attributes nd !! name)), σ).
Proof. intros H. unfold element_getAttribute, bind, the_node, ret. by rewrite H. Qed.

(** Looking a node up through the updates made so far. *)
Ltac node_lookup :=
  repeat first
    [ rewrite nodes_update_node_eq
    | rewrite nodes_update_node_ne by congruence ];
  repeat match goal with
         | H : nodes ?σ !! ?n = Some _ |- context [nodes ?σ !! ?n] => rewrite H
         end;
  try (simpl; reflexivity).

(** Two nodes with the same fields. *)
Lemma Node_eq (a b : Node) :
  tagName a = tagName b ->
  attributes a = attributes b ->
  className a = className b ->
  style_ a = style_ b ->
  props a = props b ->
  childNodes a = childNodes b ->
  parentNode a = parentNode b ->
  listeners a = listeners b ->
  offsetLeft a = offsetLeft b ->
  defaultView a = defaultView b ->
  declared a = declared b ->
  a = b.
Proof. destruct a, b. simpl. by intros -> -> -> -> -> -> -> -> -> -> ->. Qed.

(** The nodes the updates made so far give. *)
Ltac node_updates :=
  repeat first
    [ rewrite nodes_update_node_eq
    | rewrite nodes_update_node_ne by congruence ];
  repeat match goal with
         | H : nodes ?σ !! ?n = Some _ |- context [nodes ?σ !! ?n] => rewrite H
         end;
  cbn [fmap option_fmap option_map].

(** The fields of a node written with the setters. *)
Ltac node_fields :=
  cbn [assign_style set_declared set_childNodes set_style set_props set_className
         set_parentNode set_listeners new_element mkNode
         tagName attributes className style_ props childNodes parentNode
         listeners offsetLeft defaultView declared].

Lemma buildCallback_on_new_nodes (σ : State) (w : nat) (this : Widget num)
    (ed : Node) (doc : nat) :
  widgets σ !! w = Some this ->
  NoDup (widget_nodes this) ->
  nodes σ !! element this = Some ed ->
  nodes σ !! image1Container_ this = Some (new_element "div" doc) ->
  nodes σ !! image2Container_ this = Some (new_element "div" doc) ->
  nodes σ !! image1_ this = Some (new_element "img" doc) ->
  nodes σ !! image2_ this = Some (new_element "img" doc) ->
  nodes σ !! slider_ this = Some (new_element "div" doc) ->
  let height := attr_value (attributes ed !! "height") in
  let width := attr_value (attributes ed !! "width") in
  let image (c : nat) (class_ src : string) : Node :=
    mkNode "img" ∅ class_ ∅
           (<["width" := width]>
              (<["height" := height]>
                 (<["src" := attr_value (attributes ed !! src)]> ∅)))
           [] (Some c) [] (num_of_Z 0) doc in
  exists σ',
    buildCallback env w σ = (Ok tt, σ')
    /\ nodes σ' !! element this
       = Some (set_childNodes
                 (childNodes ed ++ [image1Container_ this; image2Container_ this; slider_ this])
                 (assign_style env "width" (to_string env width +:+ "px")
                    (assign_style env "height" (to_string env height +:+ "px") ed)))
    /\ nodes σ' !! image1Container_ this
       = Some (set_declared (declare env "width" "49%" ∅)
                 (mkNode "div" ∅ "image1Container" {["width" := "49%"]} ∅ [image1_ this]
                         (Some (element this)) [] (num_of_Z 0) doc))
    /\ nodes σ' !! image2Container_ this
       = Some (mkNode "div" ∅ "image2Container" ∅ ∅ [image2_ this]
                      (Some (element this)) [] (num_of_Z 0) doc)
    /\ nodes σ' !! slider_ this
       = Some (mkNode "div" ∅ "slider" ∅ ∅ [] (Some (element this))
                      (slider_listeners w) (num_of_Z 0) doc)
    /\ nodes σ' !! image1_ this
       = Some (image (image1Container_ this) "image1" "image-1-src")
    /\ nodes σ' !! image2_ this
       = Some (image (image2Container_ this) "image2" "image-2-src")
    /\ (forall n, n ∉ widget_nodes this -> nodes σ' !! n = nodes σ !! n).
Proof.
  intros Hw Hnd Hel Hc1 Hc2 Hi1 Hi2 Hs height width image.
  unfold widget_nodes in *.
  repeat (apply NoDup_cons in Hnd as [? Hnd]).
  repeat match goal with H : _ ∉ _ :: _ |- _ => apply not_elem_of_cons in H as [? H] end.
  unfold buildCallback, buildPhotoCompareSlider, createListeners.
  unfold bind at 1 2. unfold the_widget at 1. rewrite Hw.
  unfold set_style_property, set_class, set_property, addEventListener.
  repeat first
    [ progress (unfold bind at 1)
    | erewrite element_getAttribute_Some by node_lookup
    | rewrite modify_node_is_Some by (node_lookup; done)
    | erewrite element_appendChild_orphan by (node_lookup; done)
    | progress (unfold the_widget at 1; rewrite !widgets_update_node, Hw) ].
  eexists. split; [done|].
  repeat split.
  all: try (node_updates; f_equal; apply Node_eq; subst image; node_fields;
            rewrite <- ?app_assoc; reflexivity).
  intros n Hn.
  repeat (apply not_elem_of_cons in Hn as [? Hn]).
  by node_lookup.
Qed.

Lemma createElement_run (doc : nat) (tag : string) (σ : State) :
  createElement doc tag σ
  = (Ok (fresh_node σ), set_nodes (<[fresh_node σ := new_element tag doc]> (nodes σ)) σ).
Proof. done. Qed.

(** The object and the five nodes the constructor makes. *)
Lemma AmpPhotoSplitCompare_run (σ : State) (el : nat) (ed : Node) :
  nodes σ !! el = Some ed ->
  exists w this σ1,
    AmpPhotoSplitCompare el σ = (Ok w, σ1)
    /\ widgets σ1 !! w = Some this
    /\ element this = el
    /\ NoDup (widget_nodes this)
    /\ (forall n, n ∈ widget_nodes this -> n ≠ el -> nodes σ !! n = None)
    /\ nodes σ1 !! el = Some ed
    /\ nodes σ1 !! image1Container_ this = Some (new_element "div" (defaultView ed))
    /\ nodes σ1 !! image2Container_ this = Some (new_element "div" (defaultView ed))
    /\ nodes σ1 !! image1_ this = Some (new_element "img" (defaultView ed))
    /\ nodes σ1 !! image2_ this = Some (new_element "img" (defaultView ed))
    /\ nodes σ1 !! slider_ this = Some (new_element "div" (defaultView ed))
    /\ (forall n, n ∉ widget_nodes this -> nodes σ1 !! n = nodes σ !! n).
Proof.
  intros Hel. unfold AmpPhotoSplitCompare, bind. rewrite Hel.
  rewrite !createElement_run.
  set (doc := defaultView ed).
  set (c1 := fresh_node σ).
  set (σa := set_nodes (<[c1 := new_element "div" doc]> (nodes σ)) σ).
  set (c2 := fresh_node σa).
  set (σb := set_nodes (<[c2 := new_element "div" doc]> (nodes σa)) σa).
  set (i1 := fresh_node σb).
  set (σc := set_nodes (<[i1 := new_element "img" doc]> (nodes σb)) σb).
  set (i2 := fresh_node σc).
  set (σd := set_nodes (<[i2 := new_element "img" doc]> (nodes σc)) σc).
  set (s := fresh_node σd).
  pose proof (fresh_node_None σ) as F1. fold c1 in F1.
  pose proof (fresh_node_None σa) as F2. fold c2 in F2.
  pose proof (fresh_node_None σb) as F3. fold i1 in F3.
  pose proof (fresh_node_None σc) as F4. fold i2 in F4.
  pose proof (fresh_node_None σd) as F5. fold s in F5.
  simpl in F2, F3, F4, F5.
  repeat match goal with
         | H : <[_ := _]> _ !! _ = None |- _ => apply lookup_insert_None in H as [H ?]
         end.
  assert (el ≠ c1 /\ el ≠ c2 /\ el ≠ i1 /\ el ≠ i2 /\ el ≠ s) as (?&?&?&?&?)
    by (repeat split; congruence).
  eexists _, _, _. split; [done|]. simpl.
  split; [by rewrite lookup_insert_eq|]. simpl.
  split; [done|].
  split.
  { unfold widget_nodes. simpl.
    repeat (apply NoDup_cons; split; [rewrite ?not_elem_of_cons; repeat split;
                                      try congruence; apply not_elem_of_nil|]).
    apply NoDup_nil_2. }
  split.
  { unfold widget_nodes. simpl. intros n Hn Hne.
    repeat (apply elem_of_cons in Hn as [->|Hn]; [done|]).
    by apply elem_of_nil in Hn. }
  repeat split.
  all: try (by repeat first [rewrite lookup_insert_eq | rewrite lookup_insert_ne by congruence]).
  unfold widget_nodes. simpl. intros n Hn.
  repeat (apply not_elem_of_cons in Hn as [? Hn]).
  by repeat (rewrite lookup_insert_ne by congruence).
Qed.

(** C4: built on a widget fresh from its constructor, [buildCallback]
    completes and appends to the element exactly three children, in this
    order: the first image container (class 'image1Container', width
    '49%', holding the first image), the second image container (class
    'image2Container', holding the second image) and the handle (class
    'slider').  The three are nodes the page did not have before, and the
    two images have the src, height and width read from the attributes
    'image-1-src' / 'image-2-src', 'height' and 'width' of the element. *)
Theorem buildCallback_creates_subtree (σ : State) (el : nat) (ed : Node) :
  nodes σ !! el = Some ed ->
  exists (w : nat) (this : Widget num) (σ1 σ2 : State) (c1 c2 s i1 i2 : Node),
    AmpPhotoSplitCompare el σ = (Ok w, σ1)
    /\ widgets σ1 !! w = Some this
    /\ buildCallback env w σ1 = (Ok tt, σ2)
    /\ (childNodes <$> nodes σ2 !! el)
       = Some (childNodes ed ++ [image1Container_ this; image2Container_ this; slider_ this])
    /\ nodes σ !! image1Container_ this = None
    /\ nodes σ !! image2Container_ this = None
    /\ nodes σ !! slider_ this = None
    /\ nodes σ2 !! image1Container_ this = Some c1
    /\ className c1 = "image1Container"
    /\ style_ c1 !! "width" = Some "49%"
    /\ childNodes c1 = [image1_ this]
    /\ nodes σ2 !! image2Container_ this = Some c2
    /\ className c2 = "image2Container"
    /\ childNodes c2 = [image2_ this]
    /\ nodes σ2 !! slider_ this = Some s
    /\ tagName s = "div" /\ className s = "slider"
    /\ nodes σ2 !! image1_ this = Some i1
    /\ nodes σ2 !! image2_ this = Some i2
    /\ tagName i1 = "img" /\ tagName i2 = "img"
    /\ props i1 !! "src" = Some (attr_value (attributes ed !! "image-1-src"))
    /\ props i2 !! "src" = Some (attr_value (attributes ed !! "image-2-src"))
    /\ props i1 !! "height" = Some (attr_value (attributes ed !! "height"))
    /\ props i2 !! "height" = Some (attr_value (attributes ed !! "height"))
    /\ props i1 !! "width" = Some (attr_value (attributes ed !! "width"))
    /\ props i2 !! "width" = Some (attr_value (attributes ed !! "width")).
Proof.
  intros Hel.
  destruct (AmpPhotoSplitCompare_run σ el ed Hel)
    as (w & this & σ1 & Hnew & Hw & He & Hnd & Hfresh & Hel1 & Hc1 & Hc2 & Hi1 & Hi2 & Hs & _).
  subst el.
  destruct (buildCallback_on_new_nodes σ1 w this ed (defaultView ed)
              Hw Hnd Hel1 Hc1 Hc2 Hi1 Hi2 Hs)
    as (σ2 & Hrun & Hel2 & Hc1' & Hc2' & Hs' & Hi1' & Hi2' & _).
  assert (Hne : forall n, n ∈ widget_nodes this -> n ≠ element this ->
                          nodes σ !! n = None) by done.
  unfold widget_nodes in Hnd.
  apply NoDup_cons in Hnd as [Hnotin _].
  repeat (apply not_elem_of_cons in Hnotin as [? Hnotin]).
  eexists w, this, σ1, σ2, _, _, _, _, _.
  split; [done|]. split; [done|]. split; [done|].
  split; [by rewrite Hel2|].
  split; [apply Hne; [in_list | done]|].
  split; [apply Hne; [in_list | done]|].
  split; [apply Hne; [in_list | done]|].
  split; [exact Hc1'|]. do 3 (split; [done|]).
  split; [exact Hc2'|]. do 2 (split; [done|]).
  split; [exact Hs'|]. do 2 (split; [done|]).
  split; [exact Hi1'|]. split; [exact Hi2'|].
  simpl. repeat split; by simplify_map_eq.
Qed.

(** ** C2: what the walk binds *)

Lemma bind_property_unfold (bl : option (list string)) (prototype : HostObject num)
    (acc : gmap string (ProtoProperty num)) (n : string) :
  bind_property env bl prototype acc n
  = match getOwnPropertyDescriptor prototype n with
    | None => acc
    | Some d =>
        if excluded env bl n || bool_decide (is_Some (acc !! n)) then acc
        else <[n := proto_property d]> acc
    end.
Proof.
  unfold bind_property, excluded, proto_property.
  destruct (getOwnPropertyDescriptor prototype n) as [d|]; [|done].
  destruct (String.eqb (toUpperCase n) n), (startsWith env n "on"),
    (bool_decide (is_Some (acc !! n))), (blacklisted bl n); simpl; try done;
    destruct (d_value d) as [m|]; try done; by destruct (is_function m).
Qed.

Lemma bind_property_lookup (bl : option (list string)) (prototype : HostObject num)
    (acc : gmap string (ProtoProperty num)) (n name : string) :
  bind_property env bl prototype acc n !! name
  = match acc !! name with
    | Some b => Some b
    | None =>
        if bool_decide (n = name) && negb (excluded env bl name)
        then proto_property <$> getOwnPropertyDescriptor prototype name
        else None
    end.
Proof.
  rewrite bind_property_unfold.
  destruct (decide (n = name)) as [->|Hne].
  - rewrite (bool_decide_eq_true_2 (name = name)) by done. simpl.
    destruct (getOwnPropertyDescriptor prototype name) as [d|]; simpl.
    + destruct (excluded env bl name); simpl.
      * by destruct (acc !! name).
      * destruct (acc !! name) as [b|] eqn:E.
        -- by rewrite bool_decide_eq_true_2, E by done.
        -- rewrite bool_decide_eq_false_2 by (by intros [? ?]).
           by rewrite lookup_insert_eq.
    + by destruct (acc !! name), (excluded env bl name).
  - rewrite (bool_decide_eq_false_2 (n = name)) by done. simpl.
    destruct (getOwnPropertyDescriptor prototype n) as [d|];
      [|by destruct (acc !! name)].
    destruct (excluded env bl n || bool_decide (is_Some (acc !! n)));
      [by destruct (acc !! name)|].
    rewrite lookup_insert_ne by done. by destruct (acc !! name).
Qed.

Lemma fold_bind_property_lookup (bl : option (list string)) (prototype : HostObject num)
    (names : list string) (acc : gmap string (ProtoProperty num)) (name : string) :
  fold_left (bind_property env bl prototype) names acc !! name
  = match acc !! name with
    | Some b => Some b
    | None =>
        if bool_decide (name ∈ names) && negb (excluded env bl name)
        then proto_property <$> getOwnPropertyDescriptor prototype name
        else None
    end.
Proof.
  revert acc. induction names as [|n names IH]; intros acc; simpl.
  - by destruct (acc !! name).
  - rewrite IH, bind_property_lookup.
    destruct (acc !! name) as [b|]; [done|].
    destruct (decide (n = name)) as [->|Hne].
    + rewrite (bool_decide_eq_true_2 (name = name)) by done.
      rewrite (bool_decide_eq_true_2 (name ∈ name :: names)) by (by left). simpl.
      destruct (excluded env bl name); simpl.
      * by rewrite andb_false_r.
      * destruct (getOwnPropertyDescriptor prototype name); simpl; [done|].
        by destruct (bool_decide (name ∈ names)).
    + rewrite (bool_decide_eq_false_2 (n = name)) by done. simpl.
      destruct (decide (name ∈ names)) as [Hin|Hnin].
      * rewrite (bool_decide_eq_true_2 (name ∈ names)) by done.
        by rewrite (bool_decide_eq_true_2 (name ∈ n :: names)) by (by right).
      * rewrite (bool_decide_eq_false_2 (name ∈ names)) by done.
        rewrite (bool_decide_eq_false_2 (name ∈ n :: names)); [done|].
        intros [->|?]%elem_of_cons; done.
Qed.

Lemma walk_lookup (bl : option (list string)) (klasses : list (option (HostObject num)))
    (acc : gmap string (ProtoProperty num)) (name : string) :
  fold_left
    (fun FormProxyProto klass =>
       match klass with
       | Some prototype =>
           fold_left (bind_property env bl prototype) (for_in (Some prototype)) FormProxyProto
       | None => FormProxyProto
       end) klasses acc !! name
  = match acc !! name with
    | Some b => Some b
    | None =>
        if excluded env bl name then None
        else proto_property <$> original_descriptor klasses name
    end.
Proof.
  revert acc. induction klasses as [|[prototype|] klasses IH]; intros acc; simpl.
  - destruct (acc !! name); [done|]. by destruct (excluded env bl name).
  - rewrite IH, fold_bind_property_lookup.
    destruct (acc !! name) as [b|]; [done|].
    destruct (excluded env bl name); simpl.
    + by rewrite andb_false_r.
    + rewrite andb_true_r.
      destruct (bool_decide (name ∈ for_in_chain [] prototype)); [|done].
      by destruct (getOwnPropertyDescriptor prototype name).
  - apply IH.
Qed.

(** The prototype [createFormProxyConstr] builds, name by name. *)
Lemma createFormProxyConstr_lookup (bl : option (list string)) (win : Window num)
    (name : string) :
  createFormProxyConstr env bl win !! name
  = if excluded env bl name then None
    else proto_property <$> original_descriptor (inheritance win) name.
Proof. unfold createFormProxyConstr. by rewrite walk_lookup, lookup_empty. Qed.

Lemma original_descriptor_Some (klasses : list (option (HostObject num)))
    (name : string) (d : PropertyDescriptor num) :
  original_descriptor klasses name = Some d ->
  exists prototype,
    Some prototype ∈ klasses
    /\ name ∈ for_in (Some prototype)
    /\ getOwnPropertyDescriptor prototype name = Some d.
Proof.
  induction klasses as [|[prototype|] klasses IH]; simpl; [done| |].
  - destruct (decide (name ∈ for_in_chain [] prototype)) as [Hin|Hnin].
    + rewrite bool_decide_eq_true_2 by done.
      destruct (getOwnPropertyDescriptor prototype name) as [d'|] eqn:E.
      * intros [= ->]. exists prototype. split; [by left|done].
      * intros H. destruct (IH H) as (p & ? & ? & ?). exists p. split; [by right|done].
    + rewrite bool_decide_eq_false_2 by done.
      intros H. destruct (IH H) as (p & ? & ? & ?). exists p. split; [by right|done].
  - intros H. destruct (IH H) as (p & ? & ? & ?). exists p. split; [by right|done].
Qed.

Lemma proxy_get_proto (σ : State) (p : nat) (px : Proxy num) (name : string)
    (b : ProtoProperty num) :
  proxies σ !! p = Some px ->
  name ≠ "form_" ->
  own px !! name = None ->
  proto px !! name = Some b ->
  proxy_get env p name σ
  = match b with
    | PMethod method => (Ok (VProxyMethod method), σ)
    | PAccessor (Some g) _ => (host_getter env g (form_ px) σ, σ)
    | PAccessor None _ => (Ok VUndefined, σ)
    end.
Proof.
  intros Hp Hname Hown Hproto. unfold proxy_get, proxy_get_with.
  rewrite Hp. apply String.eqb_neq in Hname. rewrite Hname, Hown, Hproto.
  by destruct b as [|[g|] ?].
Qed.

Lemma proxy_call_method (σ : State) (p : nat) (px : Proxy num) (name : string)
    (method : value) (args : list value) :
  proxies σ !! p = Some px ->
  name ≠ "form_" ->
  own px !! name = None ->
  proto px !! name = Some (PMethod method) ->
  proxy_call env p name args σ = call_value env method (form_ px) args σ.
Proof.
  intros Hp Hname Hown Hproto. unfold proxy_call, bind.
  rewrite (proxy_get_proto σ p px name (PMethod method)) by done.
  simpl. unfold bind, get_form_. by rewrite Hp.
Qed.

Lemma proxy_set_accessor (σ : State) (p : nat) (px : Proxy num) (name : string)
    (g : option string) (s : string) (v : value) :
  proxies σ !! p = Some px ->
  name ≠ "form_" ->
  own px !! name = None ->
  proto px !! name = Some (PAccessor g (Some s)) ->
  proxy_set env p name v σ = host_setter env s (form_ px) v σ.
Proof.
  intros Hp Hname Hown Hproto. unfold proxy_set.
  rewrite Hp. apply String.eqb_neq in Hname. by rewrite Hname, Hown, Hproto.
Qed.

(** C2: every name on the prototype of the proxy constructor comes from
    the own descriptor of that name on one of the walked prototypes.  When
    the value of the descriptor is a function, calling [proxy[name]]
    applies that function to the form of the proxy with the same
    arguments; otherwise reading [proxy[name]] runs the getter of the
    descriptor on the form and writing it runs the setter of the
    descriptor on the form.  (The field [form_] of the proxy itself is not
    such a name.) *)
Theorem FormProxy_prototype_forwards (bl : option (list string)) (win : Window num)
    (name : string) (b : ProtoProperty num) :
  createFormProxyConstr env bl win !! name = Some b ->
  name ≠ "form_" ->
  exists prototype property,
    Some prototype ∈ inheritance win
    /\ getOwnPropertyDescriptor prototype name = Some property
    /\ forall (σ : State) (p : nat) (px : Proxy num) (form : nat),
         proxies σ !! p = Some px ->
         proto px = createFormProxyConstr env bl win ->
         form_ px = VNode form ->
         own px !! name = None ->
         match d_value property with
         | Some method =>
             if is_function method then
               forall args,
                 proxy_call env p name args σ
                 = call_value env method (VNode form) args σ
             else
               (forall g, d_get property = Some g ->
                          proxy_get env p name σ = (host_getter env g (VNode form) σ, σ))
               /\ (forall s v, d_set property = Some s ->
                               proxy_set env p name v σ
                               = host_setter env s (VNode form) v σ)
         | None =>
             (forall g, d_get property = Some g ->
                        proxy_get env p name σ = (host_getter env g (VNode form) σ, σ))
             /\ (forall s v, d_set property = Some s ->
                             proxy_set env p name v σ
                             = host_setter env s (VNode form) v σ)
         end.
Proof.
  intros Hb Hname. rewrite createFormProxyConstr_lookup in Hb.
  destruct (excluded env bl name) eqn:Hex; [done|].
  destruct (original_descriptor (inheritance win) name) as [property|] eqn:Hd; [|done].
  injection Hb as <-.
  destruct (original_descriptor_Some _ _ _ Hd) as (prototype & Hin & _ & Hown).
  exists prototype, property. split; [done|]. split; [done|].
  intros σ p px form Hp Hproto Hform Hnone.
  assert (Hlook : proto px !! name = Some (proto_property property))
    by (by rewrite Hproto, createFormProxyConstr_lookup, Hex, Hd).
  assert (Hacc : proto px !! name = Some (PAccessor (d_get property) (d_set property)) ->
                 (forall g, d_get property = Some g ->
                            proxy_get env p name σ = (host_getter env g (VNode form) σ, σ))
                 /\ (forall s v, d_set property = Some s ->
                                 proxy_set env p name v σ
                                 = host_setter env s (VNode form) v σ)).
  { intros Hl. split.
    - intros g Hg. rewrite Hg in Hl.
      rewrite (proxy_get_proto σ p px name _ Hp Hname Hnone Hl). by rewrite Hform.
    - intros s v Hs. rewrite Hs in Hl. rewrite <- Hform.
      by eapply proxy_set_accessor. }
  unfold proto_property in Hlook.
  destruct (d_value property) as [method|]; [|by apply Hacc].
  destruct (is_function method); [|by apply Hacc].
  intros args. rewrite <- Hform. by apply proxy_call_method.
Qed.

(** ** C10: the TOGGLE properties of the legacy proxy *)

Lemma proxy_get_with_method (on_attr : string -> LegacyDesc num -> M num value)
    (σ : State) (p : nat) (px : Proxy num) (name : string) (method : value) :
  proxies σ !! p = Some px ->
  name ≠ "form_" ->
  own px !! name = None ->
  proto px !! name = Some (PMethod method) ->
  proxy_get_with env on_attr p name σ = (Ok (VProxyMethod method), σ).
Proof.
  intros Hp Hname Hown Hproto. unfold proxy_get_with.
  rewrite Hp. apply String.eqb_neq in Hname. by rewrite Hname, Hown, Hproto.
Qed.

Lemma getAttribute_setAttribute (n : nat) (a v : string) (σ : State) :
  is_Some (nodes σ !! n) ->
  getAttribute n a (setAttribute n a v σ) = Some v.
Proof.
  intros [nd H]. unfold getAttribute, setAttribute.
  rewrite nodes_update_node_eq, H. simpl. by rewrite lookup_insert_eq.
Qed.

Lemma getAttribute_removeAttribute (n : nat) (a : string) (σ : State) :
  getAttribute n a (removeAttribute n a σ) = None.
Proof.
  unfold getAttribute, removeAttribute. rewrite nodes_update_node_eq.
  destruct (nodes σ !! n); [|done]. simpl. by rewrite lookup_delete_eq.
Qed.

(** Reading an attribute through the proxy. *)
Lemma attr_get_run (σ : State) (p : nat) (px : Proxy num) (form : nat)
    (a : string) (desc : LegacyDesc num) :
  proxies σ !! p = Some px ->
  form_ px = VNode form ->
  is_Some (nodes σ !! form) ->
  has_attribute_methods px ->
  attr_get env p a desc σ
  = (Ok (let v := attr_value (getAttribute form a σ) in
         if is_nullish v && def_defined desc then default VUndefined (def desc)
         else match type desc with
              | Some BOOL => VBool (is_str v "true")
              | Some TOGGLE => VBool (negb (is_nullish v))
              | Some URL =>
                  VStr (parseUrl_href env (if to_boolean v then to_string env v else ""))
              | None => v
              end), σ).
Proof.
  intros Hp Hform Hnode ((Hg1 & Hg2) & _).
  unfold attr_get, bind.
  rewrite (proxy_get_with_method _ σ p px "getAttribute" (VNative NGetAttribute))
    by done.
  simpl. unfold bind, get_form_. rewrite Hp, Hform. simpl.
  by rewrite decide_True by done.
Qed.

(** Writing an attribute through the proxy. *)
Lemma attr_set_run (σ : State) (p : nat) (px : Proxy num) (form : nat)
    (a : string) (desc : LegacyDesc num) (v : value) :
  proxies σ !! p = Some px ->
  form_ px = VNode form ->
  is_Some (nodes σ !! form) ->
  has_attribute_methods px ->
  attr_set env p a desc v σ
  = (Ok tt,
     let v' := match type desc with
               | Some TOGGLE => if to_boolean v then VStr "" else VNull
               | _ => v
               end in
     if negb (is_nullish v') then setAttribute form a (to_string env v') σ
     else removeAttribute form a σ).
Proof.
  intros Hp Hform Hnode (_ & (Hs1 & Hs2) & (Hr1 & Hr2)).
  unfold attr_set. simpl.
  destruct (negb (is_nullish _)); unfold bind.
  - rewrite (proxy_call_method σ p px "setAttribute" (VNative NSetAttribute)) by done.
    rewrite Hform. simpl. by rewrite decide_True by done.
  - rewrite (proxy_call_method σ p px "removeAttribute" (VNative NRemoveAttribute)) by done.
    rewrite Hform. simpl. by rewrite decide_True by done.
Qed.

(** [LEGACY_PROPS] has two entries of type TOGGLE. *)
Lemma toggle_entries :
  map fst (List.filter (fun entry => match type entry.2 with
                                     | Some TOGGLE => true
                                     | _ => false
                                     end) (LEGACY_PROPS (num := num)))
  = ["hidden"; "noValidate"].
Proof. reflexivity. Qed.

(** The entries of [LEGACY_PROPS] of type TOGGLE, by name. *)
Lemma toggle_props (name : string) (desc : LegacyDesc num) :
  assoc name (LEGACY_PROPS (num := num)) = Some desc ->
  type desc = Some TOGGLE ->
  (name = "hidden" /\ desc = mkLegacyDesc ATTR None (Some TOGGLE) (Some (VBool false)))
  \/ (name = "noValidate"
      /\ desc = mkLegacyDesc ATTR (Some "novalidate") (Some TOGGLE) (Some (VBool false))).
Proof.
  unfold LEGACY_PROPS. cbn [assoc].
  repeat match goal with
         | |- context [String.eqb ?k name] =>
             destruct (String.eqb_spec k name) as [<-|?];
             [intros [= <-]; simpl; intros Ht; first [discriminate Ht | by left | by right]|]
         end.
  done.
Qed.

(** C10: the legacy properties of type TOGGLE are 'hidden' and
    'noValidate', declared with the default false.  On a proxy that
    carries the accessor [setupLegacyProxy] defines for such a property,
    and whose attribute methods are those of the DOM, writing any value
    [v] and reading back gives [Boolean(v)]: a truthy value stores the
    empty attribute and the getter answers true; a falsy value removes the
    attribute and the getter answers the default, false. *)
Theorem toggle_round_trip (σ : State) (p : nat) (px : Proxy num) (form : nat)
    (name : string) (desc : LegacyDesc num) (v : value) :
  assoc name (LEGACY_PROPS (num := num)) = Some desc ->
  type desc = Some TOGGLE ->
  proxies σ !! p = Some px ->
  form_ px = VNode form ->
  is_Some (nodes σ !! form) ->
  own px !! name = Some (AttrAccessor (default name (attr desc)) desc) ->
  has_attribute_methods px ->
  (name = "hidden" \/ name = "noValidate")
  /\ def desc = Some (VBool false)
  /\ exists σ',
       proxy_set env p name v σ = (Ok tt, σ')
       /\ getAttribute form (default name (attr desc)) σ'
          = (if to_boolean v then Some "" else None)
       /\ proxy_get env p name σ' = (Ok (VBool (to_boolean v)), σ').
Proof.
  intros Hassoc Htype Hp Hform Hnode Hown Hmethods.
  assert (Hname : String.eqb name "form_" = false).
  { destruct (toggle_props name desc Hassoc Htype) as [[-> _]|[-> _]]; done. }
  assert (Hdef : def desc = Some (VBool false)).
  { destruct (toggle_props name desc Hassoc Htype) as [[_ ->]|[_ ->]]; done. }
  split; [destruct (toggle_props name desc Hassoc Htype) as [[-> _]|[-> _]]; auto|].
  split; [done|].
  set (a := default name (attr desc)) in *.
  eexists. split.
  { unfold proxy_set. rewrite Hp, Hname, Hown.
    by apply (attr_set_run σ p px form a desc v). }
  rewrite Htype. simpl.
  assert (Hget : forall σ', proxies σ' = proxies σ -> is_Some (nodes σ' !! form) ->
                   proxy_get env p name σ'
                   = (Ok (let v0 : value := attr_value (getAttribute form a σ') in
                          if is_nullish v0 && def_defined desc
                          then default VUndefined (def desc)
                          else VBool (negb (is_nullish v0))), σ')).
  { intros σ' Hprox Hn. unfold proxy_get, proxy_get_with.
    rewrite Hprox, Hp, Hname, Hown.
    rewrite (attr_get_run σ' p px form a desc) by (done || by rewrite Hprox).
    by rewrite Htype. }
  destruct (to_boolean v); simpl.
  - split; [by apply getAttribute_setAttribute|].
    rewrite Hget; [|done|].
    + by rewrite getAttribute_setAttribute.
    + unfold setAttribute. rewrite nodes_update_node_eq.
      destruct Hnode as [fd ->]. by eexists.
  - split; [by apply getAttribute_removeAttribute|].
    rewrite Hget; [|done|].
    + rewrite getAttribute_removeAttribute. simpl.
      unfold def_defined. by rewrite Hdef.
    + unfold removeAttribute. rewrite nodes_update_node_eq.
      destruct Hnode as [fd ->]. by eexists.
Qed.

(** ** C1 and C7: [installFormProxy] *)













Lemma bind_Ok {A B} (c : M num A) (k : A -> M num B) (σ σ' : State) (b : B) :
  bind c k σ = (Ok b, σ') ->
  exists a σ1, c σ = (Ok a, σ1) /\ k a σ1 = (Ok b, σ').
Proof.
  unfold bind. destruct (c σ) as [[a|e] σ1]; [|done]. intros H. by exists a, σ1.
Qed.



(** ** C8: removing and putting back the masking control *)

Lemma next_sibling_list_elem (e r : nat) (l : list nat) :
  next_sibling_list e l = Some r -> r ∈ l.
Proof.
  induction l as [|x l IH]; simpl; [done|].
  destruct (decide (x = e)) as [_|_].
  - destruct l as [|y l]; simpl; [done|]. intros [= ->]. right. by left.
  - intros H. right. by apply IH.
Qed.

(** Taking a child out of the list and putting it back before the child
    that followed it gives the list back. *)
Lemma remove_then_insert_before (e r : nat) (l : list nat) :
  NoDup l ->
  next_sibling_list e l = Some r ->
  insert_before_list e r (remove_child_list e l) = Some l.
Proof.
  induction l as [|x l IH]; simpl; [done|].
  intros [Hx Hl]%NoDup_cons.
  destruct (decide (x = e)) as [->|Hne].
  - destruct l as [|y l]; simpl; [done|]. intros [= ->].
    by rewrite decide_True.
  - intros Hnext. simpl.
    rewrite decide_False.
    + by rewrite IH.
    + intros ->. apply Hx. by apply (next_sibling_list_elem e).
Qed.

(** Taking the last child out and appending it gives the list back. *)
Lemma remove_then_append (e : nat) (l : list nat) :
  e ∈ l ->
  next_sibling_list e l = None ->
  remove_child_list e l ++ [e] = l.
Proof.
  induction l as [|x l IH]; simpl; [by intros ?%elem_of_nil|].
  intros Hin. destruct (decide (x = e)) as [->|Hne].
  - destruct l as [|y l]; simpl; [done|done].
  - intros Hnext. simpl. f_equal. apply IH; [|done].
    apply elem_of_cons in Hin as [->|Hin]; done.
Qed.

Lemma set_nodes_same (σ : State) : set_nodes (nodes σ) σ = σ.
Proof. by destruct σ. Qed.

(** Undoing [detach]: the parent gets its list of children back and the
    child its parent. *)
Lemma reattach (σ : State) (e q : nat) (ed qd : Node) :
  nodes σ !! e = Some ed ->
  nodes σ !! q = Some qd ->
  parentNode ed = Some q ->
  e ≠ q ->
  update_node e (set_parentNode (Some q))
    (update_node q (set_childNodes (childNodes qd)) (detach e σ)) = σ.
Proof.
  intros He Hq Hp Hne. unfold detach. rewrite He, Hp.
  transitivity (set_nodes (nodes σ) σ); [|apply set_nodes_same].
  unfold update_node, set_nodes. simpl. f_equal.
  apply map_eq. intros i. rewrite !lookup_alter.
  destruct (decide (e = i)) as [<-|Hei].
  - repeat first [ rewrite (decide_False (P := q = e)) by congruence
                 | rewrite (decide_True (P := e = e)) by done ].
    rewrite He. simpl. destruct ed. simpl in *. by subst.
  - destruct (decide (q = i)) as [<-|Hqi]; [|done].
    repeat first [ rewrite (decide_False (P := e = q)) by congruence
                 | rewrite (decide_True (P := q = q)) by done ].
    rewrite Hq. simpl. by destruct qd.
Qed.

Lemma bind_run {A B} (c : M num A) (k : A -> M num B) (σ σ' : State) (a : A) :
  c σ = (Ok a, σ') -> bind c k σ = k a σ'.
Proof. intros H. unfold bind. by rewrite H. Qed.

Lemma node_get_plain (σ : State) (n : nat) (nd : Node) (name : string) :
  nodes σ !! n = Some nd ->
  is_form nd = false ->
  node_get env σ n name = dom_get env σ n nd name.
Proof. intros Hn Hf. unfold node_get. by rewrite Hn, Hf. Qed.

Lemma nodes_detach (σ : State) (e q : nat) (ed : Node) (i : nat) :
  nodes σ !! e = Some ed ->
  parentNode ed = Some q ->
  e ≠ q ->
  nodes (detach e σ) !! i
  = if decide (i = e) then Some (set_parentNode None ed)
    else if decide (i = q)
         then (fun pd => set_childNodes (remove_child_list e (childNodes pd)) pd)
                <$> nodes σ !! q
         else nodes σ !! i.
Proof.
  intros He Hp Hne. unfold detach. rewrite He, Hp.
  destruct (decide (i = e)) as [->|Hie].
  - by rewrite nodes_update_node_eq, nodes_update_node_ne, He.
  - rewrite nodes_update_node_ne by done.
    destruct (decide (i = q)) as [->|Hiq].
    + by rewrite nodes_update_node_eq.
    + by rewrite nodes_update_node_ne.
Qed.

(** When the methods [removeChild] and [insertBefore] of the parent are
    those of the DOM, the READ_ONCE branch reads [form[name]] with the
    control out of the tree and leaves the whole page as it found it,
    whether the read answers or raises. *)
Lemma read_once_value_restores (σ : State) (form e q : nat) (ed qd : Node)
    (name : string) :
  nodes σ !! e = Some ed ->
  is_form ed = false ->
  parentNode ed = Some q ->
  nodes σ !! q = Some qd ->
  e ≠ q ->
  NoDup (childNodes qd) ->
  e ∈ childNodes qd ->
  (forall r, next_sibling_list e (childNodes qd) = Some r ->
             exists rd, nodes σ !! r = Some rd /\ parentNode rd = Some q) ->
  assertElement env (VNode e) = Ok (VNode e) ->
  node_get env σ q "removeChild" = Ok (VNative NRemoveChild) ->
  node_get env (detach e σ) q "insertBefore" = Ok (VNative NInsertBefore) ->
  read_once_value env form name (VNode e) σ
  = (node_get env (detach e σ) form name, σ).
Proof.
  intros He Hform Hp Hq Hne Hnd Hin Hnext Hassert Hrm Hins.
  assert (Hq1 : nodes (detach e σ) !! q
                = Some (set_childNodes (remove_child_list e (childNodes qd)) qd)).
  { rewrite (nodes_detach σ e q ed) by done.
    rewrite decide_False, decide_True by done. by rewrite Hq. }
  assert (He1 : nodes (detach e σ) !! e = Some (set_parentNode None ed)).
  { rewrite (nodes_detach σ e q ed) by done. by rewrite decide_True. }
  assert (Hdd : detach e (detach e σ) = detach e σ)
    by (by apply (detach_orphan e (set_parentNode None ed))).
  unfold read_once_value. simpl.
  erewrite bind_run
    by (unfold lift; rewrite (node_get_plain σ e ed) by done; reflexivity).
  simpl. rewrite num_one_truthy. simpl.
  erewrite bind_run by (unfold lift; rewrite Hassert; reflexivity).
  erewrite bind_run
    by (simpl; unfold lift; rewrite (node_get_plain σ e ed) by done;
        unfold dom_get; simpl; rewrite Hp, Hq; reflexivity).
  erewrite bind_run
    by (simpl; unfold lift; rewrite (node_get_plain σ e ed) by done;
        unfold dom_get; simpl; rewrite Hp; reflexivity).
  erewrite bind_run.
  2:{ unfold method_call. erewrite bind_run by (simpl; unfold lift; rewrite Hrm; reflexivity).
      simpl. rewrite decide_True by (by rewrite Hq).
      unfold removeChild. rewrite He. by rewrite decide_True. }
  assert (Hback : method_call env (VNode q) "insertBefore"
                    [VNode e;
                     match next_sibling_list e (childNodes qd) with
                     | Some s => VNode s
                     | None => VNull
                     end] (detach e σ) = (Ok (VNode e), σ)).
  { unfold method_call.
    erewrite bind_run by (simpl; unfold lift; rewrite Hins; reflexivity).
    simpl. rewrite decide_True by (by rewrite Hq1).
    unfold arg. simpl.
    destruct (next_sibling_list e (childNodes qd)) as [r|] eqn:Hr.
    - destruct (Hnext r eq_refl) as (rd & Hrd & Hrp).
      assert (Hre : r ≠ e).
      { intros ->. clear -Hnd Hr. induction (childNodes qd) as [|x l IH]; [done|].
        simpl in Hr. apply NoDup_cons in Hnd as [Hx Hl].
        destruct (decide (x = e)) as [->|].
        - destruct l as [|y l]; [done|]. simpl in Hr. injection Hr as ->.
          apply Hx. by left.
        - by apply IH. }
      assert (Hr1 : exists rd', nodes (detach e σ) !! r = Some rd'
                                /\ parentNode rd' = Some q).
      { rewrite (nodes_detach σ e q ed) by done. rewrite decide_False by done.
        destruct (decide (r = q)) as [->|].
        - rewrite Hq. simpl. eexists. split; [done|]. simpl.
          rewrite Hq in Hrd. by injection Hrd as ->.
        - by exists rd. }
      destruct Hr1 as (rd' & Hrd' & Hrp').
      unfold insertBefore. rewrite Hrd', decide_True by done.
      rewrite Hdd, Hq1. simpl.
      rewrite (remove_then_insert_before e r) by done.
      by rewrite (reattach σ e q ed qd).
    - unfold insertBefore. rewrite Hdd. f_equal.
      transitivity (update_node e (set_parentNode (Some q))
                      (update_node q (set_childNodes (childNodes qd)) (detach e σ)));
        [|by apply (reattach σ e q ed qd)].
      f_equal.
      rewrite !(update_node_Some q _ _ _ Hq1).
      simpl. by rewrite remove_then_append. }
  unfold try_finally, lift.
  erewrite bind_run by exact Hback.
  done.
Qed.


(** ** The walk of [createFormProxyConstr], name by name *)

Lemma original_descriptor_is_Some (klasses : list (option (HostObject num)))
    (name : string) :
  is_Some (original_descriptor klasses name)
  <-> exists prototype,
        Some prototype ∈ klasses
        /\ name ∈ for_in (Some prototype)
        /\ is_Some (getOwnPropertyDescriptor prototype name).
Proof.
  split.
  - intros [d Hd]. destruct (original_descriptor_Some _ _ _ Hd) as (q & ? & ? & Hq).
    exists q. by rewrite Hq.
  - intros (q & Hin & Hfor & Hown).
    induction klasses as [|[prototype|] klasses IH]; simpl.
    + by apply elem_of_nil in Hin.
    + apply elem_of_cons in Hin as [[= <-]|Hin].
      * rewrite bool_decide_eq_true_2 by done. by destruct Hown as [d ->].
      * destruct (bool_decide (name ∈ for_in_chain [] prototype)); [|by apply IH].
        destruct (getOwnPropertyDescriptor prototype name); [done | by apply IH].
    + apply elem_of_cons in Hin as [[=]|Hin]. by apply IH.
Qed.

(** The descriptor the walk meets first, when the classes before the one
    that offers it do not. *)
Lemma original_descriptor_first (before after : list (option (HostObject num)))
    (prototype : HostObject num) (name : string) (d : PropertyDescriptor num) :
  (forall q, Some q ∈ before -> name ∈ for_in (Some q) ->
             getOwnPropertyDescriptor q name = None) ->
  name ∈ for_in (Some prototype) ->
  getOwnPropertyDescriptor prototype name = Some d ->
  original_descriptor (before ++ Some prototype :: after) name = Some d.
Proof.
  intros Hbefore Hfor Hown.
  induction before as [|[q|] before IH]; simpl.
  - by rewrite bool_decide_eq_true_2, Hown by done.
  - destruct (decide (name ∈ for_in_chain [] q)) as [Hin|Hnin].
    + rewrite bool_decide_eq_true_2 by done.
      rewrite (Hbefore q) by (done || by left).
      apply IH. intros q' Hq'. apply Hbefore. by right.
    + rewrite bool_decide_eq_false_2 by done.
      apply IH. intros q' Hq'. apply Hbefore. by right.
  - apply IH. intros q' Hq'. apply Hbefore. by right.
Qed.

(** X1: a name is on the prototype [createFormProxyConstr] builds exactly
    when it is not a constant (equal to its upper case), does not start
    with 'on', is not blacklisted, and one of the five walked prototypes
    enumerates it and has it as an own property.  (Stated for the names
    other than 'constructor', which the prototype of a new function has
    from the start.) *)
Theorem createFormProxyConstr_binds (bl : option (list string)) (win : Window num)
    (name : string) :
  name ≠ "constructor" ->
  is_Some (createFormProxyConstr env bl win !! name)
  <-> String.eqb (toUpperCase name) name = false
      /\ startsWith env name "on" = false
      /\ blacklisted bl name = false
      /\ exists prototype,
           Some prototype ∈ inheritance win
           /\ name ∈ for_in (Some prototype)
           /\ is_Some (getOwnPropertyDescriptor prototype name).
Proof.
  intros _.
  rewrite createFormProxyConstr_lookup, <- original_descriptor_is_Some.
  unfold excluded.
  destruct (String.eqb (toUpperCase name) name), (startsWith env name "on"),
    (blacklisted bl name); simpl.
  1-7: split; [by intros [? ?] | by intros (? & ? & ? & ?)].
  rewrite fmap_is_Some. split; [done | by intros (_ & _ & _ & ?)].
Qed.

(** X2: the first prototype wins.  When a walked prototype enumerates
    [name] and has it as an own property, and no class before it in the
    order of the walk does, the proxy prototype binds [name] to that
    descriptor (a method when its value is a function, an accessor
    otherwise), whatever the classes after it define.  (Stated for the
    names other than 'constructor'.) *)
Theorem createFormProxyConstr_first_wins (bl : option (list string)) (win : Window num)
    (before after : list (option (HostObject num))) (prototype : HostObject num)
    (name : string) (d : PropertyDescriptor num) :
  inheritance win = before ++ Some prototype :: after ->
  (forall q, Some q ∈ before -> name ∈ for_in (Some q) ->
             getOwnPropertyDescriptor q name = None) ->
  name ∈ for_in (Some prototype) ->
  getOwnPropertyDescriptor prototype name = Some d ->
  String.eqb (toUpperCase name) name = false ->
  startsWith env name "on" = false ->
  blacklisted bl name = false ->
  name ≠ "constructor" ->
  createFormProxyConstr env bl win !! name
  = Some (match d_value d with
          | Some method =>
              if is_function method then PMethod method
              else PAccessor (d_get d) (d_set d)
          | None => PAccessor (d_get d) (d_set d)
          end).
Proof.
  intros Hwalk Hbefore Hfor Hown Hup Hon Hbl _.
  rewrite createFormProxyConstr_lookup, Hwalk.
  rewrite (original_descriptor_first before after prototype name d) by done.
  unfold excluded. by rewrite Hup, Hon, Hbl.
Qed.

(** X3: the blacklist removes its names and nothing else: with a blacklist
    the proxy prototype is the one built without it, less the blacklisted
    names; an empty blacklist is no blacklist. *)
Theorem blacklist_only_removes (bl : list string) (win : Window num) :
  (forall name,
     createFormProxyConstr env (Some bl) win !! name
     = if bool_decide (name ∈ bl) then None
       else createFormProxyConstr env None win !! name)
  /\ createFormProxyConstr env (Some []) win = createFormProxyConstr env None win.
Proof.
  assert (H : forall l name,
             createFormProxyConstr env (Some l) win !! name
             = if bool_decide (name ∈ l) then None
               else createFormProxyConstr env None win !! name).
  { intros l name. rewrite !createFormProxyConstr_lookup. unfold excluded. simpl.
    destruct (bool_decide (name ∈ l)); [by rewrite orb_true_r|].
    by rewrite !orb_false_r. }
  split; [apply H|].
  apply map_eq. intros name. rewrite H.
  by rewrite bool_decide_eq_false_2 by apply not_elem_of_nil.
Qed.

(** X4: a property of a walked prototype that is neither a method nor an
    accessor with a getter (a data property whose value is not a
    function) is bound without getter: through the proxy it reads
    undefined, whatever value the prototype holds. *)
Theorem data_property_reads_undefined (bl : option (list string)) (win : Window num)
    (before after : list (option (HostObject num))) (prototype : HostObject num)
    (name : string) (d : PropertyDescriptor num) (v : value)
    (σ : State) (p : nat) (px : Proxy num) :
  inheritance win = before ++ Some prototype :: after ->
  (forall q, Some q ∈ before -> name ∈ for_in (Some q) ->
             getOwnPropertyDescriptor q name = None) ->
  name ∈ for_in (Some prototype) ->
  getOwnPropertyDescriptor prototype name = Some d ->
  String.eqb (toUpperCase name) name = false ->
  startsWith env name "on" = false ->
  blacklisted bl name = false ->
  d_value d = Some v ->
  is_function v = false ->
  d_get d = None ->
  proxies σ !! p = Some px ->
  proto px = createFormProxyConstr env bl win ->
  own px !! name = None ->
  name ≠ "form_" ->
  name ≠ "constructor" ->
  proxy_get env p name σ = (Ok VUndefined, σ).
Proof.
  intros Hwalk Hbefore Hfor Hown Hup Hon Hbl Hv Hf Hg Hp Hproto Hnone Hname _.
  rewrite (proxy_get_proto σ p px name (PAccessor None (d_set d))); try done.
  rewrite Hproto, createFormProxyConstr_lookup, Hwalk.
  rewrite (original_descriptor_first before after prototype name d) by done.
  unfold excluded. rewrite Hup, Hon, Hbl. simpl.
  unfold proto_property. by rewrite Hv, Hf, Hg.
Qed.

(** ** The proxy against the masking of the form *)




Lemma node_get_control (σ : State) (n : nat) (nd : Node) (name : string) (e : nat) :
  nodes σ !! n = Some nd ->
  is_form nd = true ->
  named_controls σ n name = [e] ->
  node_get env σ n name = Ok (VNode e).
Proof. intros Hn Hf Hc. unfold node_get. by rewrite Hn, Hf, Hc. Qed.









(** ** The properties [setupLegacyProxy] defines, one name at a time *)

(** The loop body for a name the proxy does not have yet. *)
Lemma legacy_property_run (σ : State) (form p : nat) (px : Proxy num) (name : string) :
  proxies σ !! p = Some px ->
  proxy_has px name = false ->
  String.eqb (toUpperCase name) name = false ->
  startsWith env name "on" = false ->
  legacy_property env form p name σ
  = (let! current := get_prop env (VNode form) name in
     match assoc name (LEGACY_PROPS (num := num)) with
     | Some desc =>
         match access desc with
         | READ_ONCE =>
             let! actual := read_once_value env form name current in
             define_own p name (ReadOnce actual)
         | ATTR => define_own p name (AttrAccessor (default name (attr desc)) desc)
         end
     | None => define_own p name (DirectAccessor form)
     end) σ.
Proof.
  intros Hp Hhas Hup Hon. unfold legacy_property.
  unfold bind at 1. unfold proxy_in. by rewrite Hp, Hhas, Hup, Hon.
Qed.

Lemma proxy_has_form_ (px : Proxy num) (name : string) :
  proxy_has px name = false -> String.eqb name "form_" = false.
Proof. unfold proxy_has. by destruct (String.eqb name "form_"). Qed.

Lemma define_own_lookup (σ : State) (p : nat) (px : Proxy num) (name : string)
    (o : OwnProperty num) :
  proxies σ !! p = Some px ->
  exists σ1,
    define_own p name o σ = (Ok tt, σ1)
    /\ nodes σ1 = nodes σ
    /\ proxies σ1 !! p = Some (set_own (<[name := o]> (own px)) px).
Proof.
  intros Hp. eexists. split; [done|]. split; [done|].
  simpl. by rewrite lookup_alter_eq, Hp.
Qed.

(** X8: the legacy setup of an attribute-based property.  For a name of
    [LEGACY_PROPS] with the access ATTR that the proxy lacks, the setup
    reads [form[name]], leaves the page alone and defines on the proxy an
    accessor on the attribute of that name; for 'acceptCharset',
    'accessKey' and 'noValidate' the attribute is 'accept-charset',
    'accesskey' and 'novalidate'.  The other properties of the proxy stay,
    the attribute methods among them. *)
Theorem legacy_attr_property (σ : State) (form p : nat) (px : Proxy num)
    (name : string) (desc : LegacyDesc num) (current : value) :
  proxies σ !! p = Some px ->
  proxy_has px name = false ->
  String.eqb (toUpperCase name) name = false ->
  startsWith env name "on" = false ->
  assoc name (LEGACY_PROPS (num := num)) = Some desc ->
  access desc = ATTR ->
  node_get env σ form name = Ok current ->
  exists (σ1 : State) (px1 : Proxy num) (a : string),
    legacy_property env form p name σ = (Ok tt, σ1)
    /\ nodes σ1 = nodes σ
    /\ proxies σ1 !! p = Some px1
    /\ own px1 !! name = Some (AttrAccessor a desc)
    /\ a = (if String.eqb name "acceptCharset" then "accept-charset"
            else if String.eqb name "accessKey" then "accesskey"
            else if String.eqb name "noValidate" then "novalidate"
            else name)
    /\ (forall other, other ≠ name -> own px1 !! other = own px !! other)
    /\ form_ px1 = form_ px
    /\ proto px1 = proto px
    /\ (has_attribute_methods px -> has_attribute_methods px1).
Proof.
  intros Hp Hhas Hup Hon Hassoc Haccess Hcur.
  destruct (define_own_lookup σ p px name
              (AttrAccessor (default name (attr desc)) desc) Hp)
    as (σ1 & Hdef & Hnodes & Hp1).
  exists σ1, (set_own (<[name := AttrAccessor (default name (attr desc)) desc]> (own px)) px),
    (default name (attr desc)).
  split.
  { rewrite (legacy_property_run σ form p px name) by done.
    rewrite Hassoc, Haccess.
    by erewrite bind_run by (simpl; unfold lift; rewrite Hcur; reflexivity). }
  split; [done|]. split; [done|].
  split; [simpl; by rewrite lookup_insert_eq|].
  split.
  { clear -Hassoc. revert Hassoc. unfold LEGACY_PROPS. cbn [assoc].
    repeat match goal with
           | |- context [String.eqb ?k name] =>
               destruct (String.eqb_spec k name) as [<-|?];
               [intros [= <-]; reflexivity|]
           end.
    done. }
  split; [intros other Hne; simpl; by rewrite lookup_insert_ne|].
  split; [done|]. split; [done|].
  intros ((Hg1 & Hg2) & (Hs1 & Hs2) & (Hr1 & Hr2)).
  assert (Hin : forall m b, proto px !! m = Some b -> name ≠ m).
  { intros m b Hm ->. unfold proxy_has in Hhas. rewrite Hm in Hhas.
    rewrite (bool_decide_eq_true_2 (is_Some (Some b))) in Hhas by (by eexists).
    by rewrite !orb_true_r in Hhas. }
  repeat split; simpl; try done.
  all: rewrite lookup_insert_ne; [done|]; by eapply Hin.
Qed.

(** ** The attribute-based properties of the legacy proxy *)

Lemma proxy_get_attr (σ : State) (p : nat) (px : Proxy num) (form : nat)
    (name a : string) (desc : LegacyDesc num) :
  proxies σ !! p = Some px ->
  form_ px = VNode form ->
  is_Some (nodes σ !! form) ->
  has_attribute_methods px ->
  name ≠ "form_" ->
  own px !! name = Some (AttrAccessor a desc) ->
  proxy_get env p name σ
  = (Ok (let v := attr_value (getAttribute form a σ) in
         if is_nullish v && def_defined desc then default VUndefined (def desc)
         else match type desc with
              | Some BOOL => VBool (is_str v "true")
              | Some TOGGLE => VBool (negb (is_nullish v))
              | Some URL =>
                  VStr (parseUrl_href env (if to_boolean v then to_string env v else ""))
              | None => v
              end), σ).
Proof.
  intros Hp Hform Hnode Hmethods Hname Hown.
  unfold proxy_get, proxy_get_with. apply String.eqb_neq in Hname.
  rewrite Hp, Hname, Hown. by apply (attr_get_run σ p px form a desc).
Qed.

Lemma proxy_set_attr (σ : State) (p : nat) (px : Proxy num) (form : nat)
    (name a : string) (desc : LegacyDesc num) (v : value) :
  proxies σ !! p = Some px ->
  form_ px = VNode form ->
  is_Some (nodes σ !! form) ->
  has_attribute_methods px ->
  name ≠ "form_" ->
  own px !! name = Some (AttrAccessor a desc) ->
  proxy_set env p name v σ
  = (Ok tt,
     let v' := match type desc with
               | Some TOGGLE => if to_boolean v then VStr "" else VNull
               | _ => v
               end in
     if negb (is_nullish v') then setAttribute form a (to_string env v') σ
     else removeAttribute form a σ).
Proof.
  intros Hp Hform Hnode Hmethods Hname Hown.
  unfold proxy_set. apply String.eqb_neq in Hname.
  rewrite Hp, Hname, Hown. by apply (attr_set_run σ p px form a desc v).
Qed.

Lemma is_Some_setAttribute (n m : nat) (a v : string) (σ : State) :
  is_Some (nodes σ !! m) -> is_Some (nodes (setAttribute n a v σ) !! m).
Proof.
  intros [nd H]. unfold setAttribute. rewrite nodes_update_node.
  destruct (decide (n = m)) as [->|]; rewrite H; by eexists.
Qed.

Lemma is_Some_removeAttribute (n m : nat) (a : string) (σ : State) :
  is_Some (nodes σ !! m) -> is_Some (nodes (removeAttribute n a σ) !! m).
Proof.
  intros [nd H]. unfold removeAttribute. rewrite nodes_update_node.
  destruct (decide (n = m)) as [->|]; rewrite H; by eexists.
Qed.

(** X9: an attribute-based property of the legacy proxy whose attribute
    is missing on the form reads as the default of its entry when it
    declares one, and otherwise as false for the types BOOL and TOGGLE, as
    [parseUrl('').href] for the type URL and as null for an entry without
    type.  Assigning null or undefined to the property removes the
    attribute, whatever it held, and the property then reads that way. *)
Theorem legacy_attr_missing (σ : State) (p : nat) (px : Proxy num) (form : nat)
    (name a : string) (desc : LegacyDesc num) :
  proxies σ !! p = Some px ->
  form_ px = VNode form ->
  is_Some (nodes σ !! form) ->
  has_attribute_methods px ->
  name ≠ "form_" ->
  own px !! name = Some (AttrAccessor a desc) ->
  let missing : value :=
    if def_defined desc then default VUndefined (def desc)
    else match type desc with
         | Some BOOL | Some TOGGLE => VBool false
         | Some URL => VStr (parseUrl_href env "")
         | None => VNull
         end in
  (getAttribute form a σ = None -> proxy_get env p name σ = (Ok missing, σ))
  /\ forall v, is_nullish v = true ->
       exists σ',
         proxy_set env p name v σ = (Ok tt, σ')
         /\ getAttribute form a σ' = None
         /\ proxy_get env p name σ' = (Ok missing, σ').
Proof.
  intros Hp Hform Hnode Hmethods Hname Hown missing.
  assert (Hget : forall σ', proxies σ' = proxies σ -> is_Some (nodes σ' !! form) ->
                   getAttribute form a σ' = None ->
                   proxy_get env p name σ' = (Ok missing, σ')).
  { intros σ' Hprox Hn Hnone.
    rewrite (proxy_get_attr σ' p px form name a desc) by (done || by rewrite Hprox).
    rewrite Hnone. simpl. unfold missing.
    destruct (def_defined desc); [done|]. by destruct (type desc) as [[]|]. }
  split; [by apply Hget|].
  intros v Hv. eexists. split.
  { by apply (proxy_set_attr σ p px form name a desc v). }
  assert (Hrm : (let v' := match type desc with
                           | Some TOGGLE => if to_boolean v then VStr "" else VNull
                           | _ => v
                           end in
                 if negb (is_nullish v') then setAttribute form a (to_string env v') σ
                 else removeAttribute form a σ) = removeAttribute form a σ).
  { destruct v; try done; by destruct (type desc) as [[]|]. }
  rewrite Hrm. split; [apply getAttribute_removeAttribute|].
  apply Hget; [done | by apply is_Some_removeAttribute | apply getAttribute_removeAttribute].
Qed.

(** X10: writing a value that is neither null nor undefined to an
    attribute-based property of the legacy proxy (of another type than
    TOGGLE) stores [String(value)] in the attribute, and the property then
    reads: for an entry without type, that string (a string is read back
    as it was written, any other value as its string); for the type BOOL,
    whether that string is 'true', so true is read back as true and any
    other value, truthy or not, as false; for the type URL,
    [parseUrl(string).href]. *)
Theorem legacy_attr_write_read (σ : State) (p : nat) (px : Proxy num) (form : nat)
    (name a : string) (desc : LegacyDesc num) (v : value) :
  proxies σ !! p = Some px ->
  form_ px = VNode form ->
  is_Some (nodes σ !! form) ->
  has_attribute_methods px ->
  name ≠ "form_" ->
  own px !! name = Some (AttrAccessor a desc) ->
  type desc ≠ Some TOGGLE ->
  is_nullish v = false ->
  exists σ',
    proxy_set env p name v σ = (Ok tt, σ')
    /\ getAttribute form a σ' = Some (to_string env v)
    /\ proxy_get env p name σ'
       = (Ok (match type desc with
              | Some BOOL => VBool (String.eqb (to_string env v) "true")
              | Some URL => VStr (parseUrl_href env (to_string env v))
              | _ => VStr (to_string env v)
              end), σ').
Proof.
  intros Hp Hform Hnode Hmethods Hname Hown Htype Hv.
  eexists. split.
  { by apply (proxy_set_attr σ p px form name a desc v). }
  assert (Hset : (let v' := match type desc with
                            | Some TOGGLE => if to_boolean v then VStr "" else VNull
                            | _ => v
                            end in
                  if negb (is_nullish v') then setAttribute form a (to_string env v') σ
                  else removeAttribute form a σ)
                 = setAttribute form a (to_string env v) σ).
  { destruct (type desc) as [[]|]; simpl; try by rewrite Hv. done. }
  rewrite Hset. split; [by apply getAttribute_setAttribute|].
  rewrite (proxy_get_attr _ p px form name a desc)
    by (done || by apply is_Some_setAttribute).
  rewrite getAttribute_setAttribute by done. simpl.
  destruct (type desc) as [[]|]; simpl; try done.
  f_equal. f_equal. f_equal.
  destruct (String.eqb_spec (to_string env v) ""); simpl; congruence.
Qed.
(** X11: a READ_ONCE property is read once.  For such a name of
    [LEGACY_PROPS] that the proxy lacks, when [form[name]] is not a node
    (it is falsy or has no truthy [nodeType]), the legacy setup keeps the
    value [form[name]] has at that moment and leaves the page alone; from
    then on the proxy answers that value in every state, whatever the form
    has become, and an assignment to the property, which has no setter,
    raises TypeError (the code is strict). *)
Theorem legacy_read_once_frozen (σ : State) (form p : nat) (px : Proxy num)
    (name : string) (desc : LegacyDesc num) (current : value) :
  proxies σ !! p = Some px ->
  proxy_has px name = false ->
  String.eqb (toUpperCase name) name = false ->
  startsWith env name "on" = false ->
  assoc name (LEGACY_PROPS (num := num)) = Some desc ->
  access desc = READ_ONCE ->
  node_get env σ form name = Ok current ->
  (to_boolean current = false
   \/ exists nodeType,
        get_prop env current "nodeType" σ = (Ok nodeType, σ)
        /\ to_boolean nodeType = false) ->
  exists σ1,
    legacy_property env form p name σ = (Ok tt, σ1)
    /\ nodes σ1 = nodes σ
    /\ forall σ2,
         proxies σ2 !! p = proxies σ1 !! p ->
         proxy_get env p name σ2 = (Ok current, σ2)
         /\ exists msg, forall v,
              proxy_set env p name v σ2 = (Throw (TypeError msg), σ2).
Proof.
  intros Hp Hhas Hup Hon Hassoc Haccess Hcur Hnode.
  destruct (define_own_lookup σ p px name (ReadOnce current) Hp)
    as (σ1 & Hdef & Hnodes & Hp1).
  exists σ1. split.
  { rewrite (legacy_property_run σ form p px name) by done.
    rewrite Hassoc, Haccess.
    erewrite bind_run by (simpl; unfold lift; rewrite Hcur; reflexivity).
    erewrite bind_run; [exact Hdef|].
    unfold read_once_value.
    destruct (to_boolean current) eqn:Hb.
    - destruct Hnode as [?|(nodeType & Hnt & Hfalse)]; [done|].
      erewrite bind_run by exact Hnt. by rewrite Hfalse.
    - unfold bind at 1. simpl. by rewrite Hb. }
  split; [done|].
  intros σ2 Hp2. rewrite Hp1 in Hp2.
  pose proof (proxy_has_form_ px name Hhas) as Hname.
  unfold proxy_get, proxy_get_with, proxy_set. rewrite Hp2, Hname. simpl.
  rewrite lookup_insert_eq. split; [done|]. by eexists.
Qed.

(** X12: a READ_ONCE property masked by a control.  When [form[name]] is
    a control of the page, the legacy setup takes the control out of its
    parent, reads [form[name]] again and puts the control back before the
    sibling it had.  With a parent whose [removeChild] and [insertBefore]
    are the methods of the DOM: if that read answers, the proxy keeps the
    value read with the control away (what the control masked) and the
    nodes of the page are as they were; if that read raises, the exception
    is raised and the page is as it was all the same. *)
Theorem legacy_read_once_unmasks (σ : State) (form p : nat) (px : Proxy num)
    (name : string) (desc : LegacyDesc num) (e q : nat) (ed qd : Node) :
  proxies σ !! p = Some px ->
  proxy_has px name = false ->
  String.eqb (toUpperCase name) name = false ->
  startsWith env name "on" = false ->
  assoc name (LEGACY_PROPS (num := num)) = Some desc ->
  access desc = READ_ONCE ->
  node_get env σ form name = Ok (VNode e) ->
  nodes σ !! e = Some ed ->
  is_form ed = false ->
  parentNode ed = Some q ->
  nodes σ !! q = Some qd ->
  e ≠ q ->
  NoDup (childNodes qd) ->
  e ∈ childNodes qd ->
  (forall r, next_sibling_list e (childNodes qd) = Some r ->
             exists rd, nodes σ !! r = Some rd /\ parentNode rd = Some q) ->
  assertElement env (VNode e) = Ok (VNode e) ->
  node_get env σ q "removeChild" = Ok (VNative NRemoveChild) ->
  node_get env (detach e σ) q "insertBefore" = Ok (VNative NInsertBefore) ->
  match node_get env (detach e σ) form name with
  | Ok actual =>
      exists σ1,
        legacy_property env form p name σ = (Ok tt, σ1)
        /\ nodes σ1 = nodes σ
        /\ forall σ2,
             proxies σ2 !! p = proxies σ1 !! p ->
             proxy_get env p name σ2 = (Ok actual, σ2)
  | Throw ex => legacy_property env form p name σ = (Throw ex, σ)
  end.
Proof.
  intros Hp Hhas Hup Hon Hassoc Haccess Hcur He Hform Hpar Hq Hne Hnd Hin Hnext
    Hassert Hrm Hins.
  pose proof (read_once_value_restores σ form e q ed qd name
                He Hform Hpar Hq Hne Hnd Hin Hnext Hassert Hrm Hins) as Hread.
  rewrite (legacy_property_run σ form p px name) by done.
  rewrite Hassoc, Haccess.
  erewrite bind_run by (simpl; unfold lift; rewrite Hcur; reflexivity).
  destruct (node_get env (detach e σ) form name) as [actual|ex].
  - destruct (define_own_lookup σ p px name (ReadOnce actual) Hp)
      as (σ1 & Hdef & Hnodes & Hp1).
    exists σ1. split; [by erewrite bind_run by exact Hread|].
    split; [done|].
    intros σ2 Hp2. rewrite Hp1 in Hp2.
    pose proof (proxy_has_form_ px name Hhas) as Hname.
    unfold proxy_get, proxy_get_with. rewrite Hp2, Hname. simpl.
    by rewrite lookup_insert_eq.
  - unfold bind. by rewrite Hread.
Qed.

(** X13: a name outside [LEGACY_PROPS] is proxied directly, and so is not
    protected.  For such a name of the form that the proxy lacks, the
    legacy setup defines an accessor that reads and writes [form[name]] at
    the time of the access: a control given that name masks the property
    through the proxy too.  Reading answers the control; writing, in which
    the control takes no part, runs the setter of the engine when the name
    is a property of the engine. *)
Theorem legacy_direct_property (σ : State) (form p : nat) (px : Proxy num)
    (name : string) (current : value) :
  proxies σ !! p = Some px ->
  proxy_has px name = false ->
  String.eqb (toUpperCase name) name = false ->
  startsWith env name "on" = false ->
  assoc name (LEGACY_PROPS (num := num)) = None ->
  node_get env σ form name = Ok current ->
  exists σ1,
    legacy_property env form p name σ = (Ok tt, σ1)
    /\ nodes σ1 = nodes σ
    /\ forall σ2,
         proxies σ2 !! p = proxies σ1 !! p ->
         proxy_get env p name σ2 = (node_get env σ2 form name, σ2)
         /\ (forall v, proxy_set env p name v σ2 = node_set env form name v σ2)
         /\ forall fd e,
              nodes σ2 !! form = Some fd ->
              is_form fd = true ->
              named_controls σ2 form name = [e] ->
              proxy_get env p name σ2 = (Ok (VNode e), σ2)
              /\ (is_dom_name σ2 fd name = true ->
                  forall v,
                    proxy_set env p name v σ2 = host_setter env name (VNode form) v σ2).
Proof.
  intros Hp Hhas Hup Hon Hassoc Hcur.
  destruct (define_own_lookup σ p px name (DirectAccessor form) Hp)
    as (σ1 & Hdef & Hnodes & Hp1).
  exists σ1. split.
  { rewrite (legacy_property_run σ form p px name) by done.
    rewrite Hassoc.
    by erewrite bind_run by (simpl; unfold lift; rewrite Hcur; reflexivity). }
  split; [done|].
  intros σ2 Hp2. rewrite Hp1 in Hp2.
  pose proof (proxy_has_form_ px name Hhas) as Hname.
  assert (Hget : proxy_get env p name σ2 = (node_get env σ2 form name, σ2)).
  { unfold proxy_get, proxy_get_with. rewrite Hp2, Hname. simpl.
    by rewrite lookup_insert_eq. }
  assert (Hset : forall v, proxy_set env p name v σ2 = node_set env form name v σ2).
  { intros v. unfold proxy_set. rewrite Hp2, Hname. simpl.
    by rewrite lookup_insert_eq. }
  split; [done|]. split; [done|].
  intros fd e Hf Hform Hc. split.
  - by rewrite Hget, (node_get_control σ2 form fd name e).
  - intros Hd v. rewrite Hset. unfold node_set. by rewrite Hf, Hd.
Qed.


(** ** The legacy setup as a whole *)





(** ** The slider: construction, wiring and the handlers together *)

(** X14: the constructor does not touch the page.  It makes five nodes
    the page did not have (two 'div' containers, two 'img', one 'div'
    handle), all different, each without parent, children, attributes and
    listeners, and an object that refers to them and to the element; the
    nodes the page had, the element among them, are as they were, so
    nothing shows before [buildCallback]. *)
Theorem AmpPhotoSplitCompare_detached (σ : State) (el : nat) (ed : Node) :
  nodes σ !! el = Some ed ->
  exists (w : nat) (this : Widget num) (σ1 : State),
    AmpPhotoSplitCompare el σ = (Ok w, σ1)
    /\ widgets σ1 !! w = Some this
    /\ element this = el
    /\ NoDup (widget_nodes this)
    /\ (forall n tag,
          (n, tag) ∈ [(image1Container_ this, "div"); (image2Container_ this, "div");
                      (image1_ this, "img"); (image2_ this, "img");
                      (slider_ this, "div")] ->
          nodes σ !! n = None
          /\ nodes σ1 !! n = Some (mkNode tag ∅ "" ∅ ∅ [] None [] (num_of_Z 0)
                                          (defaultView ed)))
    /\ (forall n, is_Some (nodes σ !! n) -> nodes σ1 !! n = nodes σ !! n).
Proof.
  intros Hel.
  destruct (AmpPhotoSplitCompare_run σ el ed Hel)
    as (w & this & σ1 & Hnew & Hw & He & Hnd & Hfresh & Hel1 & Hc1 & Hc2 & Hi1 & Hi2 & Hs
        & Hframe).
  exists w, this, σ1. do 4 (split; [done|]).
  assert (Hne : forall n, n ∈ widget_nodes this -> n ≠ el -> nodes σ !! n = None)
    by done.
  pose proof Hnd as Hnd'. unfold widget_nodes in Hnd'.
  apply NoDup_cons in Hnd' as [Hnotin _]. rewrite He in Hnotin.
  repeat (apply not_elem_of_cons in Hnotin as [? Hnotin]).
  split.
  - intros n tag Hin.
    repeat (apply elem_of_cons in Hin as [[= -> ->]|Hin];
            [split; [apply Hne; [in_list | done] | done]|]).
    by apply elem_of_nil in Hin.
  - intros n Hn. destruct (decide (n ∈ widget_nodes this)) as [Hin|Hnin];
      [|by apply Hframe].
    destruct (decide (n = el)) as [->|Hnel]; [by rewrite Hel1, Hel|].
    rewrite (Hne n Hin Hnel) in Hn. by destruct Hn.
Qed.

(** The object of the widget is there after [buildCallback]. *)
Lemma buildCallback_widget (σ1 σ2 : State) (w : nat) (this : Widget num)
    (ed : Node) (doc : nat) :
  widgets σ1 !! w = Some this ->
  NoDup (widget_nodes this) ->
  nodes σ1 !! element this = Some ed ->
  nodes σ1 !! image1Container_ this = Some (new_element "div" doc) ->
  nodes σ1 !! image2Container_ this = Some (new_element "div" doc) ->
  nodes σ1 !! image1_ this = Some (new_element "img" doc) ->
  nodes σ1 !! image2_ this = Some (new_element "img" doc) ->
  nodes σ1 !! slider_ this = Some (new_element "div" doc) ->
  buildCallback env w σ1 = (Ok tt, σ2) ->
  widgets σ2 !! w = Some this.
Proof.
  intros Hw Hnd Hel1 Hc1 Hc2 Hi1 Hi2 Hs Hrun.
  unfold buildCallback in Hrun. apply bind_Ok in Hrun as ([] & σa & Hbuild & Hlisten).
  destruct (buildPhotoCompareSlider_completes w this (attributes ed)
              (style_ ed !! "height") (style_ ed !! "width")) with (σ := σ1)
    as ([] & σa' & Hbuild' & Hw' & Hn' & _).
  - unfold widget_nodes in Hnd. apply NoDup_cons in Hnd as [Hnotin _].
    apply not_elem_of_cons in Hnotin as [? _]. congruence.
  - split; [done|]. split; [|by exists ed].
    intros n Hn. unfold widget_nodes in Hn.
    repeat (apply elem_of_cons in Hn as [->|Hn]; [by eexists|]).
    by apply elem_of_nil in Hn.
  - rewrite Hbuild in Hbuild'. injection Hbuild' as <-.
    destruct (Hn' (slider_ this)) as [sd Hsd]; [in_list|].
    rewrite (createListeners_run σa w this sd Hw' Hsd) in Hlisten.
    by injection Hlisten as <-.
Qed.

(** X15: the wiring works end to end.  On any page, once the widget of an
    element is constructed and built, the browser dispatching a
    'touchmove' event with a first touch at [x] to the handle runs one
    listener, which completes; it assigns to the width of the first
    container [x] minus the offsetLeft of the container, in pixels, while
    that is below the 'width' attribute of the element, and the attribute
    from there on, and to the 'left' of the handle the width the style of
    the container then holds: the assigned one when the engine takes it for
    a width, and otherwise the '49%' of the build.  A 'touchend' event runs
    one listener that changes nothing, and an event of a type without
    listener, such as 'click', runs none. *)
Theorem slider_follows_touch (σ : State) (el : nat) (ed : Node) (x : num)
    (ts : list (Touch num)) :
  nodes σ !! el = Some ed ->
  exists (w : nat) (this : Widget num) (σ1 σ2 σ3 : State) (cd : Node),
    let width := tracked_width env x (offsetLeft cd) (attr_value (attributes ed !! "width")) in
    AmpPhotoSplitCompare el σ = (Ok w, σ1)
    /\ widgets σ1 !! w = Some this
    /\ buildCallback env w σ1 = (Ok tt, σ2)
    /\ nodes σ2 !! image1Container_ this = Some cd
    /\ declared cd = declare env "width" "49%" ∅
    /\ dispatchEvent env (slider_ this) (mkEvent "touchmove" (Some (mkTouch x :: ts))) σ2
       = ([Ok tt], σ3)
    /\ (nodes σ3 !! image1Container_ this ≫= fun nd => style_ nd !! "width") = Some width
    /\ (nodes σ3 !! slider_ this ≫= fun nd => style_ nd !! "left")
       = Some (kept_width env width cd)
    /\ (forall s, css_value env "width" width = Some s -> kept_width env width cd = s)
    /\ (css_value env "width" width = None ->
        kept_width env width cd = default "" (css_value env "width" "49%"))
    /\ (forall touches_,
          dispatchEvent env (slider_ this) (mkEvent "touchend" touches_) σ2 = ([Ok tt], σ2))
    /\ (forall touches_,
          dispatchEvent env (slider_ this) (mkEvent "click" touches_) σ2 = ([], σ2)).
Proof.
  intros Hel.
  destruct (AmpPhotoSplitCompare_run σ el ed Hel)
    as (w & this & σ1 & Hnew & Hw & He & Hnd & Hfresh & Hel1 & Hc1 & Hc2 & Hi1 & Hi2 & Hs & _).
  subst el.
  destruct (buildCallback_on_new_nodes σ1 w this ed (defaultView ed)
              Hw Hnd Hel1 Hc1 Hc2 Hi1 Hi2 Hs)
    as (σ2 & Hrun & Hel2 & Hc1' & _ & Hs' & _).
  assert (Hw2 : widgets σ2 !! w = Some this)
    by (by apply (buildCallback_widget σ1 σ2 w this ed (defaultView ed))).
  set (e := mkEvent "touchmove" (Some (mkTouch x :: ts))).
  pose proof (whileSliderMoving_run σ2 w this e (mkTouch x) ts _ _ _
                Hw2 eq_refl Hc1' Hel2 Hs') as Hmove.
  cbn [pageX offsetLeft attributes set_declared set_childNodes assign_style set_style
         mkNode] in Hmove.
  assert (Hne : image1Container_ this ≠ slider_ this).
  { unfold widget_nodes in Hnd. apply NoDup_cons in Hnd as [_ Hnd].
    apply NoDup_cons in Hnd as [Hnotin _].
    repeat (apply not_elem_of_cons in Hnotin as [? Hnotin]). done. }
  exists w, this, σ1, σ2. eexists _, _.
  cbn zeta.
  do 3 (split; [done|]).
  split; [exact Hc1'|].
  split; [done|].
  cbn [offsetLeft set_declared mkNode].
  split.
  { unfold dispatchEvent, handlers_for. rewrite Hs'. simpl.
    fold e. by rewrite Hmove. }
  split.
  { rewrite nodes_update_node_ne, nodes_update_node_eq, Hc1' by done.
    cbn. by rewrite lookup_insert_eq. }
  split.
  { rewrite nodes_update_node_eq, !nodes_update_node_ne, Hs' by done.
    cbn. by rewrite lookup_insert_eq. }
  split.
  { intros s Hs''. unfold kept_width.
    by rewrite declare_lookup_eq, Hs'' by apply tracked_width_nonempty. }
  split.
  { intros Hn. unfold kept_width.
    rewrite declare_lookup_eq, Hn by apply tracked_width_nonempty.
    cbn [declared set_declared mkNode].
    rewrite declare_lookup_eq by done.
    destruct (css_value env "width" "49%"); [done|]. by rewrite lookup_empty. }
  split.
  - intros touches_. unfold dispatchEvent, handlers_for. rewrite Hs'. simpl. reflexivity.
  - intros touches_. unfold dispatchEvent, handlers_for. rewrite Hs'. simpl. reflexivity.
Qed.

(** [whileSliderMoving] in a state with other widget objects. *)
Lemma whileSliderMoving_set_widgets (σ : State) (W : gmap nat (Widget num)) (w : nat)
    (this this' : Widget num) (e : Event num) :
  widgets σ !! w = Some this ->
  W !! w = Some this' ->
  element this' = element this ->
  image1Container_ this' = image1Container_ this ->
  slider_ this' = slider_ this ->
  whileSliderMoving env w e (set_widgets W σ)
  = ((whileSliderMoving env w e σ).1, set_widgets W (whileSliderMoving env w e σ).2).
Proof.
  intros Hw HW He Hc Hs.
  unfold whileSliderMoving, bind, the_widget, the_node, element_getAttribute,
    set_style_property, get_style_property, ret, bind, the_node, first_touch_pageX,
    modify_node.
  unfold ret, throw. simpl. rewrite Hw, HW, He, Hc, Hs.
  destruct (touches e) as [[|t ts]|]; simpl; try done.
  destruct (nodes σ !! image1Container_ this) as [cd|] eqn:Hcd; simpl; [|done].
  destruct (nodes σ !! element this) as [ed|] eqn:Hed; simpl; [|done].
  rewrite Hcd. simpl.
  rewrite !lookup_alter_eq, Hcd. simpl.
  rewrite !lookup_alter.
  destruct (decide (image1Container_ this = slider_ this)) as [Heq|Hne].
  - by rewrite Hcd.
  - by destruct (nodes σ !! slider_ this).
Qed.

(** X16: the start of a drag is recorded and never read.
    [sliderBeginsMoving] changes no node, only the fields [startX] and
    [startWidth] of the object, and [whileSliderMoving] answers and moves
    the nodes after it exactly as it does without it: the drag is computed
    from the event, the attribute and the layout alone. *)
Theorem drag_ignores_recorded_start (σ : State) (w : nat) (this : Widget num)
    (e0 : Event num) (t0 : Touch num) (ts0 : list (Touch num)) :
  widgets σ !! w = Some this ->
  touches e0 = Some (t0 :: ts0) ->
  exists σ1,
    sliderBeginsMoving env w e0 σ = (Ok tt, σ1)
    /\ nodes σ1 = nodes σ
    /\ (startX <$> widgets σ1 !! w) = Some (Some (pageX t0))
    /\ forall e,
         (whileSliderMoving env w e σ1).1 = (whileSliderMoving env w e σ).1
         /\ nodes (whileSliderMoving env w e σ1).2
            = nodes (whileSliderMoving env w e σ).2.
Proof.
  intros Hw He0. eexists.
  split; [by apply (sliderBeginsMoving_runs σ w this e0 t0 ts0)|].
  split; [done|].
  split; [simpl; by rewrite lookup_insert_eq|].
  intros e.
  match goal with
  | |- context [set_widgets ?W σ] =>
      rewrite (whileSliderMoving_set_widgets σ W w this
                 (set_start (Some (pageX t0))
                    (Some (parseInt10
                             (computedWidth env
                                (set_widgets
                                   (<[w := set_start (Some (pageX t0)) (startWidth this) this]>
                                      (widgets σ)) σ) (element this)))) this) e)
        by (done || by rewrite lookup_insert_eq)
  end.
  done.
Qed.

(** X17: [whileSliderMoving] needs a first touch.  When the nodes of the
    widget are there it completes exactly when the event has one; on an
    event without a touch list, or with an empty one, it raises TypeError
    before it has changed anything. *)
Theorem whileSliderMoving_needs_touches (σ : State) (w : nat) (this : Widget num)
    (e : Event num) (cd ed sd : Node) :
  widgets σ !! w = Some this ->
  nodes σ !! image1Container_ this = Some cd ->
  nodes σ !! element this = Some ed ->
  nodes σ !! slider_ this = Some sd ->
  (is_ok (whileSliderMoving env w e σ).1 = true
   <-> exists t ts, touches e = Some (t :: ts))
  /\ (touches e = None \/ touches e = Some [] ->
      exists msg, whileSliderMoving env w e σ = (Throw (TypeError msg), σ)).
Proof.
  intros Hw Hc Hel Hs. split.
  - split.
    + intros Hok. destruct (touches e) as [[|t ts]|] eqn:He; [| by eauto |].
      * destruct (whileSliderMoving_throws σ w this e Hw) as [msg Hmsg]; [by right|].
        by rewrite Hmsg in Hok.
      * destruct (whileSliderMoving_throws σ w this e Hw) as [msg Hmsg]; [by left|].
        by rewrite Hmsg in Hok.
    + intros (t & ts & He).
      by rewrite (whileSliderMoving_run σ w this e t ts cd ed sd).
  - by apply (whileSliderMoving_throws σ w this e).
Qed.



(** X19: listeners pile up.  Every call of [createListeners] binds its
    handlers anew, so a second call adds the four listeners once more, and
    a 'touchmove' dispatched to the handle then runs [whileSliderMoving]
    twice. *)
Theorem createListeners_twice (σ : State) (w : nat) (this : Widget num) (sd : Node) :
  widgets σ !! w = Some this ->
  nodes σ !! slider_ this = Some sd ->
  exists σ2,
    (createListeners w ;; createListeners w) σ = (Ok tt, σ2)
    /\ (listeners <$> nodes σ2 !! slider_ this)
       = Some (listeners sd ++ slider_listeners w ++ slider_listeners w)
    /\ (forall n, n ≠ slider_ this -> nodes σ2 !! n = nodes σ !! n)
    /\ (listeners sd = [] ->
        handlers_for σ2 (slider_ this) "touchmove"
        = [WhileSliderMoving w; WhileSliderMoving w]).
Proof.
  intros Hw Hs. eexists. split.
  { erewrite bind_run by (by apply (createListeners_run σ w this sd)).
    apply createListeners_run; [done|]. simpl. by rewrite lookup_insert_eq. }
  simpl. rewrite lookup_insert_eq. simpl.
  split; [by rewrite <- app_assoc|].
  split.
  - intros n Hn. by rewrite !lookup_insert_ne.
  - intros Hl. unfold handlers_for. simpl. rewrite lookup_insert_eq. simpl.
    by rewrite Hl.
Qed.

(** ** Building twice *)

(** Appending a node that has a parent: it leaves that parent first. *)
Lemma element_appendChild_attached (parent child q : nat) (cd : Node) (σ : State) :
  is_Some (nodes σ !! parent) ->
  nodes σ !! child = Some cd ->
  parentNode cd = Some q ->
  element_appendChild env parent child σ
  = (Ok tt,
     update_node child (set_parentNode (Some parent))
       (update_node parent (fun pd => set_childNodes (childNodes pd ++ [child]) pd)
          (update_node child (set_parentNode None)
             (update_node q
                (fun pd => set_childNodes (remove_child_list child (childNodes pd)) pd) σ)))).
Proof.
  intros Hp Hc Hq.
  unfold element_appendChild, bind, native_call, appendChild, insertBefore, arg, ret.
  simpl. rewrite decide_True by done.
  unfold detach. by rewrite Hc, Hq.
Qed.

Lemma remove_child_list_app (c : nat) (l r : list nat) :
  c ∉ l -> remove_child_list c (l ++ r) = l ++ remove_child_list c r.
Proof.
  induction l as [|x l IH]; simpl; [done|].
  intros [Hx Hl]%not_elem_of_cons.
  rewrite decide_False by done. by rewrite IH.
Qed.

Lemma state_eq_nodes (σ σ' : State) :
  blacklistedProperties σ' = blacklistedProperties σ ->
  windows σ' = windows σ ->
  proxies σ' = proxies σ ->
  widgets σ' = widgets σ ->
  (forall i, nodes σ' !! i = nodes σ !! i) ->
  σ' = σ.
Proof.
  destruct σ, σ'. simpl. intros -> -> -> -> H. f_equal. by apply map_eq.
Qed.

Lemma buildPhotoCompareSlider_on_built_nodes (σ : State) (w : nat) (this : Widget num)
    (ed : Node) (doc : nat) (L : list (string * Handler)) :
  widgets σ !! w = Some this ->
  NoDup (widget_nodes this) ->
  image1Container_ this ∉ childNodes ed ->
  image2Container_ this ∉ childNodes ed ->
  slider_ this ∉ childNodes ed ->
  let height := attr_value (attributes ed !! "height") in
  let width := attr_value (attributes ed !! "width") in
  let image (c : nat) (class_ src : string) : Node :=
    mkNode "img" ∅ class_ ∅
           (<["width" := width]>
              (<["height" := height]>
                 (<["src" := attr_value (attributes ed !! src)]> ∅)))
           [] (Some c) [] (num_of_Z 0) doc in
  nodes σ !! element this
  = Some (set_childNodes
            (childNodes ed ++ [image1Container_ this; image2Container_ this; slider_ this])
            (assign_style env "width" (to_string env width +:+ "px")
               (assign_style env "height" (to_string env height +:+ "px") ed))) ->
  nodes σ !! image1Container_ this
  = Some (set_declared (declare env "width" "49%" ∅)
            (mkNode "div" ∅ "image1Container" {["width" := "49%"]} ∅ [image1_ this]
                    (Some (element this)) [] (num_of_Z 0) doc)) ->
  nodes σ !! image2Container_ this
  = Some (mkNode "div" ∅ "image2Container" ∅ ∅ [image2_ this]
                 (Some (element this)) [] (num_of_Z 0) doc) ->
  nodes σ !! slider_ this
  = Some (mkNode "div" ∅ "slider" ∅ ∅ [] (Some (element this)) L (num_of_Z 0) doc) ->
  nodes σ !! image1_ this = Some (image (image1Container_ this) "image1" "image-1-src") ->
  nodes σ !! image2_ this = Some (image (image2Container_ this) "image2" "image-2-src") ->
  buildPhotoCompareSlider env w σ = (Ok tt, σ).
Proof.
  intros Hw Hnd Ho1 Ho2 Ho3 height width image Hel Hc1 Hc2 Hs Hi1 Hi2.
  unfold widget_nodes in *.
  repeat (apply NoDup_cons in Hnd as [? Hnd]).
  repeat match goal with H : _ ∉ _ :: _ |- _ => apply not_elem_of_cons in H as [? H] end.
  unfold buildPhotoCompareSlider.
  unfold bind at 1. unfold the_widget at 1. rewrite Hw.
  unfold set_style_property, set_class, set_property.
  repeat first
    [ progress (unfold bind at 1)
    | erewrite element_getAttribute_Some by node_lookup
    | rewrite modify_node_is_Some by (node_lookup; done)
    | erewrite element_appendChild_attached by (node_lookup; done) ].
  f_equal. apply state_eq_nodes; try done.
  intros i.
  destruct (decide (i = element this)) as [->|];
    [|destruct (decide (i = image1Container_ this)) as [->|];
      [|destruct (decide (i = image2Container_ this)) as [->|];
        [|destruct (decide (i = image1_ this)) as [->|];
          [|destruct (decide (i = image2_ this)) as [->|];
            [|destruct (decide (i = slider_ this)) as [->|]]]]]].
  all: node_updates.
  all: try done.
  all: f_equal; apply Node_eq.
  all: subst image; node_fields.
  all: try reflexivity.
  - apply map_eq. intros k. rewrite !lookup_insert.
    by repeat case_decide.
  - rewrite (remove_child_list_app _ (childNodes ed)) by done.
    cbn [remove_child_list]. rewrite decide_True by done.
    rewrite <- app_assoc.
    rewrite (remove_child_list_app _ (childNodes ed)) by done.
    cbn [remove_child_list app]. rewrite decide_True by done.
    rewrite <- app_assoc.
    rewrite (remove_child_list_app _ (childNodes ed)) by done.
    cbn [remove_child_list app]. rewrite decide_True by done.
    by rewrite <- app_assoc.
  - by rewrite (declare_again "height" "width"), declare_twice.
  - cbn [remove_child_list]. by rewrite decide_True.
  - apply declare_twice.
  - cbn [remove_child_list]. by rewrite decide_True.
Qed.

(** X20: building again does not duplicate the subtree.  On a widget
    fresh from its constructor and built by [buildCallback], on a page
    where the children of the element are nodes of the page, a second
    [buildPhotoCompareSlider] completes and leaves the state exactly as it
    was: every [appendChild] moves a node that is already the last child
    to the place it leaves, and the styles, classes and properties are set
    to the values they have. *)
Theorem buildPhotoCompareSlider_idempotent (σ : State) (el : nat) (ed : Node) :
  nodes σ !! el = Some ed ->
  (forall n, n ∈ childNodes ed -> is_Some (nodes σ !! n)) ->
  exists (w : nat) (this : Widget num) (σ1 σ2 : State),
    AmpPhotoSplitCompare el σ = (Ok w, σ1)
    /\ widgets σ1 !! w = Some this
    /\ buildCallback env w σ1 = (Ok tt, σ2)
    /\ (childNodes <$> nodes σ2 !! el)
       = Some (childNodes ed ++ [image1Container_ this; image2Container_ this; slider_ this])
    /\ buildPhotoCompareSlider env w σ2 = (Ok tt, σ2).
Proof.
  intros Hel Hkids.
  destruct (AmpPhotoSplitCompare_run σ el ed Hel)
    as (w & this & σ1 & Hnew & Hw & He & Hnd & Hfresh & Hel1 & Hc1 & Hc2 & Hi1 & Hi2 & Hs & _).
  subst el.
  destruct (buildCallback_on_new_nodes σ1 w this ed (defaultView ed)
              Hw Hnd Hel1 Hc1 Hc2 Hi1 Hi2 Hs)
    as (σ2 & Hrun & Hel2 & Hc1' & Hc2' & Hs' & Hi1' & Hi2' & _).
  assert (Hw2 : widgets σ2 !! w = Some this)
    by (by apply (buildCallback_widget σ1 σ2 w this ed (defaultView ed))).
  assert (Hold : forall n, n ∈ widget_nodes this -> n ≠ element this -> n ∉ childNodes ed).
  { intros n Hin Hne Hkid. destruct (Hkids n Hkid) as [nd Hn].
    by rewrite (Hfresh n Hin Hne) in Hn. }
  assert (Hdiff : element this ≠ image1Container_ this
                  /\ element this ≠ image2Container_ this
                  /\ element this ≠ slider_ this).
  { pose proof Hnd as Hnd'. unfold widget_nodes in Hnd'.
    apply NoDup_cons in Hnd' as [Hnotin _].
    repeat (apply not_elem_of_cons in Hnotin as [? Hnotin]). done. }
  destruct Hdiff as (? & ? & ?).
  exists w, this, σ1, σ2.
  do 3 (split; [done|]).
  split; [by rewrite Hel2|].
  apply (buildPhotoCompareSlider_on_built_nodes σ2 w this ed (defaultView ed)
           (slider_listeners w)); try done.
  all: apply Hold; [in_list | congruence].
Qed.

End Properties.

(** * The code on concrete pages *)

Lemma createListeners_only_on_slider_witness :
  let σ := constructed_slider_page slider_attributes in
  widgets σ !! 0 = Some slider_widget
  /\ nodes σ !! 6 = Some (node_of σ 6)
  /\ exists σ',
       createListeners 0 σ = (Ok tt, σ')
       /\ nodes σ' !! 6
          = Some (set_listeners
                    (listeners (node_of σ 6) ++ [("mousedown", SliderBeginsMoving 0);
                                                 ("touchstart", SliderBeginsMoving 0);
                                                 ("touchmove", WhileSliderMoving 0);
                                                 ("touchend", WhenSliderStops 0)])
                    (node_of σ 6)).
Proof.
  intros σ.
  assert (H1 : widgets σ !! 0 = Some slider_widget) by (vm_compute; reflexivity).
  assert (H2 : nodes σ !! 6 = Some (node_of σ 6)) by (vm_compute; reflexivity).
  split; [exact H1|]. split; [exact H2|].
  destruct (createListeners_only_on_slider browser σ 0 slider_widget (node_of σ 6) H1 H2)
    as (σ' & Hrun & Hnode & _).
  exists σ'. split; [exact Hrun | exact Hnode].
Defined.

Lemma sliderBeginsMoving_needs_touches_witness :
  let σ := built_slider_page in
  let e := mkEvent "mousedown" None in
  widgets σ !! 0 = Some slider_widget
  /\ exists msg, sliderBeginsMoving browser 0 e σ = (Throw (TypeError msg), σ).
Proof.
  intros σ e.
  assert (H1 : widgets σ !! 0 = Some slider_widget) by (vm_compute; reflexivity).
  split; [exact H1|].
  destruct (sliderBeginsMoving_needs_touches browser σ 0 slider_widget e H1)
    as (_ & Hthrow & _).
  apply Hthrow. left. reflexivity.
Defined.

Lemma whileSliderMoving_tracks_pointer_witness :
  let σ := built_slider_page in
  let e := mkEvent "touchmove" (Some [mkTouch (Some 120%Z)]) in
  widgets σ !! 0 = Some slider_widget
  /\ touches e = Some [mkTouch (Some 120%Z)]
  /\ nodes σ !! 2 = Some (node_of σ 2)
  /\ nodes σ !! 1 = Some (node_of σ 1)
  /\ nodes σ !! 6 = Some (node_of σ 6)
  /\ exists σ',
       whileSliderMoving browser 0 e σ = (Ok tt, σ')
       /\ (nodes σ' !! 2 ≫= fun nd => style_ nd !! "width") = Some "120px"
       /\ (nodes σ' !! 6 ≫= fun nd => style_ nd !! "left") = Some "120px".
Proof.
  intros σ e.
  assert (H1 : widgets σ !! 0 = Some slider_widget) by (vm_compute; reflexivity).
  assert (H2 : touches e = Some [mkTouch (Some 120%Z)]) by reflexivity.
  assert (H3 : nodes σ !! 2 = Some (node_of σ 2)) by (vm_compute; reflexivity).
  assert (H4 : nodes σ !! 1 = Some (node_of σ 1)) by (vm_compute; reflexivity).
  assert (H5 : nodes σ !! 6 = Some (node_of σ 6)) by (vm_compute; reflexivity).
  do 5 (split; [assumption|]).
  destruct (whileSliderMoving_tracks_pointer browser σ 0 slider_widget e
              (mkTouch (Some 120%Z)) [] (node_of σ 2) (node_of σ 1) (node_of σ 6)
              H1 H2 H3 H4 H5) as (σ' & Hrun & Hwidth & _ & Hleft & _).
  exists σ'. split; [exact Hrun|]. split; [exact Hwidth|].
  refine (eq_trans Hleft _). vm_compute. reflexivity.
Defined.

(** C3 as stated fails.  A touch left of the first container gives a
    negative distance, and an element without 'width' attribute gives
    'nullpx': neither is a width, so the style of the container keeps the
    '49%' of the build, and the 'left' of the slider gets '49%', not the
    string computed from the pointer and the attribute. *)
Lemma whileSliderMoving_keeps_width :
  let e := mkEvent "touchmove" (Some [mkTouch (Some 150%Z)]) in
  (let σ := offset_slider_page in
   tracked_width browser (Some 150%Z) (offsetLeft (node_of σ 2))
     (attr_value (attributes (node_of σ 1) !! "width")) = "-50px"
   /\ exists σ',
        whileSliderMoving browser 0 e σ = (Ok tt, σ')
        /\ (get_style_property 2 "width" σ').1 = Ok "49%"
        /\ (nodes σ' !! 6 ≫= fun nd => style_ nd !! "left") = Some "49%")
  /\ (let σ := unsized_slider_page in
      tracked_width browser (Some 150%Z) (offsetLeft (node_of σ 2))
        (attr_value (attributes (node_of σ 1) !! "width")) = "nullpx"
      /\ exists σ',
           whileSliderMoving browser 0 e σ = (Ok tt, σ')
           /\ (get_style_property 2 "width" σ').1 = Ok "49%"
           /\ (nodes σ' !! 6 ≫= fun nd => style_ nd !! "left") = Some "49%").
Proof.
  intros e. split.
  - intros σ. split; [by vm_compute|].
    eexists. split; [vm_compute; reflexivity|]. split; by vm_compute.
  - intros σ. split; [by vm_compute|].
    eexists. split; [vm_compute; reflexivity|]. split; by vm_compute.
Qed.

Lemma buildCallback_creates_subtree_witness :
  let σ := slider_page slider_attributes in
  nodes σ !! 1 = Some (node_of σ 1)
  /\ exists (w : nat) (this : Widget (option Z)) (σ1 σ2 : State (option Z)),
       AmpPhotoSplitCompare 1 σ = (Ok w, σ1)
       /\ widgets σ1 !! w = Some this
       /\ buildCallback browser w σ1 = (Ok tt, σ2)
       /\ (childNodes <$> nodes σ2 !! 1)
          = Some (childNodes (node_of σ 1)
                    ++ [image1Container_ this; image2Container_ this; slider_ this]).
Proof.
  intros σ.
  assert (H1 : nodes σ !! 1 = Some (node_of σ 1)) by (vm_compute; reflexivity).
  split; [exact H1|].
  destruct (buildCallback_creates_subtree browser σ 1 (node_of σ 1) H1)
    as (w & this & σ1 & σ2 & c1 & c2 & s & i1 & i2 & Hnew & Hw & Hrun & Hkids & _).
  exists w, this, σ1, σ2. repeat split; assumption.
Defined.

Lemma buildPhotoCompareSlider_missing_size_witness :
  let σ := constructed_slider_page {[ "width" := "400" ]} in
  widgets σ !! 0 = Some slider_widget
  /\ (forall n, n ∈ widget_nodes slider_widget -> is_Some (nodes σ !! n))
  /\ nodes σ !! 1 = Some (node_of σ 1)
  /\ image1Container_ slider_widget ≠ element slider_widget
  /\ exists σ' ed',
       buildPhotoCompareSlider browser 0 σ = (Ok tt, σ')
       /\ nodes σ' !! 1 = Some ed'
       /\ style_ ed' !! "height" = Some "nullpx".
Proof.
  intros σ.
  assert (H1 : widgets σ !! 0 = Some slider_widget) by (vm_compute; reflexivity).
  assert (H2 : forall n, n ∈ widget_nodes slider_widget -> is_Some (nodes σ !! n)).
  { intros n Hn. unfold widget_nodes in Hn. simpl in Hn.
    repeat (apply elem_of_cons in Hn as [->|Hn]; [vm_compute; eexists; reflexivity|]).
    by apply elem_of_nil in Hn. }
  assert (H3 : nodes σ !! 1 = Some (node_of σ 1)) by (vm_compute; reflexivity).
  assert (H4 : image1Container_ slider_widget ≠ element slider_widget)
    by (simpl; lia).
  do 4 (split; [assumption|]).
  destruct (buildPhotoCompareSlider_missing_size browser σ 0 slider_widget (node_of σ 1)
              H1 H2 H3 H4)
    as (σ' & ed' & Hrun & Hed & _ & _ & Hheight & _).
  exists σ', ed'. split; [exact Hrun|]. split; [exact Hed|].
  apply Hheight. vm_compute. reflexivity.
Defined.

Lemma FormProxy_prototype_forwards_witness :
  createFormProxyConstr browser None modern_window !! "submit"
  = Some (PMethod (VNative (NHost "submit")))
  /\ "submit" ≠ "form_"
  /\ exists prototype property,
       Some prototype ∈ inheritance modern_window
       /\ getOwnPropertyDescriptor prototype "submit" = Some property.
Proof.
  assert (H1 : createFormProxyConstr browser None modern_window !! "submit"
               = Some (PMethod (VNative (NHost "submit"))))
    by (vm_compute; reflexivity).
  assert (H2 : "submit" ≠ "form_") by discriminate.
  split; [exact H1|]. split; [exact H2|].
  destruct (FormProxy_prototype_forwards browser None modern_window "submit" _ H1 H2)
    as (prototype & property & Hin & Hown & _).
  exists prototype, property. split; [exact Hin | exact Hown].
Defined.



Lemma toggle_round_trip_witness :
  let σ := legacy_page_with_proxy in
  let desc := mkLegacyDesc ATTR None (Some TOGGLE) (Some (VBool false)) in
  assoc "hidden" LEGACY_PROPS = Some desc
  /\ type desc = Some TOGGLE
  /\ proxies σ !! 0 = Some (proxy_of σ 0)
  /\ form_ (proxy_of σ 0) = VNode 1
  /\ is_Some (nodes σ !! 1)
  /\ own (proxy_of σ 0) !! "hidden" = Some (AttrAccessor "hidden" desc)
  /\ has_attribute_methods (proxy_of σ 0)
  /\ exists σ',
       proxy_set browser 0 "hidden" (VStr "yes") σ = (Ok tt, σ')
       /\ proxy_get browser 0 "hidden" σ' = (Ok (VBool true), σ').
Proof.
  intros σ desc.
  assert (H1 : assoc "hidden" LEGACY_PROPS = Some desc) by reflexivity.
  assert (H2 : type desc = Some TOGGLE) by reflexivity.
  assert (H3 : proxies σ !! 0 = Some (proxy_of σ 0)) by (vm_compute; reflexivity).
  assert (H4 : form_ (proxy_of σ 0) = VNode 1) by (vm_compute; reflexivity).
  assert (H5 : is_Some (nodes σ !! 1)) by (vm_compute; eexists; reflexivity).
  assert (H6 : own (proxy_of σ 0) !! "hidden" = Some (AttrAccessor "hidden" desc))
    by (vm_compute; reflexivity).
  assert (H7 : has_attribute_methods (proxy_of σ 0))
    by (repeat split; vm_compute; reflexivity).
  do 7 (split; [assumption|]).
  destruct (toggle_round_trip browser σ 0 (proxy_of σ 0) 1 "hidden" desc (VStr "yes")
              H1 H2 H3 H4 H5 H6 H7) as (_ & _ & σ' & Hset & _ & Hget).
  exists σ'. split; [exact Hset | exact Hget].
Defined.



(** C8 on a form whose controls are named 'style' and 'insertBefore', on
    an engine that takes the legacy path: [form.style] is the first
    control, which [setupLegacyProxy] removes; [form.insertBefore] is the
    second control and not the method, so the call in the [finally] block
    raises TypeError, [installFormProxy] raises it, and the first control
    stays out of the form. *)
Theorem setupLegacyProxy_masked_insertBefore :
  let σ := two_inputs_page None legacy_window "style" "insertBefore" in
  (childNodes <$> nodes σ !! 1) = Some [2; 3]
  /\ node_get browser σ 1 "style" = Ok (VNode 2)
  /\ node_get browser σ 1 "insertBefore" = Ok (VNode 3)
  /\ exists σ',
       installFormProxy browser 1 σ = (Throw (TypeError "not a function"), σ')
       /\ (childNodes <$> nodes σ' !! 1) = Some [3]
       /\ (parentNode <$> nodes σ' !! 2) = Some None.
Proof.
  intros σ. split; [by vm_compute|]. split; [by vm_compute|]. split; [by vm_compute|].
  eexists. split; [vm_compute; reflexivity|]. split; by vm_compute.
Qed.

(** On a form whose controls are named 'style' and 'other' the parent's
    methods are not masked: the control masking 'style' is removed,
    [form.style] is read, the control is put back, and the page is as it
    was. *)
Example read_once_value_restores_page :
  let σ := two_inputs_page None legacy_window "style" "other" in
  node_get browser σ 1 "style" = Ok (VNode 2)
  /\ read_once_value browser 1 "style" (VNode 2) σ = (Ok (VHostObj "style"), σ).
Proof.
  intros σ. split; [by vm_compute|].
  rewrite (read_once_value_restores browser σ 1 2 1 (input_node "style" 1)
             (form_node [2; 3]) "style").
  - by vm_compute.
  - by vm_compute.
  - done.
  - done.
  - by vm_compute.
  - lia.
  - exact (bool_decide_unpack (NoDup [2; 3]) I).
  - by left.
  - intros r [= <-]. eexists. split; by vm_compute.
  - done.
  - by vm_compute.
  - by vm_compute.
Qed.

(** The same page through [installFormProxy]: the form keeps its two
    controls and the proxy answers 'style' with the style of the form. *)
Example installFormProxy_legacy_page :
  let σ := two_inputs_page None legacy_window "style" "other" in
  exists σ',
    installFormProxy browser 1 σ = (Ok (VProxy 0), σ')
    /\ (childNodes <$> nodes σ' !! 1) = Some [2; 3]
    /\ proxy_get browser 0 "style" σ' = (Ok (VHostObj "style"), σ')
    /\ node_get browser σ' 1 "style" = Ok (VNode 2).
Proof.
  intros σ. eexists. split; [vm_compute; reflexivity|].
  split; [by vm_compute|]. split; by vm_compute.
Qed.

(** A form with a control named 'ownerDocument': [form.ownerDocument] is
    the control, which has no [defaultView], and [installFormProxy] raises
    TypeError before it has made a constructor or a proxy. *)
Example installFormProxy_masked_ownerDocument :
  let σ := two_inputs_page None modern_window "ownerDocument" "other" in
  node_get browser σ 1 "ownerDocument" = Ok (VNode 2)
  /\ node_get browser σ 2 "defaultView" = Ok VUndefined
  /\ exists msg, installFormProxy browser 1 σ = (Throw (TypeError msg), σ).
Proof.
  intros σ. split; [by vm_compute|]. split; [by vm_compute|].
  eexists. vm_compute. reflexivity.
Qed.

(** ** The further properties on concrete pages *)

Lemma createFormProxyConstr_binds_witness :
  "submit" ≠ "constructor"
  /\ is_Some (createFormProxyConstr browser None modern_window !! "submit").
Proof.
  assert (H1 : "submit" ≠ "constructor") by discriminate.
  split; [exact H1|].
  apply (createFormProxyConstr_binds browser None modern_window "submit" H1).
  split; [reflexivity|]. split; [reflexivity|]. split; [reflexivity|].
  exists (default [] (HTMLFormElement modern_window)).
  split; [by left|].
  split.
  - apply (bool_decide_unpack
             ("submit" ∈ for_in (Some (default [] (HTMLFormElement modern_window)))));
      vm_compute; exact I.
  - vm_compute. eexists. reflexivity.
Defined.

Lemma createFormProxyConstr_first_wins_witness :
  let before := [HTMLFormElement modern_window; HTMLElement modern_window] in
  let prototype := default [] (Element modern_window) in
  let after := [Node_ modern_window; EventTarget modern_window] in
  inheritance modern_window = before ++ Some prototype :: after
  /\ (forall q, Some q ∈ before -> "id" ∈ for_in (Some q) ->
                getOwnPropertyDescriptor q "id" = None)
  /\ "id" ∈ for_in (Some prototype)
  /\ getOwnPropertyDescriptor prototype "id" = Some (accessor "id")
  /\ createFormProxyConstr browser None modern_window !! "id"
     = Some (PAccessor (Some "id") (Some "id")).
Proof.
  intros before prototype after.
  assert (H1 : inheritance modern_window = before ++ Some prototype :: after)
    by reflexivity.
  assert (H2 : forall q, Some q ∈ before -> "id" ∈ for_in (Some q) ->
                         getOwnPropertyDescriptor q "id" = None).
  { intros q Hq _.
    apply elem_of_cons in Hq as [Hq|Hq]; [injection Hq as ->; vm_compute; reflexivity|].
    apply elem_of_cons in Hq as [Hq|Hq]; [injection Hq as ->; vm_compute; reflexivity|].
    by apply elem_of_nil in Hq. }
  assert (H3 : "id" ∈ for_in (Some prototype))
    by (apply (bool_decide_unpack ("id" ∈ for_in (Some prototype))); vm_compute; exact I).
  assert (H4 : getOwnPropertyDescriptor prototype "id" = Some (accessor "id"))
    by (vm_compute; reflexivity).
  do 4 (split; [assumption|]).
  assert (H5 : "id" ≠ "constructor") by discriminate.
  exact (createFormProxyConstr_first_wins browser None modern_window before after
           prototype "id" (accessor "id") H1 H2 H3 H4 eq_refl eq_refl eq_refl H5).
Defined.

Lemma data_property_reads_undefined_witness :
  let px := mkProxy (VNode 1) (createFormProxyConstr browser None patched_window) ∅ in
  let σ := mkState None {[ 0 := patched_window ]} {[ 1 := form_node [] ]} {[ 0 := px ]} ∅ in
  let prototype := default [] (HTMLFormElement patched_window) in
  let after : list (option (HostObject (option Z))) := [None; None; None; None] in
  let d := mkDescriptor true (Some (VStr "1.0")) None None in
  inheritance patched_window = [] ++ Some prototype :: after
  /\ "version" ∈ for_in (Some prototype)
  /\ getOwnPropertyDescriptor prototype "version" = Some d
  /\ proxies σ !! 0 = Some px
  /\ proxy_get browser 0 "version" σ = (Ok VUndefined, σ).
Proof.
  intros px σ prototype after d.
  assert (H1 : inheritance patched_window = [] ++ Some prototype :: after) by reflexivity.
  assert (H2 : forall q : HostObject (option Z),
                 Some q ∈ [] -> "version" ∈ for_in (Some q) ->
                         getOwnPropertyDescriptor q "version" = None).
  { intros q Hq. by apply elem_of_nil in Hq. }
  assert (H3 : "version" ∈ for_in (Some prototype))
    by (apply (bool_decide_unpack ("version" ∈ for_in (Some prototype)));
        vm_compute; exact I).
  assert (H4 : getOwnPropertyDescriptor prototype "version" = Some d)
    by (vm_compute; reflexivity).
  assert (H5 : proxies σ !! 0 = Some px) by (vm_compute; reflexivity).
  assert (H6 : "version" ≠ "form_") by discriminate.
  assert (H7 : "version" ≠ "constructor") by discriminate.
  split; [exact H1|]. do 3 (split; [assumption|]).
  exact (data_property_reads_undefined browser None patched_window [] after prototype
           "version" d (VStr "1.0") σ 0 px
           H1 H2 H3 H4 eq_refl eq_refl eq_refl eq_refl eq_refl eq_refl H5 eq_refl eq_refl
           H6 H7).
Defined.




Lemma legacy_attr_property_witness :
  let σ := before_legacy_setup (empty_form_page None legacy_window) in
  let desc := mkLegacyDesc (num := option Z) ATTR (Some "novalidate") (Some TOGGLE)
                (Some (VBool false)) in
  proxies σ !! 0 = Some (proxy_of σ 0)
  /\ proxy_has (proxy_of σ 0) "noValidate" = false
  /\ assoc "noValidate" LEGACY_PROPS = Some desc
  /\ node_get browser σ 1 "noValidate" = Ok VUndefined
  /\ exists (σ1 : State (option Z)) (px1 : Proxy (option Z)),
       legacy_property browser 1 0 "noValidate" σ = (Ok tt, σ1)
       /\ proxies σ1 !! 0 = Some px1
       /\ own px1 !! "noValidate" = Some (AttrAccessor "novalidate" desc).
Proof.
  intros σ desc.
  assert (H1 : proxies σ !! 0 = Some (proxy_of σ 0)) by (vm_compute; reflexivity).
  assert (H2 : proxy_has (proxy_of σ 0) "noValidate" = false) by (vm_compute; reflexivity).
  assert (H3 : assoc "noValidate" LEGACY_PROPS = Some desc) by reflexivity.
  assert (H4 : node_get browser σ 1 "noValidate" = Ok VUndefined)
    by (vm_compute; reflexivity).
  do 4 (split; [assumption|]).
  destruct (legacy_attr_property browser σ 1 0 (proxy_of σ 0) "noValidate" desc VUndefined
              H1 H2 eq_refl eq_refl H3 eq_refl H4)
    as (σ1 & px1 & a & Hrun & _ & Hp1 & Hown & Ha & _).
  exists σ1, px1. split; [exact Hrun|]. split; [exact Hp1|].
  rewrite Hown, Ha. reflexivity.
Defined.

Lemma legacy_attr_missing_witness :
  let σ := legacy_page_with_proxy in
  proxies σ !! 0 = Some (proxy_of σ 0)
  /\ form_ (proxy_of σ 0) = VNode 1
  /\ is_Some (nodes σ !! 1)
  /\ has_attribute_methods (proxy_of σ 0)
  /\ own (proxy_of σ 0) !! "id"
     = Some (AttrAccessor "id" (mkLegacyDesc ATTR None None (Some (VStr ""))))
  /\ getAttribute 1 "id" σ = None
  /\ proxy_get browser 0 "id" σ = (Ok (VStr ""), σ).
Proof.
  intros σ.
  assert (H1 : proxies σ !! 0 = Some (proxy_of σ 0)) by (vm_compute; reflexivity).
  assert (H2 : form_ (proxy_of σ 0) = VNode 1) by (vm_compute; reflexivity).
  assert (H3 : is_Some (nodes σ !! 1)) by (vm_compute; eexists; reflexivity).
  assert (H4 : has_attribute_methods (proxy_of σ 0))
    by (repeat split; vm_compute; reflexivity).
  assert (H5 : "id" ≠ "form_") by discriminate.
  assert (H6 : own (proxy_of σ 0) !! "id"
               = Some (AttrAccessor "id" (mkLegacyDesc ATTR None None (Some (VStr "")))))
    by (vm_compute; reflexivity).
  assert (H7 : getAttribute 1 "id" σ = None) by (vm_compute; reflexivity).
  split; [exact H1|]. split; [exact H2|]. split; [exact H3|]. split; [exact H4|].
  split; [exact H6|]. split; [exact H7|].
  destruct (legacy_attr_missing browser σ 0 (proxy_of σ 0) 1 "id" "id" _
              H1 H2 H3 H4 H5 H6) as [Hget _].
  exact (Hget H7).
Defined.

Lemma legacy_attr_write_read_witness :
  let σ := legacy_page_with_proxy in
  proxies σ !! 0 = Some (proxy_of σ 0)
  /\ form_ (proxy_of σ 0) = VNode 1
  /\ is_Some (nodes σ !! 1)
  /\ has_attribute_methods (proxy_of σ 0)
  /\ own (proxy_of σ 0) !! "action"
     = Some (AttrAccessor "action" (mkLegacyDesc ATTR None (Some URL) None))
  /\ exists σ',
       proxy_set browser 0 "action" (VStr "/save") σ = (Ok tt, σ')
       /\ getAttribute 1 "action" σ' = Some "/save"
       /\ proxy_get browser 0 "action" σ'
          = (Ok (VStr (parseUrl_href browser "/save")), σ').
Proof.
  intros σ.
  assert (H1 : proxies σ !! 0 = Some (proxy_of σ 0)) by (vm_compute; reflexivity).
  assert (H2 : form_ (proxy_of σ 0) = VNode 1) by (vm_compute; reflexivity).
  assert (H3 : is_Some (nodes σ !! 1)) by (vm_compute; eexists; reflexivity).
  assert (H4 : has_attribute_methods (proxy_of σ 0))
    by (repeat split; vm_compute; reflexivity).
  assert (H5 : "action" ≠ "form_") by discriminate.
  assert (H6 : own (proxy_of σ 0) !! "action"
               = Some (AttrAccessor "action" (mkLegacyDesc ATTR None (Some URL) None)))
    by (vm_compute; reflexivity).
  assert (H7 : type (mkLegacyDesc (num := option Z) ATTR None (Some URL) None) ≠ Some TOGGLE)
    by discriminate.
  do 4 (split; [assumption|]). split; [exact H6|].
  exact (legacy_attr_write_read browser σ 0 (proxy_of σ 0) 1 "action" "action" _
           (VStr "/save") H1 H2 H3 H4 H5 H6 H7 eq_refl).
Defined.

Lemma legacy_read_once_frozen_witness :
  let σ := before_legacy_setup (empty_form_page None legacy_window) in
  proxies σ !! 0 = Some (proxy_of σ 0)
  /\ proxy_has (proxy_of σ 0) "style" = false
  /\ assoc "style" LEGACY_PROPS = Some (read_once (num := option Z))
  /\ node_get browser σ 1 "style" = Ok (VHostObj "style")
  /\ get_prop browser (VHostObj "style") "nodeType" σ = (Ok VUndefined, σ)
  /\ exists σ1,
       legacy_property browser 1 0 "style" σ = (Ok tt, σ1)
       /\ nodes σ1 = nodes σ
       /\ forall σ2,
            proxies σ2 !! 0 = proxies σ1 !! 0 ->
            proxy_get browser 0 "style" σ2 = (Ok (VHostObj "style"), σ2).
Proof.
  intros σ.
  assert (H1 : proxies σ !! 0 = Some (proxy_of σ 0)) by (vm_compute; reflexivity).
  assert (H2 : proxy_has (proxy_of σ 0) "style" = false) by (vm_compute; reflexivity).
  assert (H3 : assoc "style" LEGACY_PROPS = Some (read_once (num := option Z)))
    by reflexivity.
  assert (H4 : node_get browser σ 1 "style" = Ok (VHostObj "style"))
    by (vm_compute; reflexivity).
  assert (H5 : get_prop browser (VHostObj "style") "nodeType" σ = (Ok VUndefined, σ))
    by reflexivity.
  do 5 (split; [assumption|]).
  destruct (legacy_read_once_frozen browser σ 1 0 (proxy_of σ 0) "style" read_once
              (VHostObj "style") H1 H2 eq_refl eq_refl H3 eq_refl H4)
    as (σ1 & Hrun & Hnodes & Hfrozen).
  { right. exists VUndefined. split; [exact H5 | reflexivity]. }
  exists σ1. split; [exact Hrun|]. split; [exact Hnodes|].
  intros σ2 Hp. exact (proj1 (Hfrozen σ2 Hp)).
Defined.

Lemma legacy_read_once_unmasks_witness :
  let σ := before_legacy_setup (two_inputs_page None legacy_window "style" "other") in
  proxies σ !! 0 = Some (proxy_of σ 0)
  /\ proxy_has (proxy_of σ 0) "style" = false
  /\ node_get browser σ 1 "style" = Ok (VNode 2)
  /\ nodes σ !! 2 = Some (input_node "style" 1)
  /\ nodes σ !! 1 = Some (form_node [2; 3])
  /\ node_get browser σ 1 "removeChild" = Ok (VNative NRemoveChild)
  /\ node_get browser (detach 2 σ) 1 "insertBefore" = Ok (VNative NInsertBefore)
  /\ node_get browser (detach 2 σ) 1 "style" = Ok (VHostObj "style")
  /\ exists σ1,
       legacy_property browser 1 0 "style" σ = (Ok tt, σ1)
       /\ nodes σ1 = nodes σ
       /\ forall σ2,
            proxies σ2 !! 0 = proxies σ1 !! 0 ->
            proxy_get browser 0 "style" σ2 = (Ok (VHostObj "style"), σ2).
Proof.
  intros σ.
  assert (H1 : proxies σ !! 0 = Some (proxy_of σ 0)) by (vm_compute; reflexivity).
  assert (H2 : proxy_has (proxy_of σ 0) "style" = false) by (vm_compute; reflexivity).
  assert (H3 : assoc "style" LEGACY_PROPS = Some (read_once (num := option Z)))
    by reflexivity.
  assert (H4 : node_get browser σ 1 "style" = Ok (VNode 2)) by (vm_compute; reflexivity).
  assert (H5 : nodes σ !! 2 = Some (input_node "style" 1)) by (vm_compute; reflexivity).
  assert (H6 : nodes σ !! 1 = Some (form_node [2; 3])) by (vm_compute; reflexivity).
  assert (H7 : 2 ≠ 1) by lia.
  assert (H8 : NoDup (childNodes (form_node [2; 3])))
    by exact (bool_decide_unpack (NoDup [2; 3]) I).
  assert (H9 : 2 ∈ childNodes (form_node [2; 3])) by (by left).
  assert (H10 : forall r, next_sibling_list 2 (childNodes (form_node [2; 3])) = Some r ->
                          exists rd, nodes σ !! r = Some rd /\ parentNode rd = Some 1).
  { intros r Hr. injection Hr as <-. exists (input_node "other" 1).
    split; [vm_compute; reflexivity | reflexivity]. }
  assert (H11 : node_get browser σ 1 "removeChild" = Ok (VNative NRemoveChild))
    by (vm_compute; reflexivity).
  assert (H12 : node_get browser (detach 2 σ) 1 "insertBefore" = Ok (VNative NInsertBefore))
    by (vm_compute; reflexivity).
  assert (H13 : node_get browser (detach 2 σ) 1 "style" = Ok (VHostObj "style"))
    by (vm_compute; reflexivity).
  split; [exact H1|]. split; [exact H2|]. split; [exact H4|]. split; [exact H5|].
  split; [exact H6|]. split; [exact H11|]. split; [exact H12|]. split; [exact H13|].
  pose proof (legacy_read_once_unmasks browser σ 1 0 (proxy_of σ 0) "style" read_once
                2 1 (input_node "style" 1) (form_node [2; 3])
                H1 H2 eq_refl eq_refl H3 eq_refl H4 H5 eq_refl eq_refl H6 H7 H8 H9 H10
                eq_refl H11 H12) as H.
  rewrite H13 in H. exact H.
Defined.

Lemma legacy_direct_property_witness :
  let σ := before_legacy_setup (empty_form_page None legacy_window) in
  proxies σ !! 0 = Some (proxy_of σ 0)
  /\ proxy_has (proxy_of σ 0) "nodeType" = false
  /\ assoc "nodeType" (LEGACY_PROPS (num := option Z)) = None
  /\ node_get browser σ 1 "nodeType" = Ok (VNum (Some 1%Z))
  /\ exists σ1,
       legacy_property browser 1 0 "nodeType" σ = (Ok tt, σ1)
       /\ forall σ2,
            proxies σ2 !! 0 = proxies σ1 !! 0 ->
            proxy_get browser 0 "nodeType" σ2 = (node_get browser σ2 1 "nodeType", σ2).
Proof.
  intros σ.
  assert (H1 : proxies σ !! 0 = Some (proxy_of σ 0)) by (vm_compute; reflexivity).
  assert (H2 : proxy_has (proxy_of σ 0) "nodeType" = false) by (vm_compute; reflexivity).
  assert (H3 : assoc "nodeType" (LEGACY_PROPS (num := option Z)) = None) by reflexivity.
  assert (H4 : node_get browser σ 1 "nodeType" = Ok (VNum (Some 1%Z)))
    by (vm_compute; reflexivity).
  do 4 (split; [assumption|]).
  destruct (legacy_direct_property browser σ 1 0 (proxy_of σ 0) "nodeType"
              (VNum (Some 1%Z)) H1 H2 eq_refl eq_refl H3 H4)
    as (σ1 & Hrun & _ & Hlive).
  exists σ1. split; [exact Hrun|].
  intros σ2 Hp. exact (proj1 (Hlive σ2 Hp)).
Defined.

Lemma AmpPhotoSplitCompare_detached_witness :
  let σ := slider_page slider_attributes in
  nodes σ !! 1 = Some (slider_element slider_attributes)
  /\ exists (w : nat) (this : Widget (option Z)) (σ1 : State (option Z)),
       AmpPhotoSplitCompare 1 σ = (Ok w, σ1)
       /\ widgets σ1 !! w = Some this
       /\ nodes σ1 !! 1 = nodes σ !! 1.
Proof.
  intros σ.
  assert (H1 : nodes σ !! 1 = Some (slider_element slider_attributes))
    by (vm_compute; reflexivity).
  split; [exact H1|].
  destruct (AmpPhotoSplitCompare_detached σ 1 (slider_element slider_attributes) H1)
    as (w & this & σ1 & Hnew & Hw & _ & _ & _ & Hframe).
  exists w, this, σ1. split; [exact Hnew|]. split; [exact Hw|].
  apply Hframe. rewrite H1. eexists. reflexivity.
Defined.

Lemma slider_follows_touch_witness :
  let σ := slider_page slider_attributes in
  nodes σ !! 1 = Some (slider_element slider_attributes)
  /\ exists (w : nat) (this : Widget (option Z)) (σ1 σ2 σ3 : State (option Z))
            (cd : Node (option Z)),
       AmpPhotoSplitCompare 1 σ = (Ok w, σ1)
       /\ buildCallback browser w σ1 = (Ok tt, σ2)
       /\ dispatchEvent browser (slider_ this)
            (mkEvent "touchmove" (Some [mkTouch (Some 120%Z)])) σ2 = ([Ok tt], σ3)
       /\ (nodes σ3 !! image1Container_ this ≫= fun nd => style_ nd !! "width")
          = Some (tracked_width browser (Some 120%Z) (offsetLeft cd) (VStr "400")).
Proof.
  intros σ.
  assert (H1 : nodes σ !! 1 = Some (slider_element slider_attributes))
    by (vm_compute; reflexivity).
  split; [exact H1|].
  destruct (slider_follows_touch browser σ 1 (slider_element slider_attributes)
              (Some 120%Z) [] H1)
    as (w & this & σ1 & σ2 & σ3 & cd & H).
  cbv zeta in H.
  destruct H as (Hnew & _ & Hrun & Hcd & _ & Hmove & Hwidth & _).
  exists w, this, σ1, σ2, σ3, cd. split; [exact Hnew|]. split; [exact Hrun|].
  split; [exact Hmove|]. exact Hwidth.
Defined.

Lemma drag_ignores_recorded_start_witness :
  let σ := built_slider_page in
  let e0 := mkEvent "touchstart" (Some [mkTouch (Some 10%Z)]) in
  widgets σ !! 0 = Some slider_widget
  /\ touches e0 = Some [mkTouch (Some 10%Z)]
  /\ exists σ1,
       sliderBeginsMoving browser 0 e0 σ = (Ok tt, σ1)
       /\ nodes σ1 = nodes σ
       /\ (startX <$> widgets σ1 !! 0) = Some (Some (Some 10%Z)).
Proof.
  intros σ e0.
  assert (H1 : widgets σ !! 0 = Some slider_widget) by (vm_compute; reflexivity).
  assert (H2 : touches e0 = Some [mkTouch (Some 10%Z)]) by reflexivity.
  split; [exact H1|]. split; [exact H2|].
  destruct (drag_ignores_recorded_start browser σ 0 slider_widget e0
              (mkTouch (Some 10%Z)) [] H1 H2) as (σ1 & Hrun & Hnodes & Hstart & _).
  exists σ1. split; [exact Hrun|]. split; [exact Hnodes | exact Hstart].
Defined.

Lemma whileSliderMoving_needs_touches_witness :
  let σ := built_slider_page in
  let e := mkEvent "touchmove" None in
  widgets σ !! 0 = Some slider_widget
  /\ nodes σ !! 2 = Some (node_of σ 2)
  /\ nodes σ !! 1 = Some (node_of σ 1)
  /\ nodes σ !! 6 = Some (node_of σ 6)
  /\ exists msg, whileSliderMoving browser 0 e σ = (Throw (TypeError msg), σ).
Proof.
  intros σ e.
  assert (H1 : widgets σ !! 0 = Some slider_widget) by (vm_compute; reflexivity).
  assert (H2 : nodes σ !! 2 = Some (node_of σ 2)) by (vm_compute; reflexivity).
  assert (H3 : nodes σ !! 1 = Some (node_of σ 1)) by (vm_compute; reflexivity).
  assert (H4 : nodes σ !! 6 = Some (node_of σ 6)) by (vm_compute; reflexivity).
  do 4 (split; [assumption|]).
  destruct (whileSliderMoving_needs_touches browser σ 0 slider_widget e
              (node_of σ 2) (node_of σ 1) (node_of σ 6) H1 H2 H3 H4) as [_ Hthrow].
  apply Hthrow. left. reflexivity.
Defined.


Lemma createListeners_twice_witness :
  let σ := constructed_slider_page slider_attributes in
  widgets σ !! 0 = Some slider_widget
  /\ nodes σ !! 6 = Some (node_of σ 6)
  /\ exists σ2,
       (createListeners 0 ;; createListeners 0) σ = (Ok tt, σ2)
       /\ (listeners <$> nodes σ2 !! 6)
          = Some (listeners (node_of σ 6) ++ slider_listeners 0 ++ slider_listeners 0).
Proof.
  intros σ.
  assert (H1 : widgets σ !! 0 = Some slider_widget) by (vm_compute; reflexivity).
  assert (H2 : nodes σ !! 6 = Some (node_of σ 6)) by (vm_compute; reflexivity).
  split; [exact H1|]. split; [exact H2|].
  destruct (createListeners_twice σ 0 slider_widget (node_of σ 6) H1 H2)
    as (σ2 & Hrun & Hl & _).
  exists σ2. split; [exact Hrun | exact Hl].
Defined.

Lemma buildPhotoCompareSlider_idempotent_witness :
  let σ := slider_page slider_attributes in
  nodes σ !! 1 = Some (slider_element slider_attributes)
  /\ (forall n, n ∈ childNodes (slider_element slider_attributes) ->
                is_Some (nodes σ !! n))
  /\ exists (w : nat) (σ1 σ2 : State (option Z)),
       AmpPhotoSplitCompare 1 σ = (Ok w, σ1)
       /\ buildCallback browser w σ1 = (Ok tt, σ2)
       /\ buildPhotoCompareSlider browser w σ2 = (Ok tt, σ2).
Proof.
  intros σ.
  assert (H1 : nodes σ !! 1 = Some (slider_element slider_attributes))
    by (vm_compute; reflexivity).
  assert (H2 : forall n, n ∈ childNodes (slider_element slider_attributes) ->
                         is_Some (nodes σ !! n)).
  { intros n Hn. simpl in Hn. by apply elem_of_nil in Hn. }
  split; [exact H1|]. split; [exact H2|].
  destruct (buildPhotoCompareSlider_idempotent browser σ 1
              (slider_element slider_attributes) H1 H2)
    as (w & this & σ1 & σ2 & Hnew & _ & Hrun & _ & Hagain).
  exists w, σ1, σ2. split; [exact Hnew|]. split; [exact Hrun | exact Hagain].
Defined.


